(** * Pony migrations: value serializer and command-line front end

    A shallow embedding of [pony/migrate/serializer.py] and
    [pony/migrate/command.py].  Python values are given as an inductive
    type that records the attributes the two modules read; a call that may
    raise returns a [result]; the command module, which prints, prompts,
    writes files and mutates [sys.argv], runs in a state-and-error monad
    over an explicit [world].

    The embedding fixes a Python 3 runtime: [PY2] is [false], functions
    carry a [__qualname__], and values of unrelated types are not ordered
    by [<].  Two parts of the source are left out: the class
    [EntityDeclarationSerializer], which [serializer_factory] never returns,
    and [add_migrate_to_click], which only registers [cli] with click. *)

From Stdlib Require Import ZArith String Ascii List Bool Lia Sorted Permutation.
From stdpp Require Import base decidable option list sets gmap strings sorting pretty.

Local Open Scope Z_scope.

(** ** Exceptions and results *)

Module Py.

(** The exceptions the two modules raise themselves or let the interpreter
    raise.  A message is kept where the source supplies one; [ValueError None]
    is a bare [raise ValueError]. *)
Inductive exn : Type :=
| ValueError (msg : option string)
| TypeError
| AttributeError
| ImportError
| NotImplementedError
| AssertionError
| Exception (msg : string)
| MergeAborted
| DatabaseError
| SystemExit
| OverflowError.

Inductive result (A : Type) : Type :=
| Ok (a : A)
| Raise (e : exn).
Arguments Ok {A} a.
Arguments Raise {A} e.

#[global] Instance result_ret : MRet result := fun A a => Ok a.
#[global] Instance result_bind : MBind result := fun A B f m =>
  match m with
  | Ok a => f a
  | Raise e => Raise e
  end.

#[global] Instance exn_eq_dec : EqDecision exn.
Proof. solve_decision. Defined.

(** [PY2] of [pony.py23compat] *)
Definition PY2 : bool := false.

(** ** Strings

    A text is a sequence of characters with code points below 256, a byte
    string a sequence of bytes; both are a [string], and the order of
    [String.ltb] is the order of the code points. *)

Definition squote : ascii := "039"%char.
Definition dquote : ascii := "034"%char.
Definition backslash : ascii := "092"%char.

Definition str1 (a : ascii) : string := String a EmptyString.

(** [sep.join(l)] *)
Fixpoint join (sep : string) (l : list string) : string :=
  match l with
  | [] => EmptyString
  | [s] => s
  | s :: l' => s +:+ sep +:+ join sep l'
  end.

(** [c in s] for a one-character [c] *)
Fixpoint contains (c : ascii) (s : string) : bool :=
  match s with
  | EmptyString => false
  | String a s' => bool_decide (a = c) || contains c s'
  end.

(** [s.rsplit(c, 1)] when it yields two parts; [None] when [c] does not
    occur and the split has one part only. *)
Fixpoint rsplit1 (c : ascii) (s : string) : option (string * string) :=
  match s with
  | EmptyString => None
  | String a s' =>
      match rsplit1 c s' with
      | Some (hd, tl) => Some (String a hd, tl)
      | None => if bool_decide (a = c) then Some (EmptyString, s') else None
      end
  end.

(** [s.replace(old, new)] for a non-empty [old]: occurrences are replaced
    from the left and do not overlap.  [skip] counts the characters of a
    replaced occurrence that are still to be dropped. *)
Fixpoint replace_go (old new : string) (skip : nat) (s : string) : string :=
  match s with
  | EmptyString => EmptyString
  | String a s' =>
      match skip with
      | S k => replace_go old new k s'
      | O =>
          if String.prefix old s
          then new +:+ replace_go old new (Nat.pred (String.length old)) s'
          else String a (replace_go old new O s')
      end
  end.
Definition replace (old new s : string) : string := replace_go old new O s.

(** [s[-n:]] and [s[:-n]] for [n > 0] *)
Definition last_chars (n : nat) (s : string) : string :=
  String.substring (String.length s - n) n s.
Definition drop_last (n : nat) (s : string) : string :=
  String.substring 0 (String.length s - n) s.

(** [repr] of an [int] *)
Definition repr_int (z : Z) : string := pretty z.

Definition hex_digit (n : N) : ascii :=
  ascii_of_N (if (n <? 10)%N then 48 + n else 87 + n)%N.
Definition hex_escape (a : ascii) : string :=
  let n := N_of_ascii a in
  String backslash (String "x"%char
    (String (hex_digit (n / 16)%N) (str1 (hex_digit (n mod 16)%N)))).

(** The quote [repr] picks: a single quote, unless the text has a single
    quote and no double quote. *)
Definition repr_quote (s : string) : ascii :=
  if contains squote s && negb (contains dquote s) then dquote else squote.

(** One character of [repr(str)].  The characters that are not printable
    are escaped: the control characters up to 31 and from 127 to 159, the
    no-break space 160 and the soft hyphen 173. *)
Definition repr_str_char (q a : ascii) : string :=
  let n := N_of_ascii a in
  if bool_decide (a = q) || bool_decide (a = backslash) then String backslash (str1 a)
  else if (n =? 9)%N then String backslash "t"
  else if (n =? 10)%N then String backslash "n"
  else if (n =? 13)%N then String backslash "r"
  else if (n <? 32)%N || (127 <=? n)%N && (n <=? 160)%N || (n =? 173)%N then hex_escape a
  else str1 a.

(** One character of [repr(bytes)]: every byte outside 32..126 is escaped. *)
Definition repr_bytes_char (q a : ascii) : string :=
  let n := N_of_ascii a in
  if bool_decide (a = q) || bool_decide (a = backslash) then String backslash (str1 a)
  else if (n =? 9)%N then String backslash "t"
  else if (n =? 10)%N then String backslash "n"
  else if (n =? 13)%N then String backslash "r"
  else if (n <? 32)%N || (127 <=? n)%N then hex_escape a
  else str1 a.

Fixpoint concat_map (f : ascii -> string) (s : string) : string :=
  match s with
  | EmptyString => EmptyString
  | String a s' => f a +:+ concat_map f s'
  end.

Definition repr_str (s : string) : string :=
  let q := repr_quote s in
  String q (concat_map (repr_str_char q) s +:+ str1 q).

Definition repr_bytes (s : string) : string :=
  let q := repr_quote s in
  String "b"%char (String q (concat_map (repr_bytes_char q) s +:+ str1 q)).

(** [sorted] on items compared by their first component, as Python compares
    the items of a dictionary (whose keys are pairwise different) and as a
    query orders rows by one column.  Equal keys keep their order. *)
Section sorted.
Context {K X : Type} (lt : K -> K -> bool).

Fixpoint insert_item (x : K * X) (l : list (K * X)) : list (K * X) :=
  match l with
  | [] => [x]
  | y :: l' => if lt (fst y) (fst x) then y :: insert_item x l' else x :: l
  end.

Fixpoint sorted (l : list (K * X)) : list (K * X) :=
  match l with
  | [] => []
  | x :: l' => insert_item x (sorted l')
  end.
End sorted.

End Py.

(** ** The serializer: [pony/migrate/serializer.py] *)

Module Serializer.
Import Py.

(** *** Values

    A Python value is given by its kind and by the attributes the serializer
    reads from it.  Where the serializer only takes [repr(value)] of an object
    of another library (dates, decimals, finite floats), the value carries
    that text. *)

Inductive pyfloat : Type :=
| FNan
| FInf (negative : bool)
| FFinite (repr : string).

(** [value.tzinfo]: absent, the shared [utc] object, or another zone. *)
Inductive tzinfo : Type := TzNone | TzUtc | TzOther.

(** A [datetime.datetime]: its zone, its [repr], and what
    [value.astimezone(utc)] gives, read only for a zone other than [utc]: the
    [repr] of the converted value, or the exception of the conversion, which
    is an [OverflowError] for a value too close to [datetime.min] or
    [datetime.max]. *)
Record datetime : Type := {
  dt_tzinfo : tzinfo;
  dt_repr : string;
  dt_utc_repr : result string;
}.

(** A class: [__module__], [__name__], and whether [hasattr(cls, 'deconstruct')]. *)
Record pytype : Type := {
  ty_module : string;
  ty_name : string;
  ty_has_deconstruct : bool;
}.

(** A function or built-in function.  [fn_self_class] is
    [(__self__.__module__, __self__.__name__)] when [__self__] is a class;
    [fn_source] is [ast2src(decompile(func)[0])], or what [decompile] raises. *)
Record function : Type := {
  fn_self_class : option (string * string);
  fn_name : string;
  fn_module : option string;
  fn_qualname : option string;
  fn_repr : string;
  fn_source : result string;
}.

(** Dictionary keys: the embedding has [int] and [str] keys. *)
Inductive dkey : Type :=
| KInt (z : Z)
| KStr (s : string).

#[global] Instance dkey_eq_dec : EqDecision dkey.
Proof. solve_decision. Defined.

(** What a value's own [serialize_deconstructed] attribute returns on the
    value's [deconstruct()], for a value that has this attribute. *)
Definition custom_hook : Type := option (result (string * gset string)).

#[local] Set Warnings "-register-all".
Inductive value : Type :=
| VNone
| VBool (b : bool)
| VInt (z : Z)
| VFloat (f : pyfloat)
| VBytes (b : string)
| VStr (s : string)
| VDecimal (repr : string)
| VDatetime (d : datetime)
| VDate (repr : string)
| VTime (repr : string)
| VTimedelta (repr : string)
| VEnum (module cls : string) (member_value : value)
| VFrozenset (items : list value)
| VList (items : list value)
| VSet (items : list value)
| VTuple (items : list value)
| VDict (items : list (dkey * value))
| VType (t : pytype)
| VEntity (name : string)
| VAttribute (path : string) (args : list value) (kwargs : list (string * value))
| VObject (path : string) (args : list value) (kwargs : list (string * value))
          (hook : custom_hook)
| VPartial (func args keywords : value)
| VFunction (f : function)
| VIterable (items : list value)
| VRegex (pattern flags : value)
| VOpaque.

Definition key_value (k : dkey) : value :=
  match k with
  | KInt z => VInt z
  | KStr s => VStr s
  end.

(** Truth value, for the one test the serializer makes ([if self.value.flags],
    on the integer flags of a pattern): empty and zero values are false. *)
Definition truthy (v : value) : bool :=
  match v with
  | VNone => false
  | VBool b => b
  | VInt z => negb (z =? 0)
  | VBytes s | VStr s => negb (bool_decide (s = EmptyString))
  | VFrozenset l | VList l | VSet l | VTuple l => negb (bool_decide (l = []))
  | VDict l => negb (bool_decide (l = []))
  | _ => true
  end.

(** *** [isinstance] and [hasattr] tests of [serializer_factory] *)

Definition is_Attribute (v : value) : bool :=
  match v with VAttribute _ _ _ => true | _ => false end.
Definition is_EntityMeta (v : value) : bool :=
  match v with VEntity _ => true | _ => false end.
(** An entity class is a class too. *)
Definition is_type (v : value) : bool :=
  match v with VType _ | VEntity _ => true | _ => false end.
(** Attributes and entity classes have a [deconstruct] of their own. *)
Definition has_deconstruct (v : value) : bool :=
  match v with
  | VAttribute _ _ _ | VEntity _ | VObject _ _ _ _ => true
  | VType t => ty_has_deconstruct t
  | _ => false
  end.
Definition is_frozenset (v : value) : bool :=
  match v with VFrozenset _ => true | _ => false end.
Definition is_list (v : value) : bool :=
  match v with VList _ => true | _ => false end.
Definition is_set (v : value) : bool :=
  match v with VSet _ => true | _ => false end.
Definition is_tuple (v : value) : bool :=
  match v with VTuple _ => true | _ => false end.
Definition is_dict (v : value) : bool :=
  match v with VDict _ => true | _ => false end.
Definition is_Enum (v : value) : bool :=
  match v with VEnum _ _ _ => true | _ => false end.
Definition is_datetime (v : value) : bool :=
  match v with VDatetime _ => true | _ => false end.
(** [datetime.datetime] is a subclass of [datetime.date]. *)
Definition is_date (v : value) : bool :=
  match v with VDatetime _ | VDate _ => true | _ => false end.
Definition is_time (v : value) : bool :=
  match v with VTime _ => true | _ => false end.
Definition is_timedelta (v : value) : bool :=
  match v with VTimedelta _ => true | _ => false end.
Definition is_float (v : value) : bool :=
  match v with VFloat _ => true | _ => false end.
(** [int_types + (bool, type(None))] *)
Definition is_int_bool_none (v : value) : bool :=
  match v with VInt _ | VBool _ | VNone => true | _ => false end.
Definition is_bytes (v : value) : bool :=
  match v with VBytes _ => true | _ => false end.
Definition is_unicode (v : value) : bool :=
  match v with VStr _ => true | _ => false end.
Definition is_Decimal (v : value) : bool :=
  match v with VDecimal _ => true | _ => false end.
Definition is_partial (v : value) : bool :=
  match v with VPartial _ _ _ => true | _ => false end.
Definition is_function (v : value) : bool :=
  match v with VFunction _ => true | _ => false end.
Definition is_Iterable (v : value) : bool :=
  match v with
  | VBytes _ | VStr _ | VFrozenset _ | VList _ | VSet _ | VTuple _ | VDict _
  | VIterable _ => true
  | _ => false
  end.
Definition is_regex (v : value) : bool :=
  match v with VRegex _ _ => true | _ => false end.

(** The serializer classes [serializer_factory] can return. *)
Inductive serializer : Type :=
| AttributeSerializer
| EntitySerializer
| TypeSerializer
| DeconstructableSerializer
| FrozensetSerializer
| SequenceSerializer
| SetSerializer
| TupleSerializer
| DictionarySerializer
| EnumSerializer
| DatetimeSerializer
| DateSerializer
| TimeSerializer
| TimedeltaSerializer
| FloatSerializer
| BaseSimpleSerializer
| ByteTypeSerializer
| TextTypeSerializer
| DecimalSerializer
| FunctoolsPartialSerializer
| FunctionTypeSerializer
| IterableSerializer
| RegexSerializer.

#[global] Instance serializer_eq_dec : EqDecision serializer.
Proof. solve_decision. Defined.

(** The serialization context: the flags of the [ctx] dictionary. *)
Record context : Type := {
  has_db_var : bool;
  is_dynamic : bool;
}.

(** [ctx = {}] *)
Definition empty_ctx : context := {| has_db_var := false; is_dynamic := false |}.

(** [serializer_factory]: the class chosen for [value], tests in the order of
    the source; the last line is the bare [raise ValueError]. *)
Definition serializer_factory (v : value) : result serializer :=
  if is_Attribute v then Ok AttributeSerializer
  else if is_EntityMeta v then Ok EntitySerializer
  else if is_type v then Ok TypeSerializer
  else if has_deconstruct v then Ok DeconstructableSerializer
  else if is_frozenset v then Ok FrozensetSerializer
  else if is_list v then Ok SequenceSerializer
  else if is_set v then Ok SetSerializer
  else if is_tuple v then Ok TupleSerializer
  else if is_dict v then Ok DictionarySerializer
  else if is_Enum v then Ok EnumSerializer
  else if is_datetime v then Ok DatetimeSerializer
  else if is_date v then Ok DateSerializer
  else if is_time v then Ok TimeSerializer
  else if is_timedelta v then Ok TimedeltaSerializer
  else if is_float v then Ok FloatSerializer
  else if is_int_bool_none v then Ok BaseSimpleSerializer
  else if is_bytes v then Ok ByteTypeSerializer
  else if is_unicode v then Ok TextTypeSerializer
  else if is_Decimal v then Ok DecimalSerializer
  else if is_partial v then Ok FunctoolsPartialSerializer
  else if is_function v then Ok FunctionTypeSerializer
  else if is_Iterable v then Ok IterableSerializer
  else if is_regex v then Ok RegexSerializer
  else Raise (ValueError None).

(** The context the chosen serializer is built with: [ctx or {}], and
    [dict(ctx, is_dynamic=True)] for a function. *)
Definition factory_ctx (ctx : option context) (v : value) : context :=
  let c := default empty_ctx ctx in
  match serializer_factory v with
  | Ok FunctionTypeSerializer => {| has_db_var := has_db_var c; is_dynamic := true |}
  | _ => c
  end.

(** *** Pieces of the serializer classes *)

(** What [serialize()] returns: the text and the set of import lines. *)
Definition output : Type := (string * gset string)%type.

(** The loop of [BaseSequenceSerializer.serialize], [IterableSerializer.serialize]
    and the first loop of [_format_args], over the items' own results: the
    first item that raises ends the loop. *)
Fixpoint collect (rs : list (result output)) : result (list string * gset string) :=
  match rs with
  | [] => Ok ([], ∅)
  | r :: rs' =>
      '(item_string, item_imports) ← r;
      '(strings, imports) ← collect rs';
      Ok (item_string :: strings, item_imports ∪ imports)
  end.

(** [<] on keys of one type; [None] where Python 3 raises [TypeError]. *)
Definition key_lt (a b : dkey) : option bool :=
  match a, b with
  | KInt x, KInt y => Some (x <? y)
  | KStr s, KStr t => Some (String.ltb s t)
  | _, _ => None
  end.

Definition same_kind (a b : dkey) : bool :=
  match key_lt a b with Some _ => true | None => false end.

(** The comparison [sorted] makes between two keys of one type. *)
Definition key_before (a b : dkey) : bool := default false (key_lt a b).

(** [sorted] compares every item with another one as soon as there are two;
    it raises [TypeError] when an [int] key meets a [str] key. *)
Definition sorted_items {X : Type} (l : list (dkey * X)) : result (list (dkey * X)) :=
  match l with
  | [] => Ok []
  | (k0, _) :: _ =>
      if forallb (fun kx => same_kind k0 (fst kx)) l
      then Ok (sorted key_before l)
      else Raise TypeError
  end.

(** The second loop of [_format_args], over the sorted keyword arguments. *)
Fixpoint collect_kwargs (rs : list (string * result output))
  : result (list string * gset string) :=
  match rs with
  | [] => Ok ([], ∅)
  | (kw, r) :: rs' =>
      '(arg_string, arg_imports) ← r;
      '(strings, imports) ← collect_kwargs rs';
      Ok ((kw +:+ "=" +:+ arg_string) :: strings, arg_imports ∪ imports)
  end.

(** The loop of [DictionarySerializer.serialize], over the sorted items. *)
Fixpoint collect_dict (rs : list (dkey * (result output * result output)))
  : result (list (string * string) * gset string) :=
  match rs with
  | [] => Ok ([], ∅)
  | (_, (rk, rv)) :: rs' =>
      '(k_string, k_imports) ← rk;
      '(v_string, v_imports) ← rv;
      '(strings, imports) ← collect_dict rs';
      Ok ((k_string, v_string) :: strings, k_imports ∪ v_imports ∪ imports)
  end.

(** [DeconstructableSerializer._serialize_path]; [rsplit] with no dot gives
    one part and the unpacking raises. *)
Definition _serialize_path (path : string) : result output :=
  match rsplit1 "."%char path with
  | None => Raise (ValueError (Some "not enough values to unpack (expected 2, got 1)"))
  | Some (module, name) =>
      if bool_decide (module = "pony.orm.core")
      then Ok ("orm." +:+ name, {[ "from pony import orm" ]})
      else if bool_decide (module = "pony.migrate.diagram_ops")
      then Ok ("op." +:+ name, {[ "from pony.migrate import diagram_ops as op" ]})
      else Ok (path, {[ "import " +:+ module ]})
  end.

(** [DeconstructableSerializer._format_args], given the results of the
    positional arguments in order and of the keyword arguments by name. *)
Definition _format_args (args : list (result output))
    (kwargs : list (string * result output)) : result output :=
  '(strings1, imports1) ← collect args;
  '(strings2, imports2) ← collect_kwargs (sorted String.ltb kwargs);
  Ok (join ", " (strings1 ++ strings2), imports1 ∪ imports2).

(** [DeconstructableSerializer.serialize_deconstructed] *)
Definition serialize_deconstructed (path : string) (args : list (result output))
    (kwargs : list (string * result output)) : result output :=
  '(name, imports) ← _serialize_path path;
  '(param, im) ← _format_args args kwargs;
  Ok (name +:+ "(" +:+ param +:+ ")", imports ∪ im).

(** [BaseSequenceSerializer.serialize]; [before] and [after] are the two
    sides of the [%s] of [_format()]. *)
Definition sequence_serialize (before after : string) (items : list (result output))
  : result output :=
  '(strings, imports) ← collect items;
  Ok (before +:+ join ", " strings +:+ after, imports).

(** [TupleSerializer._format], on [len(self.value)] *)
Definition tuple_format (len : nat) : string * string :=
  if negb (Nat.eqb len 1) then ("(", ")") else ("(", ",)").

(** [IterableSerializer.serialize], the format chosen on [len(strings)] *)
Definition iterable_serialize (items : list (result output)) : result output :=
  '(strings, imports) ← collect items;
  let '(before, after) :=
    if negb (Nat.eqb (length strings) 1) then ("(", ")") else ("(", ",)") in
  Ok (before +:+ join ", " strings +:+ after, imports).

(** [DictionarySerializer.serialize], given the items with the results of
    their keys and values. *)
Definition dictionary_serialize (items : list (dkey * (result output * result output)))
  : result output :=
  its ← sorted_items items;
  '(strings, imports) ← collect_dict its;
  Ok ("{" +:+ join ", " (map (fun kv => fst kv +:+ ": " +:+ snd kv) strings) +:+ "}",
      imports).

(** [BaseSimpleSerializer.serialize] on [None], a [bool] or an [int] *)
Definition repr_simple (v : value) : result string :=
  match v with
  | VNone => Ok "None"
  | VBool true => Ok "True"
  | VBool false => Ok "False"
  | VInt z => Ok (repr_int z)
  | _ => Raise AttributeError
  end.

(** [FloatSerializer.serialize]: [str] of a NaN or an infinity goes between
    the double quotes of [float("{}")]. *)
Definition float_serialize (f : pyfloat) : output :=
  let call s := "float(" +:+ str1 dquote +:+ s +:+ str1 dquote +:+ ")" in
  match f with
  | FNan => (call "nan", ∅)
  | FInf false => (call "inf", ∅)
  | FInf true => (call "-inf", ∅)
  | FFinite r => (r, ∅)
  end.

(** [DatetimeSerializer.serialize]: a value in a zone other than [utc] is
    converted first, and a conversion that raises ends the serialization. *)
Definition datetime_serialize (d : datetime) : result output :=
  value_repr ←
    match dt_tzinfo d with
    | TzOther => dt_utc_repr d
    | _ => Ok (dt_repr d)
    end;
  let value_repr := replace "<UTC>" "utc" value_repr in
  let aware := match dt_tzinfo d with TzNone => false | _ => true end in
  Ok (value_repr,
      if aware then {[ "import datetime" ]} ∪ {[ "from pony.migrate.utils import utc" ]}
      else {[ "import datetime" ]}).

(** [builtins.__name__] *)
Definition builtins_name : string := "builtins".

(** [TypeSerializer.serialize]; [decimal.Decimal] is the class of that module
    and name. *)
Definition type_serialize (t : pytype) : output :=
  if bool_decide (ty_module t = "decimal") && bool_decide (ty_name t = "Decimal")
  then ("Decimal", {[ "from decimal import Decimal" ]})
  else if bool_decide (ty_module t = builtins_name) then (ty_name t, ∅)
  else (ty_module t +:+ "." +:+ ty_name t, {[ "import " +:+ ty_module t ]}).

(** The modules [import_module] finds, each with the names [hasattr] finds in
    it. *)
Definition modules : Type := gmap string (gset string).

(** [FunctionTypeSerializer.serialize]; [import_module] refuses an empty
    name with a [ValueError] and a name it does not find with an
    [ImportError]. *)
Definition function_serialize (mods : modules) (func : function) : result output :=
  match fn_self_class func with
  | Some (module, klass_name) =>
      Ok (module +:+ "." +:+ klass_name +:+ "." +:+ fn_name func, {[ "import " +:+ module ]})
  | None =>
      if bool_decide (fn_name func = "<lambda>")
      then src ← fn_source func; Ok ("lambda: " +:+ src, ∅)
      else
        match fn_module func with
        | None =>
            Raise (ValueError (Some ("Cannot serialize function " +:+ fn_repr func
                                       +:+ ": No module")))
        | Some module_name =>
            let qualified :=
              match fn_qualname func with
              | Some q =>
                  if negb (bool_decide (q = EmptyString))
                     && negb (bool_decide (module_name = EmptyString))
                     && negb (contains "<"%char q)
                  then Some q else None
              | None => None
              end in
            match qualified with
            | Some q => Ok (module_name +:+ "." +:+ q, {[ "import " +:+ module_name ]})
            | None =>
                if bool_decide (module_name = EmptyString)
                then Raise (ValueError (Some "Empty module name"))
                else
                  match mods !! module_name with
                  | None => Raise ImportError
                  | Some names =>
                      if negb (bool_decide (fn_name func ∈ names))
                      then Raise (ValueError (Some (
                        "Could not find function " +:+ fn_name func +:+ " in "
                        +:+ module_name +:+ "." +:+ str1 "010"%char
                        +:+ "Please note that due to Python 2 limitations, you cannot "
                        +:+ "serialize unbound method functions (e.g. a method "
                        +:+ "declared and used in the same class body). Please move "
                        +:+ "the function into the main module body to use migrations.")))
                      else if bool_decide (module_name = "__builtin__")
                      then Ok (fn_name func, ∅)
                      else Ok (module_name +:+ "." +:+ fn_name func,
                               {[ "import " +:+ module_name ]})
                  end
            end
        end
  end.

(** [serializer_factory(k).serialize()] for a dictionary key: an [int] goes
    to [BaseSimpleSerializer], a [str] to [TextTypeSerializer]. *)
Definition text_serialize (s : string) : output :=
  let value_repr := repr_str s in
  (if PY2 then String.substring 1 (String.length value_repr - 1) value_repr
   else value_repr, ∅).

Definition serialize_key (k : dkey) : result output :=
  match k with
  | KInt z => Ok (repr_int z, ∅)
  | KStr s => Ok (text_serialize s)
  end.

(** *** [serializer_factory(value, ctx).serialize()]

    The class is chosen by [serializer_factory]; each branch is the
    [serialize] method of that class, reading the attributes of the kind of
    value its class is chosen for.  [serializer_factory] never pairs a class
    with a value of another kind; those branches are [wrong_kind]. *)
Definition wrong_kind : result output := Raise AttributeError.

Fixpoint serialize (mods : modules) (ctx : context) (v : value) {struct v}
  : result output :=
  let self_ctx := factory_ctx (Some ctx) v in
  let item := serialize mods empty_ctx in
  match serializer_factory v with
  | Raise e => Raise e
  | Ok AttributeSerializer =>
      match v with
      | VAttribute path args kwargs =>
          serialize_deconstructed path
            (map (serialize mods self_ctx) args)
            (map (fun kw => (fst kw, serialize mods self_ctx (snd kw))) kwargs)
      | _ => wrong_kind
      end
  | Ok EntitySerializer =>
      match v with
      | VEntity name =>
          if has_db_var self_ctx then Ok ("db." +:+ name, ∅) else Ok (repr_str name, ∅)
      | _ => wrong_kind
      end
  | Ok TypeSerializer =>
      match v with
      | VType t => Ok (type_serialize t)
      | _ => wrong_kind
      end
  | Ok DeconstructableSerializer =>
      match v with
      | VObject path args kwargs hook =>
          match hook with
          | Some own => own
          | None =>
              serialize_deconstructed path
                (map (serialize mods self_ctx) args)
                (map (fun kw => (fst kw, serialize mods self_ctx (snd kw))) kwargs)
          end
      | _ => wrong_kind
      end
  | Ok FrozensetSerializer =>
      match v with
      | VFrozenset items => sequence_serialize "frozenset([" "])" (map item items)
      | _ => wrong_kind
      end
  | Ok SequenceSerializer =>
      match v with
      | VList items => sequence_serialize "[" "]" (map item items)
      | _ => wrong_kind
      end
  | Ok SetSerializer =>
      match v with
      | VSet items => sequence_serialize "set([" "])" (map item items)
      | _ => wrong_kind
      end
  | Ok TupleSerializer =>
      match v with
      | VTuple items =>
          let '(before, after) := tuple_format (length items) in
          sequence_serialize before after (map item items)
      | _ => wrong_kind
      end
  | Ok DictionarySerializer =>
      match v with
      | VDict items =>
          dictionary_serialize
            (map (fun kv => (fst kv, (serialize_key (fst kv), item (snd kv)))) items)
      | _ => wrong_kind
      end
  | Ok EnumSerializer =>
      match v with
      | VEnum module cls member_value =>
          '(v_string, v_imports) ← item member_value;
          Ok (module +:+ "." +:+ cls +:+ "(" +:+ v_string +:+ ")",
              {[ "import " +:+ module ]} ∪ v_imports)
      | _ => wrong_kind
      end
  | Ok DatetimeSerializer =>
      match v with
      | VDatetime d => datetime_serialize d
      | _ => wrong_kind
      end
  | Ok DateSerializer =>
      match v with
      | VDate r => Ok (r, {[ "import datetime" ]})
      | _ => wrong_kind
      end
  | Ok TimeSerializer =>
      match v with
      | VTime r => Ok (r, {[ "import datetime" ]})
      | _ => wrong_kind
      end
  | Ok TimedeltaSerializer =>
      match v with
      | VTimedelta r => Ok (r, {[ "import datetime" ]})
      | _ => wrong_kind
      end
  | Ok FloatSerializer =>
      match v with
      | VFloat f => Ok (float_serialize f)
      | _ => wrong_kind
      end
  | Ok BaseSimpleSerializer => r ← repr_simple v; Ok (r, ∅)
  | Ok ByteTypeSerializer =>
      match v with
      | VBytes b => Ok (repr_bytes b, ∅)
      | _ => wrong_kind
      end
  | Ok TextTypeSerializer =>
      match v with
      | VStr s => Ok (text_serialize s)
      | _ => wrong_kind
      end
  | Ok DecimalSerializer =>
      match v with
      | VDecimal r => Ok (r, {[ "from decimal import Decimal" ]})
      | _ => wrong_kind
      end
  | Ok FunctoolsPartialSerializer =>
      match v with
      | VPartial func args keywords =>
          '(func_string, func_imports) ← item func;
          '(args_string, args_imports) ← item args;
          '(keywords_string, keywords_imports) ← item keywords;
          Ok ("functools.partial(" +:+ func_string +:+ ", *" +:+ args_string
                +:+ ", **" +:+ keywords_string +:+ ")",
              {[ "import functools" ]} ∪ func_imports ∪ args_imports ∪ keywords_imports)
      | _ => wrong_kind
      end
  | Ok FunctionTypeSerializer =>
      match v with
      | VFunction func => function_serialize mods func
      | _ => wrong_kind
      end
  | Ok IterableSerializer =>
      match v with
      | VIterable items => iterable_serialize (map item items)
      | _ => wrong_kind
      end
  | Ok RegexSerializer =>
      match v with
      | VRegex pattern flags =>
          '(regex_pattern, pattern_imports) ← item pattern;
          '(regex_flags, flag_imports) ← item flags;
          let args := if truthy flags then [regex_pattern; regex_flags] else [regex_pattern] in
          Ok ("re.compile(" +:+ join ", " args +:+ ")",
              {[ "import re" ]} ∪ pattern_imports ∪ flag_imports)
      | _ => wrong_kind
      end
  end.

(** [serializer_factory(value, ctx=None).serialize()] *)
Definition serialize_value (mods : modules) (ctx : option context) (v : value)
  : result output :=
  serialize mods (default empty_ctx ctx) v.

(** *** [EntityDeclarationSerializer]

    This class is built by the caller on an entity class, not by
    [serializer_factory].  The declaration it reads: the name and the bases
    of [deconstruct()], the items of the class dictionary in their order,
    [_new_attrs_] as pairs of [attr.name] and the attribute, and the names of
    [_pk_attrs_]. *)

(** A member of the class dictionary: its value, and whether it is a
    method, a plain function or a property
    ([isinstance(value, (types.MethodType, types.FunctionType, property))]). *)
Record member : Type := {
  m_value : value;
  m_is_method_function_or_property : bool;
}.

Record entity_declaration : Type := {
  ed_name : string;
  ed_bases : list value;
  ed_cls_dict : list (string * member);
  ed_new_attrs : list (string * value);
  ed_pk_attrs : list string;
}.

(** [EntitySerializer(cls, ctx=self.ctx).serialize()] for a base; reading
    [has_db_var] off a context that is [None] raises. *)
Definition base_serialize (ctx : option context) (cls : value) : result output :=
  match ctx, cls with
  | None, _ => Raise AttributeError
  | Some c, VEntity name =>
      if has_db_var c then Ok ("db." +:+ name, ∅) else Ok (repr_str name, ∅)
  | Some _, _ => wrong_kind
  end.

(** The loop over [bases]: only the subclasses of [core.Entity] are kept. *)
Fixpoint declaration_bases (ctx : option context) (bases : list value)
  : result (list string * gset string) :=
  match bases with
  | [] => Ok ([], ∅)
  | cls :: bases' =>
      if is_EntityMeta cls
      then
        '(s, im) ← base_serialize ctx cls;
        '(_bases, imports) ← declaration_bases ctx bases';
        Ok (s :: _bases, im ∪ imports)
      else declaration_bases ctx bases'
  end.

(** The names of the class dictionary that are never written. *)
Definition skipped_names : list string :=
  ["__slots__"; "__qualname__"; "__module__"; "_indexes_"].

(** The loop over [cls_dict.items()]. *)
Fixpoint declaration_members (mods : modules) (ctx : option context)
    (items : list (string * member)) : result (list string * gset string) :=
  match items with
  | [] => Ok ([], ∅)
  | (name, m) :: items' =>
      if bool_decide (name ∈ skipped_names)
         || is_Attribute (m_value m) || m_is_method_function_or_property m
      then declaration_members mods ctx items'
      else
        '(s, im) ← serialize_value mods ctx (m_value m);
        '(lines, imports) ← declaration_members mods ctx items';
        Ok ((name +:+ " = " +:+ s) :: lines, im ∪ imports)
  end.

(** The two lines of the attributes every entity gets by default. *)
Definition implicit_lines : list string :=
  ["id = orm.PrimaryKey(int, auto=True)";
   "classtype = orm.Discriminator(str, column='classtype')"].

(** The loop over [entity._new_attrs_]: the attribute is serialized first,
    then its line is dropped, with its imports, when it is an implicit one. *)
Fixpoint declaration_attrs (mods : modules) (ctx : option context)
    (attrs : list (string * value)) : result (list string * gset string) :=
  match attrs with
  | [] => Ok ([], ∅)
  | (attr_name, attr) :: attrs' =>
      '(s, im) ← serialize_value mods ctx attr;
      let line := attr_name +:+ " = " +:+ s in
      if bool_decide (line ∈ implicit_lines)
      then declaration_attrs mods ctx attrs'
      else
        '(lines, imports) ← declaration_attrs mods ctx attrs';
        Ok (line :: lines, im ∪ imports)
  end.

(** The lines of [EntityDeclarationSerializer.serialize_deconstructed],
    before they are joined. *)
Definition declaration_lines (mods : modules) (ctx : option context)
    (entity : entity_declaration) : result (list string * gset string) :=
  '(_bases, imports1) ← declaration_bases ctx (ed_bases entity);
  let header := "class " +:+ ed_name entity +:+ "(" +:+ join ", " _bases +:+ "):" in
  '(members, imports2) ← declaration_members mods ctx (ed_cls_dict entity);
  '(attrs, imports3) ← declaration_attrs mods ctx (ed_new_attrs entity);
  let lines := header :: members ++ attrs in
  let lines :=
    if Nat.ltb 1 (length (ed_pk_attrs entity))
    then lines ++ ["orm.PrimaryKey(" +:+ join ", " (ed_pk_attrs entity) +:+ ")"]
    else lines in
  let lines := if Nat.eqb (length lines) 1 then lines ++ ["pass"] else lines in
  Ok (lines, imports1 ∪ imports2 ∪ imports3).

(** [EntityDeclarationSerializer(entity, ctx).serialize()]: the lines joined
    by a line break and four spaces. *)
Definition entity_declaration_serialize (mods : modules) (ctx : option context)
    (entity : entity_declaration) : result output :=
  '(lines, imports) ← declaration_lines mods ctx entity;
  Ok (join (str1 "010"%char +:+ "    ") lines, imports).

End Serializer.

(** ** The command-line front end: [pony/migrate/command.py] *)

Module Command.
Import Py.

(** *** Paths and text *)

(** [str.isspace]: the white space below 128, the next-line character 133
    and the no-break space 160. *)
Definition is_space (a : ascii) : bool :=
  let n := N_of_ascii a in
  ((9 <=? n) && (n <=? 13) || (28 <=? n) && (n <=? 32) || (n =? 133) || (n =? 160))%N.

(** [s.split()]: the words between runs of white space; [cur] is the word
    being read. *)
Fixpoint split_go (cur : string) (s : string) : list string :=
  match s with
  | EmptyString => if bool_decide (cur = EmptyString) then [] else [cur]
  | String a s' =>
      if is_space a
      then (if bool_decide (cur = EmptyString) then split_go EmptyString s'
            else cur :: split_go EmptyString s')
      else split_go (cur +:+ str1 a) s'
  end.
Definition split (s : string) : list string := split_go EmptyString s.

(** [os.path.join(a, b)] on a POSIX system *)
Definition path_join (a b : string) : string :=
  if String.prefix "/" b then b
  else if bool_decide (a = EmptyString) || bool_decide (last_chars 1 a = "/") then a +:+ b
  else a +:+ "/" +:+ b.

(** [os.path.basename(p)]: what follows the last slash *)
Definition basename (p : string) : string :=
  match rsplit1 "/"%char p with
  | Some (_, tail) => tail
  | None => p
  end.

(** Truth value of an optional text: [None] and the empty text are false. *)
Definition given (o : option string) : bool :=
  match o with
  | Some s => negb (bool_decide (s = EmptyString))
  | None => false
  end.

(** *** The world the commands run in *)

(** The database handle [db]: the rows [(name, applied)] of its [Migration]
    table, or [None] when the table does not exist. *)
Record database : Type := {
  db_rows : option (list (string * Z));
}.

(** A [MigrationLoader] with its graph built: the leaves, the forward plan
    to a leaf, and the name [Migration._generate_name] derives from it. *)
Record loader : Type := {
  leaf_nodes : list string;
  forwards_plan : string -> list string;
  _generate_name : string;
}.

(** The dictionary [docopt] returns for [CLI_DOC]. *)
Record options : Type := {
  opt_migrate : bool;
  opt_verbose : bool;
  opt_v : bool;
  opt_fake : bool;
  opt_empty : bool;
  opt_custom : bool;
  opt_dry : bool;
  opt_make : bool;
  opt_apply : bool;
  opt_sql : bool;
  opt_list : bool;
  opt_name : option string;
  opt_start : option string;
  opt_end : option string;
}.

(** The keys of [ctx] in [merge], passed to [MIGRATION_TEMPLATE.format]. *)
Record template_ctx : Type := {
  deps : list string;
  version : string;
  timestamp : string;
  body : string;
  imports : string;
}.

(** What a command does to the outside, in the order it happens. *)
Inductive event : Type :=
| Print (line : string)
| PrintStderr (e : exn)
| PostMortem (e : exn)
| SqlDebug
| AskMerge (leaves : list string)
| MigrationMake (empty custom : bool) (filename : option string)
| MigrationApply (is_fake : option bool) (dry_run : bool)
    (name_start name_end : option (option string)) (name_exact : option string)
| WriteFile (path content : string)
| Disconnect (db : database).

(** What is registered on [cmd_exitstack]. *)
Inductive exit_item : Type :=
| Callback_disconnect (db : database)
| Context_drop_into_debugger.

(** The mutable state: [sys.argv], the process-wide [cmd_exitstack] (last
    registered first), the number of questions the operator has answered,
    and the events so far (oldest first). *)
Record world : Type := {
  sys_argv : list string;
  cmd_exitstack : list exit_item;
  asked : nat;
  trace : list event;
}.

Definition set_argv (a : list string) (w : world) : world :=
  {| sys_argv := a; cmd_exitstack := cmd_exitstack w; asked := asked w; trace := trace w |}.
Definition set_exitstack (s : list exit_item) (w : world) : world :=
  {| sys_argv := sys_argv w; cmd_exitstack := s; asked := asked w; trace := trace w |}.
Definition add_event (e : event) (w : world) : world :=
  {| sys_argv := sys_argv w; cmd_exitstack := cmd_exitstack w; asked := asked w;
     trace := trace w ++ [e] |}.
Definition next_question (w : world) : world :=
  {| sys_argv := sys_argv w; cmd_exitstack := cmd_exitstack w; asked := S (asked w);
     trace := trace w |}.

(** A command: it reads and changes the world, and returns or raises.  The
    world an exception leaves behind is kept. *)
Definition M (A : Type) : Type := world -> result A * world.

#[global] Instance M_ret : MRet M := fun A a w => (Ok a, w).
#[global] Instance M_bind : MBind M := fun A B f m w =>
  match m w with
  | (Ok a, w') => f a w'
  | (Raise e, w') => (Raise e, w')
  end.

Definition raise {A : Type} (e : exn) : M A := fun w => (Raise e, w).
Definition emit (e : event) : M unit := fun w => (Ok tt, add_event e w).
Definition print (line : string) : M unit := emit (Print line).
Definition lift {A : Type} (r : result A) : M A := fun w => (r, w).
Definition pass : M unit := mret tt.

(** [cmd_exitstack.callback(f)] and [cmd_exitstack.enter_context(c)] *)
Definition register (i : exit_item) : M unit :=
  fun w => (Ok tt, set_exitstack (i :: cmd_exitstack w) w).

(** [cmd_exitstack.callback(db.disconnect)]: reading [db.disconnect] off
    [None] raises. *)
Definition callback_disconnect (db : option database) : M unit :=
  match db with
  | Some d => register (Callback_disconnect d)
  | None => raise AttributeError
  end.

(** Leaving [with cmd_exitstack:]: what is registered runs, last registered
    first, and the stack is left empty.  [drop_into_debugger.__exit__] does
    nothing without an exception; with one it prints its [repr] on the error
    stream, opens the post-mortem debugger, and lets the exception go on. *)
Definition unwind_item (failure : option exn) (i : exit_item) (w : world) : world :=
  match i with
  | Callback_disconnect d => add_event (Disconnect d) w
  | Context_drop_into_debugger =>
      match failure with
      | None => w
      | Some e => add_event (PostMortem e) (add_event (PrintStderr e) w)
      end
  end.

Definition unwind (failure : option exn) (w : world) : world :=
  set_exitstack [] (fold_left (fun w i => unwind_item failure i w) (cmd_exitstack w) w).

Definition with_cmd_exitstack {A : Type} (block : M A) : M A := fun w =>
  match block w with
  | (Ok a, w') => (Ok a, unwind None w')
  | (Raise e, w') => (Raise e, unwind (Some e) w')
  end.

(** [use_argv]: the generator sets [sys.argv], yields to the block, and
    restores [sys.argv] when it is resumed.  An exception of the block is
    thrown into the generator at the [yield], which ends it there. *)
Definition use_argv {A : Type} (args : string) (block : M A) : M A := fun w =>
  let sys_argv0 := sys_argv w in
  match block (set_argv ("cli" :: split args) w) with
  | (Ok a, w') => (Ok a, set_argv sys_argv0 w')
  | (Raise e, w') => (Raise e, w')
  end.

Section commands.
(** What the commands take from outside this module:
    [get_migration_dir()] and the names in that directory in the order the
    file system lists them; the loader [MigrationLoader()] builds from the
    directory; the operator's answer to the n-th question of the
    questioner; [writer.MIGRATION_TEMPLATE.format]; [pony.__version__];
    the formatted [datetime.now()]; whether [PONY_DEBUG] is set; and
    [docopt] on [sys.argv]. *)
Context (migration_dir : string) (listing : list string)
        (disk_loader : loader) (operator : nat -> bool)
        (MIGRATION_TEMPLATE : template_ctx -> string)
        (pony_version : string) (now : string) (PONY_DEBUG : bool)
        (docopt : list string -> result options).

(** [glob(os.path.join(get_migration_dir(), name) + '*')] for a [name]
    with no slash, and a directory and a [name] with none of the characters
    [*], [?] and [[] that glob reads as a pattern: the names of the
    directory that start with [name], each joined to the directory.  With an
    empty [name] the pattern is a lone star, which skips the names that start
    with a dot.  What glob does with a pattern character or a slash in the
    token is not embedded: the statements about [find_migration] either hold
    for whatever list stands here, or assume a token and a directory without
    them. *)
Definition glob_prefix (name : string) : list string :=
  map (path_join migration_dir)
    (filter (fun e => String.prefix name e
                      && (negb (bool_decide (name = EmptyString))
                          || negb (String.prefix "." e)))
            listing).

(** [find_migration]; the [assert] is checked. *)
Definition find_migration (name : string) : result string :=
  let files := glob_prefix name in
  if Nat.ltb 1 (length files)
  then Raise (Exception ("Multiple files found: " +:+ join ", " files))
  else
    match files with
    | [] => Raise (Exception ("No files for " +:+ name))
    | p :: _ =>
        let p := basename p in
        if bool_decide (last_chars 3 p = ".py") then Ok (drop_last 3 p)
        else Raise AssertionError
    end.

(** [InteractiveMigrationQuestioner().ask_merge(leaves)] *)
Definition ask_merge (leaves : list string) : M bool := fun w =>
  (Ok (operator (asked w)), next_question (add_event (AskMerge leaves) w)).

(** [merge(db, loader, leaves)]; an argument left out is [None]. *)
Definition merge (db : option database) (loader_arg : option loader)
    (leaves_arg : option (list string)) : M unit :=
  let '(loader, leaves) :=
    match loader_arg with
    | None => (disk_loader, Some (leaf_nodes disk_loader))
    | Some l => (l, leaves_arg)
    end in
  match leaves with
  | None => raise TypeError
  | Some leaves =>
      if Nat.leb (length leaves) 1 then print "Nothing to merge."
      else
        yes ← ask_merge leaves;
        if negb yes then raise MergeAborted
        else
          _ ← callback_disconnect db;
          let name := _generate_name loader in
          let ctx := {| deps := leaves; version := pony_version; timestamp := now;
                        body := "operations = []"; imports := EmptyString |} in
          let generated := MIGRATION_TEMPLATE ctx in
          let p := path_join migration_dir (name +:+ ".py") in
          emit (WriteFile p generated)
  end.

(** [show_migrations(fail_fast=True)], the call at the end of the merge
    branch: the required argument [db] is not passed. *)
Definition show_migrations_without_db : M unit := raise TypeError.

(** [for name in l: print(prefix + name)] *)
Fixpoint print_names (prefix : string) (l : list string) : M unit :=
  match l with
  | [] => pass
  | name :: l' => _ ← print (prefix +:+ name); print_names prefix l'
  end.

(** The query of [show_migrations]: the names of the rows whose name is in
    [names], ordered by [applied]. *)
Definition saved_names (rows : list (string * Z)) (names : list string) : list string :=
  map snd (sorted Z.ltb
             (map (fun r => (snd r, fst r))
                  (filter (fun r => bool_decide (fst r ∈ names)) rows))).

(** [show_migrations(db, fail_fast)].  [Migration.make_entity] and
    [db.generate_schema] leave no trace here. *)
Definition show_migrations (db : database) (fail_fast : bool) : M unit :=
  _ ← callback_disconnect (Some db);
  let loader := disk_loader in
  let leaves := leaf_nodes loader in
  match leaves with
  | [] => print "No migrations"
  | leaf :: _ =>
      if Nat.ltb 1 (length leaves) && negb fail_fast
      then
        yes ← ask_merge leaves;
        if (yes : bool)
        then _ ← merge None (Some loader) (Some leaves); show_migrations_without_db
        else pass
      else
        let names := forwards_plan loader leaf in
        match db_rows db with
        | None => print "No Migration table. Please apply the initial migration."
        | Some rows =>
            let saved := saved_names rows names in
            _ ← print_names "+ " saved;
            print_names "  " (filter (fun name => negb (bool_decide (name ∈ saved))) names)
        end
  end.

(** The subcommand [migrate] picks: the first of make, apply, sql, list
    that is set. *)
Inductive command : Type := cmd_make | cmd_apply | cmd_sql | cmd_list.

Definition selected (opts : options) : option command :=
  if opt_make opts then Some cmd_make
  else if opt_apply opts then Some cmd_apply
  else if opt_sql opts then Some cmd_sql
  else if opt_list opts then Some cmd_list
  else None.

(** [find_migration(opts[key])] on what docopt stored under the key *)
Definition find_migration_opt (o : option string) : M string :=
  match o with
  | Some name => lift (find_migration name)
  | None => raise TypeError
  end.

(** [migrate(db, opts)].  [Migration.make] and [Migration.apply] are
    recorded with their arguments. *)
Definition migrate (db : database) (opts : options) : M unit :=
  let debug := PONY_DEBUG in
  let verbose := opt_verbose opts || opt_v opts in
  let fake := opt_fake opts in
  let cmd := selected opts in
  _ ← (if verbose then emit SqlDebug else pass);
  _ ← (if debug then register Context_drop_into_debugger else pass);
  with_cmd_exitstack
    match cmd with
    | Some cmd_make =>
        emit (MigrationMake (opt_empty opts) (opt_custom opts) (opt_name opts))
    | Some cmd_list => show_migrations db false
    | Some cmd_apply =>
        if given (opt_start opts) && negb (given (opt_end opts))
        then
          name_end ← find_migration_opt (opt_start opts);
          emit (MigrationApply (Some fake) (opt_dry opts) (Some None) (Some (Some name_end)) None)
        else if given (opt_start opts) && given (opt_end opts)
        then
          name_start ← find_migration_opt (opt_start opts);
          name_end ← find_migration_opt (opt_end opts);
          emit (MigrationApply (Some fake) (opt_dry opts)
                  (Some (Some name_start)) (Some (Some name_end)) None)
        else emit (MigrationApply (Some fake) (opt_dry opts) None None None)
    | Some cmd_sql =>
        name ← find_migration_opt (opt_name opts);
        emit (MigrationApply None true None None (Some name))
    | None => raise NotImplementedError
    end.

(** [cli(db, argv)]: [docopt] reads [sys.argv]. *)
Definition cli (db : database) (argv : option string) : M unit :=
  let block : M unit :=
    opts ← (fun w => (docopt (sys_argv w), w));
    if opt_migrate opts then migrate db opts else raise NotImplementedError in
  match argv with
  | Some args => if given argv then use_argv args block else block
  | None => block
  end.
End commands.

End Command.

(** * Properties *)

Import Py.

(** ** Notions used in the statements *)

Module Spec.
Import Serializer Command.

(** [x] is not after [y] for the comparison [lt] of keys: [sorted] never
    moves [y] in front of [x]. *)
Definition not_after {K X : Type} (lt : K -> K -> bool) (x y : K * X) : Prop :=
  lt (fst y) (fst x) = false.

(** Whether a key is an [int]. *)
Definition is_int_key (k : dkey) : bool := match k with KInt _ => true | KStr _ => false end.

(** The keys of a dictionary [sorted] can order: all of one type. *)
Definition one_kind (keys : list dkey) : Prop :=
  forall a b, a ∈ keys -> b ∈ keys -> same_kind a b = true.

#[global] Instance one_kind_dec keys : Decision (one_kind keys).
Proof.
  destruct (decide (Forall (fun a => Forall (fun b => same_kind a b = true) keys) keys))
    as [H|H]; [left|right].
  - intros a b Ha Hb. rewrite Forall_forall in H. specialize (H a Ha).
    rewrite Forall_forall in H. by apply H.
  - intros H'. apply H. apply Forall_forall. intros a Ha.
    apply Forall_forall. intros b Hb. by apply H'.
Defined.

(** The text of a result that is not an exception. *)
Definition text_of (r : result output) : string :=
  match r with Ok (s, _) => s | Raise _ => EmptyString end.

(** The values that serialize without raising. *)
Definition serializes (mods : modules) (ctx : context) (v : value) : Prop :=
  exists o, serialize mods ctx v = Ok o.

(** The text of a key, and the entries of a brace literal and of the keyword
    arguments of a call. *)
Definition key_text (k : dkey) : string :=
  match k with KInt z => repr_int z | KStr s => repr_str s end.
Definition dict_entry (mods : modules) (kv : dkey * value) : string :=
  key_text (fst kv) +:+ ": " +:+ text_of (serialize mods empty_ctx (snd kv)).
Definition kwarg_entry (mods : modules) (ctx : context) (kw : string * value) : string :=
  fst kw +:+ "=" +:+ text_of (serialize mods ctx (snd kw)).

(** Keys, and names of keyword arguments, in strictly ascending order. *)
Definition ascending_keys (keys : list dkey) : Prop :=
  StronglySorted (fun a b => key_lt a b = Some true) keys.
Definition ascending_names (names : list string) : Prop :=
  StronglySorted (fun a b => String.ltb a b = true) names.

(** A value rendered from its [deconstruct()]: an attribute, or another
    object with no [serialize_deconstructed] of its own. *)
Definition deconstructs (v : value) (path : string) (args : list value)
    (kwargs : list (string * value)) : Prop :=
  v = VAttribute path args kwargs \/ v = VObject path args kwargs None.

(** The same value with its keyword arguments held in another order. *)
Definition with_kwargs (v : value) (kwargs : list (string * value)) : value :=
  match v with
  | VAttribute path args _ => VAttribute path args kwargs
  | VObject path args _ hook => VObject path args kwargs hook
  | _ => v
  end.

(** Sample values for the statements checked on concrete inputs. *)
Definition sample_dict : list (dkey * value) :=
  [(KStr "b", VInt 2); (KStr "a", VInt 1)].
Definition sample_call : value :=
  VObject "pony.orm.core.Required" [VStr "x"] [("unique", VBool true); ("auto", VBool false)] None.

(** The tuple literal over the texts of the elements: a pair of parentheses
    for no element, the element and a comma for one, and the elements joined
    by commas otherwise. *)
Definition tuple_literal (strings : list string) : string :=
  match strings with
  | [] => "()"
  | [x] => "(" +:+ x +:+ ",)"
  | _ => "(" +:+ join ", " strings +:+ ")"
  end.

(** The callee of a call expression for a dotted path [module.name]: the
    alias [orm.] for the ORM core module, the alias [op.] for the module of
    the schema operations, and the whole dotted path otherwise; and the
    import line that goes with it. *)
Definition call_name (module name : string) : string :=
  if bool_decide (module = "pony.orm.core") then "orm." +:+ name
  else if bool_decide (module = "pony.migrate.diagram_ops") then "op." +:+ name
  else module +:+ "." +:+ name.
Definition call_import (module : string) : string :=
  if bool_decide (module = "pony.orm.core") then "from pony import orm"
  else if bool_decide (module = "pony.migrate.diagram_ops")
  then "from pony.migrate import diagram_ops as op"
  else "import " +:+ module.

(** A result that is a call expression: a callee followed by its arguments
    between parentheses. *)
Definition rendered_as_call (r : result output) : Prop :=
  exists callee params imports, r = Ok (callee +:+ "(" +:+ params +:+ ")", imports).

(** A class of the schema operations; a class has the [deconstruct] method
    it defines for its instances. *)
Definition sample_class : value :=
  VType {| ty_module := "pony.migrate.diagram_ops"; ty_name := "AddAttr";
           ty_has_deconstruct := true |}.

(** An object of the ORM core with a [serialize_deconstructed] of its own,
    which renders it as a bare name. *)
Definition sample_hooked : value :=
  VObject "pony.orm.core.Required" [] [] (Some (Ok ("Required", ∅))).

(** The tests of the dispatch, in its order. *)
Definition rule_tests : list (value -> bool) :=
  [is_Attribute; is_EntityMeta; is_type; has_deconstruct; is_frozenset; is_list;
   is_set; is_tuple; is_dict; is_Enum; is_datetime; is_date; is_time; is_timedelta;
   is_float; is_int_bool_none; is_bytes; is_unicode; is_Decimal; is_partial;
   is_function; is_Iterable; is_regex].

(** A value that matches none of the rules. *)
Definition no_rule_matches (v : value) : Prop :=
  Forall (fun test => test v = false) rule_tests.

(** A failure that says something about the value: a [ValueError] with a
    message. *)
Definition reports_context (r : result output) : Prop :=
  exists msg, r = Raise (ValueError (Some msg)).

(** Three functions: one named at the top of its module, a lambda, and one
    defined inside the body of [outer]. *)
Definition sample_named : function :=
  {| fn_self_class := None; fn_name := "default_name"; fn_module := Some "app.models";
     fn_qualname := Some "default_name"; fn_repr := "<function default_name>";
     fn_source := Raise TypeError |}.
Definition sample_lambda : function :=
  {| fn_self_class := None; fn_name := "<lambda>"; fn_module := Some "app.models";
     fn_qualname := Some "<lambda>"; fn_repr := "<function <lambda>>";
     fn_source := Ok "x + 1" |}.
Definition sample_nested : function :=
  {| fn_self_class := None; fn_name := "inner"; fn_module := Some "app.models";
     fn_qualname := Some "outer.<locals>.inner"; fn_repr := "<function outer.<locals>.inner>";
     fn_source := Raise TypeError |}.
Definition sample_modules : modules :=
  {[ "app.models" := {[ "outer"; "default_name" ]} ]}.

(** A base name with its extension removed: what stands before its last
    dot. *)
Definition remove_extension (p : string) : string :=
  match rsplit1 "."%char p with
  | Some (stem, _) => stem
  | None => p
  end.

(** The events by which a command acts: a call of the migration model, a
    question to the operator, a written file, a printed line.  The others are
    the SQL tracing switch and what the exit stack does when it is left: the
    database disconnects, and the debugger hook reports an error on the error
    stream and opens the post-mortem. *)
Definition is_action (e : event) : bool :=
  match e with
  | Print _ | AskMerge _ | MigrationMake _ _ _ | MigrationApply _ _ _ _ _
  | WriteFile _ _ => true
  | PrintStderr _ | PostMortem _ | SqlDebug | Disconnect _ => false
  end.

(** The dictionary docopt returns for the first usage line, with the flags
    only and no subcommand. *)
Definition bare_options (verbose fake : bool) : options :=
  {| opt_migrate := true; opt_verbose := verbose; opt_v := false; opt_fake := fake;
     opt_empty := false; opt_custom := false; opt_dry := false;
     opt_make := false; opt_apply := false; opt_sql := false; opt_list := false;
     opt_name := None; opt_start := None; opt_end := None |}.

(** A history with two heads, a database that has applied its root, a
    template, and a process that has run nothing yet. *)
Definition sample_loader : loader :=
  {| leaf_nodes := ["0002_a"; "0002_b"];
     forwards_plan := fun leaf => ["0001_init"; leaf];
     _generate_name := "0003_merge" |}.
Definition sample_single_loader : loader :=
  {| leaf_nodes := ["0001_init"];
     forwards_plan := fun leaf => [leaf];
     _generate_name := "0002_merge" |}.
Definition sample_db : database := {| db_rows := Some [("0001_init", 5)] |}.
Definition sample_template (c : template_ctx) : string :=
  "dependencies = [" +:+ join ", " (map repr_str (deps c)) +:+ "]" +:+ str1 "010"%char
  +:+ imports c +:+ str1 "010"%char +:+ body c.
Definition sample_world : world :=
  {| sys_argv := ["manage.py"; "list"]; cmd_exitstack := []; asked := 0; trace := [] |}.

(** A command that leaves [sys.argv] as it finds it, whether it returns or
    raises. *)
Definition keeps_argv {A : Type} (m : M A) : Prop :=
  forall w, sys_argv (snd (m w)) = sys_argv w.

(** The events of leaving [with cmd_exitstack:] with the given stack. *)
Definition unwind_events (failure : option exn) (stack : list exit_item) : list event :=
  flat_map (fun i =>
    match i with
    | Callback_disconnect d => [Disconnect d]
    | Context_drop_into_debugger =>
        match failure with
        | None => []
        | Some e => [PrintStderr e; PostMortem e]
        end
    end) stack.

(** A parser for the samples: it knows one command line. *)
Definition sample_docopt (argv : list string) : result options :=
  if bool_decide (argv = ["cli"; "migrate"; "--verbose"])
  then Ok (bare_options true false)
  else Raise SystemExit.

(** *** Notions for the further properties *)

(** The import lines of a result that is not an exception. *)
Definition imports_of (r : result output) : gset string :=
  match r with Ok (_, im) => im | Raise _ => ∅ end.

(** The values a collection serializer iterates over, and the text around
    their joined texts, for lists, sets and frozen sets. *)
Definition sequence_items (v : value) : option (list value * (string * string)) :=
  match v with
  | VList items => Some (items, ("[", "]"))
  | VSet items => Some (items, ("set([", "])"))
  | VFrozenset items => Some (items, ("frozenset([", "])"))
  | _ => None
  end.

(** The elements of the five kinds of value serialized element by element. *)
Definition elements_of (v : value) : option (list value) :=
  match v with
  | VList items | VSet items | VFrozenset items | VTuple items | VIterable items =>
      Some items
  | _ => None
  end.

(** The kinds of value whose serializer calls [serializer_factory] on the
    parts without a context. *)
Definition drops_context (v : value) : bool :=
  match v with
  | VFrozenset _ | VList _ | VSet _ | VTuple _ | VDict _ | VEnum _ _ _
  | VPartial _ _ _ | VIterable _ | VRegex _ _ => true
  | _ => false
  end.

(** The values rendered by [repr] alone. *)
Definition is_scalar (v : value) : bool :=
  match v with
  | VNone | VBool _ | VInt _ | VFloat _ | VBytes _ | VStr _ => true
  | _ => false
  end.

(** Whether the text [p] occurs in [s]. *)
Fixpoint occurs (p s : string) : bool :=
  String.prefix p s ||
  match s with
  | EmptyString => false
  | String _ s' => occurs p s'
  end.

(** The lines of the class dictionary and of the new attributes that an
    entity declaration keeps. *)
Definition kept_member (item : string * member) : bool :=
  negb (bool_decide (fst item ∈ skipped_names)
        || is_Attribute (m_value (snd item))
        || m_is_method_function_or_property (snd item)).

(** Samples: an aware date and time in another zone, one in the last hours
    of the range that its conversion to [utc] takes out of it, and the
    declaration of an entity with the default key only. *)
Definition sample_datetime : datetime :=
  {| dt_tzinfo := TzOther;
     dt_repr := "datetime.datetime(2018, 3, 1, 12, 0, tzinfo=<FixedOffset '+02:00'>)";
     dt_utc_repr := Ok "datetime.datetime(2018, 3, 1, 10, 0, tzinfo=<UTC>)" |}.
Definition sample_late_datetime : datetime :=
  {| dt_tzinfo := TzOther;
     dt_repr := "datetime.datetime(9999, 12, 31, 23, 0, tzinfo=<FixedOffset '-02:00'>)";
     dt_utc_repr := Raise OverflowError |}.
Definition sample_int_type : value :=
  VType {| ty_module := "builtins"; ty_name := "int"; ty_has_deconstruct := false |}.
Definition sample_id_attr : value :=
  VAttribute "pony.orm.core.PrimaryKey" [sample_int_type] [("auto", VBool true)].
Definition sample_name_attr : value :=
  VAttribute "pony.orm.core.Required" [VType {| ty_module := "builtins"; ty_name := "str";
                                                ty_has_deconstruct := false |}] [].
Definition sample_entity : entity_declaration :=
  {| ed_name := "Person"; ed_bases := [VEntity "Entity"];
     ed_cls_dict := [("__module__", {| m_value := VStr "app.models";
                                       m_is_method_function_or_property := false |});
                     ("id", {| m_value := sample_id_attr;
                               m_is_method_function_or_property := false |})];
     ed_new_attrs := [("id", sample_id_attr)];
     ed_pk_attrs := ["id"] |}.

(** Literal data: a scalar, or a list, tuple, set or frozen set of literal
    data. *)
Fixpoint is_literal (v : value) : bool :=
  is_scalar v ||
  match v with
  | VList l | VTuple l | VSet l | VFrozenset l => forallb is_literal l
  | _ => false
  end.

(** A qualified name the function serializer cannot use: absent, empty, or
    with a [<] as in [outer.<locals>.inner]. *)
Definition unqualified (f : function) : Prop :=
  match fn_qualname f with
  | Some q => q = EmptyString \/ contains "<"%char q = true
  | None => True
  end.

(** The parts of an entity declaration: the text of an entity base, the
    line of a member of the class dictionary and of a new attribute, and
    whether the line of an attribute is written. *)
Definition base_text (ctx : context) (cls : value) : string :=
  text_of (serialize ∅ ctx cls).
Definition member_line (mods : modules) (ctx : option context) (item : string * member)
  : string :=
  fst item +:+ " = " +:+ text_of (serialize_value mods ctx (m_value (snd item))).
Definition attr_line (mods : modules) (ctx : option context) (attr : string * value)
  : string :=
  fst attr +:+ " = " +:+ text_of (serialize_value mods ctx (snd attr)).
Definition written (mods : modules) (ctx : option context) (attr : string * value)
  : bool :=
  negb (bool_decide (attr_line mods ctx attr ∈ implicit_lines)).

(** A second entity: two attributes that form a composite key, and a
    member that cannot be serialized behind a name that is skipped. *)
Definition sample_keyed_entity : entity_declaration :=
  {| ed_name := "Stay"; ed_bases := [VOpaque; VEntity "Entity"];
     ed_cls_dict := [("__qualname__", {| m_value := VOpaque;
                                         m_is_method_function_or_property := false |});
                     ("limit", {| m_value := VInt 3;
                                  m_is_method_function_or_property := false |})];
     ed_new_attrs := [("id", sample_id_attr); ("name", sample_name_attr)];
     ed_pk_attrs := ["id"; "name"] |}.

(** [glob.has_magic]: whether glob reads the text as a pattern. *)
Definition glob_magic (s : string) : bool :=
  contains "*"%char s || contains "?"%char s || contains "["%char s.

(** The directories and name tokens for which the glob of [find_migration]
    is a search by prefix in the one directory: no pattern character in
    either, and no slash in the token. *)
Definition glob_literal (migration_dir name : string) : Prop :=
  glob_magic migration_dir = false
  /\ glob_magic name = false
  /\ contains "/"%char name = false.

(** The names of the migration directory that [glob] matches for the
    prefix [name]. *)
Definition candidates (name : string) (listing : list string) : list string :=
  filter (fun e => String.prefix name e
                   && (negb (bool_decide (name = EmptyString))
                       || negb (String.prefix "." e)))
         listing.

(** A command that registers nothing on the exit stack, leaves none of
    its entries, and adds to the trace only actions. *)
Definition only_acts {A : Type} (m : M A) : Prop :=
  forall w,
    cmd_exitstack (snd (m w)) = cmd_exitstack w
    /\ exists added,
         trace (snd (m w)) = trace w ++ added
         /\ Forall (fun e => is_action e = true) added.

(** The lines [print_names] prints. *)
Definition printed (prefix : string) (names : list string) : list event :=
  map (fun name => Print (prefix +:+ name)) names.

(** What [migrate] does before it enters [with cmd_exitstack:], and what the
    debugger hook adds when the block is left. *)
Definition sql_tracing (opts : options) : list event :=
  if opt_verbose opts || opt_v opts then [SqlDebug] else [].
Definition debugger_report {A : Type} (debug : bool) (r : result A) : list event :=
  match r with
  | Raise e => if debug then [PrintStderr e; PostMortem e] else []
  | Ok _ => []
  end.

(** A run of [migrate] from the world [w] that ends in the one event of
    [r], or raises the exception of [r] without it; the exit stack is left
    empty. *)
Definition outcome (m : M unit) (w : world) (opts : options) (debug : bool)
    (r : result event) : Prop :=
  exists w',
    m w = (match r with Ok _ => Ok tt | Raise e => Raise e end, w')
    /\ trace w' = trace w ++ sql_tracing opts
                    ++ match r with Ok e => [e] | Raise _ => debugger_report debug r end
    /\ cmd_exitstack w' = [].

(** The dictionary docopt returns for [apply] and for [sql]. *)
Definition apply_options (fake dry : bool) (start end_ : option string) : options :=
  {| opt_migrate := true; opt_verbose := false; opt_v := false; opt_fake := fake;
     opt_empty := false; opt_custom := false; opt_dry := dry;
     opt_make := false; opt_apply := true; opt_sql := false; opt_list := false;
     opt_name := None; opt_start := start; opt_end := end_ |}.
Definition sql_options (fake dry : bool) (name : option string) : options :=
  {| opt_migrate := true; opt_verbose := false; opt_v := false; opt_fake := fake;
     opt_empty := false; opt_custom := false; opt_dry := dry;
     opt_make := false; opt_apply := false; opt_sql := true; opt_list := false;
     opt_name := name; opt_start := None; opt_end := None |}.
Definition list_options : options :=
  {| opt_migrate := true; opt_verbose := false; opt_v := false; opt_fake := false;
     opt_empty := false; opt_custom := false; opt_dry := false;
     opt_make := false; opt_apply := false; opt_sql := false; opt_list := true;
     opt_name := None; opt_start := None; opt_end := None |}.

(** A migration directory, and a history of three migrations of which the
    database has applied two, the later one first in the table. *)
Definition sample_listing : list string :=
  ["0001_init.py"; "0002_more.py"; "notes.txt"].
Definition sample_plan_loader : loader :=
  {| leaf_nodes := ["0003_last"];
     forwards_plan := fun leaf => ["0001_init"; "0002_more"; leaf];
     _generate_name := "0004_merge" |}.
Definition sample_rows : list (string * Z) := [("0002_more", 7); ("0001_init", 5)].

End Spec.
Import Serializer Command Spec.

(** ** Facts about [sorted] *)

Section sorted_facts.
Context {K X : Type} (lt : K -> K -> bool).

Lemma insert_item_perm (x : K * X) l : insert_item lt x l ≡ₚ x :: l.
Proof.
  induction l as [|y l IH]; simpl; [done|].
  destruct (lt (fst y) (fst x)); [|done].
  rewrite IH. apply Permutation_swap.
Qed.

Lemma sorted_perm (l : list (K * X)) : sorted lt l ≡ₚ l.
Proof.
  induction l as [|x l IH]; simpl; [done|].
  by rewrite insert_item_perm, IH.
Qed.

(** The keys in play: on them [lt] is a strict total order. *)
Context (P : K -> Prop).
Hypothesis lt_asym : forall a b, P a -> P b -> lt a b = true -> lt b a = false.
Hypothesis lt_trans : forall a b c, P a -> P b -> P c ->
  lt b a = false -> lt c b = false -> lt c a = false.
Hypothesis lt_total : forall a b, P a -> P b ->
  lt a b = false -> lt b a = false -> a = b.

Lemma insert_item_sorted (x : K * X) l :
  P (fst x) -> Forall (fun y => P (fst y)) l ->
  StronglySorted (not_after lt) l -> StronglySorted (not_after lt) (insert_item lt x l).
Proof.
  intros Hx HP Hs. induction Hs as [|y l Hs IH Hy]; simpl.
  - repeat constructor.
  - apply Forall_cons in HP as [HPy HP].
    destruct (lt (fst y) (fst x)) eqn:E.
    + constructor; [by apply IH|].
      rewrite insert_item_perm. constructor; [|done].
      unfold not_after. by apply lt_asym.
    + constructor; [by constructor|].
      constructor; [done|].
      rewrite Forall_forall in Hy, HP |- *. intros z Hz.
      unfold not_after in *. eapply (lt_trans _ (fst y)); eauto.
Qed.

Lemma sorted_sorted (l : list (K * X)) :
  Forall (fun y => P (fst y)) l -> StronglySorted (not_after lt) (sorted lt l).
Proof.
  induction 1 as [|x l Hx HP IH]; simpl; [constructor|].
  apply insert_item_sorted; [done| |done].
  by rewrite sorted_perm.
Qed.

(** Two items of a dictionary with the same key are the same item. *)
Lemma same_key_same_item (l : list (K * X)) x y :
  NoDup (map fst l) -> x ∈ l -> y ∈ l -> fst x = fst y -> x = y.
Proof.
  induction l as [|z l IH]; intros Hnd Hx Hy E; [by inv Hx|].
  simpl in Hnd. apply NoDup_cons in Hnd as [Hz Hnd].
  inv Hx; inv Hy; auto.
  - exfalso. apply Hz. rewrite E. by apply list_elem_of_fmap_2.
  - exfalso. apply Hz. rewrite <- E. by apply list_elem_of_fmap_2.
Qed.

(** The order of the result does not depend on the order of the items. *)
Lemma sorted_permutation_invariant (l l' : list (K * X)) :
  NoDup (map fst l) -> Forall (fun y => P (fst y)) l -> l' ≡ₚ l ->
  sorted lt l' = sorted lt l.
Proof.
  intros Hnd HP Hperm.
  apply (StronglySorted_unique_strong (not_after lt)).
  - intros x y Hx Hy H1 H2.
    rewrite sorted_perm in Hx, Hy. rewrite Hperm in Hx.
    apply (same_key_same_item l); [done..|].
    rewrite Forall_forall in HP. apply lt_total; auto.
  - apply sorted_sorted. by rewrite Hperm.
  - by apply sorted_sorted.
  - by rewrite !sorted_perm.
Qed.
End sorted_facts.

(** ** Order of text and of dictionary keys *)

Lemma ltb_false_leb a b : String.ltb b a = false <-> String.leb a b = true.
Proof.
  unfold String.ltb, String.leb. rewrite (String.compare_antisym b a).
  destruct (String.compare a b); simpl; intuition congruence.
Qed.

Lemma string_lt_asym a b : String.ltb a b = true -> String.ltb b a = false.
Proof.
  unfold String.ltb. rewrite (String.compare_antisym b a).
  destruct (String.compare a b); simpl; congruence.
Qed.

Lemma string_lt_trans a b c :
  String.ltb b a = false -> String.ltb c b = false -> String.ltb c a = false.
Proof.
  rewrite !ltb_false_leb. intros H1 H2.
  apply Is_true_true. apply Is_true_true in H1, H2.
  exact (transitivity (R:=String.le) H1 H2).
Qed.

Lemma string_lt_total a b : String.ltb a b = false -> String.ltb b a = false -> a = b.
Proof. rewrite !ltb_false_leb. intros H1 H2. by apply String.leb_antisym. Qed.

Lemma same_kind_iff a b : same_kind a b = true <-> is_int_key a = is_int_key b.
Proof. destruct a, b; simpl; unfold same_kind; simpl; intuition congruence. Qed.

Section key_order.
Context (c : bool).
Let P (k : dkey) : Prop := is_int_key k = c.

Lemma key_before_asym a b : P a -> P b -> key_before a b = true -> key_before b a = false.
Proof.
  unfold P. destruct a as [x|s], b as [y|t]; simpl; intros; try congruence.
  - unfold key_before in *; simpl in *. lia.
  - unfold key_before in *; simpl in *. by apply string_lt_asym.
Qed.

Lemma key_before_trans a b d : P a -> P b -> P d ->
  key_before b a = false -> key_before d b = false -> key_before d a = false.
Proof.
  unfold P. destruct a as [x|s], b as [y|t], d as [z|u]; simpl; intros; try congruence.
  - unfold key_before in *; simpl in *. lia.
  - unfold key_before in *; simpl in *. by eapply string_lt_trans.
Qed.

Lemma key_before_total a b : P a -> P b ->
  key_before a b = false -> key_before b a = false -> a = b.
Proof.
  unfold P. destruct a as [x|s], b as [y|t]; simpl; intros; try congruence.
  - unfold key_before in *; simpl in *. f_equal. lia.
  - unfold key_before in *; simpl in *. f_equal. by apply string_lt_total.
Qed.
End key_order.

Lemma insert_item_map {K X Y} (lt : K -> K -> bool) (g : K * X -> Y) x l :
  insert_item lt (fst x, g x) (map (fun kv => (fst kv, g kv)) l)
  = map (fun kv => (fst kv, g kv)) (insert_item lt x l).
Proof.
  induction l as [|y l IH]; simpl; [done|].
  destruct (lt (fst y) (fst x)); simpl; [by rewrite IH|done].
Qed.

Lemma sorted_map {K X Y} (lt : K -> K -> bool) (g : K * X -> Y) l :
  sorted lt (map (fun kv => (fst kv, g kv)) l) = map (fun kv => (fst kv, g kv)) (sorted lt l).
Proof.
  induction l as [|x l IH]; simpl; [done|].
  by rewrite IH, insert_item_map.
Qed.

Lemma sorted_items_one_kind {X} (l : list (dkey * X)) :
  one_kind (map fst l) -> sorted_items l = Ok (sorted key_before l).
Proof.
  intros H. destruct l as [|[k0 x0] l]; [done|].
  unfold sorted_items.
  assert (forallb (fun kx => same_kind k0 (fst kx)) ((k0, x0) :: l) = true) as ->; [|done].
  apply forallb_forall. intros kx Hin. apply H.
  - simpl. left.
  - apply list_elem_of_fmap_2. by apply list_elem_of_In.
Qed.

Lemma sorted_items_mixed {X} (l : list (dkey * X)) :
  ¬ one_kind (map fst l) -> sorted_items l = Raise TypeError.
Proof.
  intros H. destruct l as [|[k0 x0] l].
  { exfalso. apply H. intros a b Ha. inv Ha. }
  unfold sorted_items.
  destruct (forallb _ _) eqn:E; [|done].
  exfalso. apply H. intros a b Ha Hb.
  rewrite forallb_forall in E.
  apply list_elem_of_fmap in Ha as [xa [-> Ha]]. apply list_elem_of_fmap in Hb as [xb [-> Hb]].
  apply list_elem_of_In in Ha, Hb. apply E in Ha, Hb.
  apply same_kind_iff. apply same_kind_iff in Ha, Hb. congruence.
Qed.

Lemma one_kind_P keys : one_kind keys -> exists c, Forall (fun k => is_int_key k = c) keys.
Proof.
  intros H. destruct keys as [|k0 keys]; [by exists true|].
  exists (is_int_key k0). apply Forall_forall. intros k Hk.
  symmetry. apply same_kind_iff. apply H; [by left|done].
Qed.

Lemma one_kind_perm keys keys' : keys' ≡ₚ keys -> one_kind keys -> one_kind keys'.
Proof. intros Hp H a b Ha Hb. apply H; by rewrite <- Hp. Qed.

Lemma sorted_items_perm {X} (l l' : list (dkey * X)) :
  NoDup (map fst l) -> l' ≡ₚ l -> sorted_items l' = sorted_items l.
Proof.
  intros Hnd Hperm.
  assert (map fst l' ≡ₚ map fst l) as Hkeys by (by apply Permutation_map).
  destruct (decide (one_kind (map fst l))) as [H|H].
  - rewrite !sorted_items_one_kind; [|done|by apply (one_kind_perm (map fst l))].
    f_equal. destruct (one_kind_P _ H) as [c Hc].
    apply (sorted_permutation_invariant key_before (fun k => is_int_key k = c));
      [apply key_before_asym|apply key_before_trans|apply key_before_total|done| |done].
    by rewrite Forall_fmap in Hc.
  - rewrite !sorted_items_mixed; [done|done|].
    intros H'. apply H. by apply (one_kind_perm (map fst l')).
Qed.

Lemma StronglySorted_weaken {A} (R R' : A -> A -> Prop) l :
  (forall a b, R a b -> R' a b) -> StronglySorted R l -> StronglySorted R' l.
Proof.
  intros H. induction 1 as [|x l Hs IH Hx]; constructor; [done|].
  eapply Forall_impl; [exact Hx|]. intros; by apply H.
Qed.

Section strict.
Context {K X : Type} (lt : K -> K -> bool) (P : K -> Prop).
Hypothesis lt_total : forall a b, P a -> P b ->
  lt a b = false -> lt b a = false -> a = b.

Lemma sorted_strict (l : list (K * X)) :
  StronglySorted (not_after lt) l -> NoDup (map fst l) -> Forall (fun y => P (fst y)) l ->
  StronglySorted (fun a b => lt a b = true) (map fst l).
Proof.
  induction 1 as [|x l Hs IH Hx]; intros Hnd HP; simpl; [constructor|].
  simpl in Hnd. apply NoDup_cons in Hnd as [Hx' Hnd]. apply Forall_cons in HP as [HPx HP].
  constructor; [by apply IH|].
  apply Forall_forall. intros k Hk.
  apply list_elem_of_fmap in Hk as [y [-> Hy]].
  rewrite Forall_forall in Hx, HP.
  destruct (lt (fst x) (fst y)) eqn:E; [done|].
  exfalso. apply Hx'. rewrite (lt_total (fst x) (fst y)); auto.
  - by apply list_elem_of_fmap_2.
  - by apply Hx.
Qed.
End strict.

Lemma serialize_dict mods ctx items :
  serialize mods ctx (VDict items)
  = dictionary_serialize
      (map (fun kv => (fst kv, (serialize_key (fst kv), serialize mods empty_ctx (snd kv)))) items).
Proof. reflexivity. Qed.

Lemma serialize_key_text k : serialize_key k = Ok (key_text k, ∅).
Proof. by destruct k. Qed.

(** [serialize_key] is the serializer on the key as a value. *)
Lemma serialize_key_value mods ctx k : serialize mods ctx (key_value k) = serialize_key k.
Proof. by destruct k. Qed.

Lemma collect_dict_ok mods (its : list (dkey * value)) :
  Forall (fun kv => serializes mods empty_ctx (snd kv)) its ->
  exists imports,
    collect_dict (map (fun kv => (fst kv, (serialize_key (fst kv),
                                           serialize mods empty_ctx (snd kv)))) its)
    = Ok (map (fun kv => (key_text (fst kv), text_of (serialize mods empty_ctx (snd kv)))) its,
          imports).
Proof.
  induction 1 as [|[k v] its [[s im] Hv] _ [ims IH]]; simpl; [by eexists|].
  simpl in Hv. rewrite serialize_key_text, Hv, IH. simpl. by eexists.
Qed.

Lemma dict_sorted_key_order mods ctx items :
  NoDup (map fst items) -> one_kind (map fst items) ->
  Forall (fun kv => serializes mods empty_ctx (snd kv)) items ->
  exists its imports,
    its ≡ₚ items /\ ascending_keys (map fst its) /\
    serialize mods ctx (VDict items)
    = Ok ("{" +:+ join ", " (map (dict_entry mods) its) +:+ "}", imports).
Proof.
  intros Hnd Hkind Hser.
  pose proof (sorted_perm key_before items) as Hperm.
  assert (Forall (fun kv => serializes mods empty_ctx (snd kv)) (sorted key_before items)) as Hser'
    by (by rewrite Hperm).
  destruct (collect_dict_ok mods _ Hser') as [imports Hc].
  exists (sorted key_before items), imports. split; [done|]. split.
  - destruct (one_kind_P _ Hkind) as [c Hc'].
    rewrite Forall_fmap in Hc'.
    eapply StronglySorted_weaken; cycle 1.
    + apply (sorted_strict key_before (fun k => is_int_key k = c)).
      * apply key_before_total.
      * apply (sorted_sorted key_before (fun k => is_int_key k = c));
          [apply key_before_asym|apply key_before_trans|done].
      * by rewrite (Permutation_map fst Hperm).
      * by rewrite Hperm.
    + intros a b. unfold key_before. destruct (key_lt a b) as [[]|]; simpl; congruence.
  - rewrite serialize_dict. unfold dictionary_serialize.
    rewrite sorted_items_one_kind.
    2:{ by rewrite map_map. }
    simpl.
    rewrite (sorted_map key_before
               (fun kv => (serialize_key (fst kv), serialize mods empty_ctx (snd kv)))).
    rewrite Hc. simpl. rewrite map_map. done.
Qed.

Lemma dict_permutation_invariant mods ctx items items' :
  NoDup (map fst items) -> items' ≡ₚ items ->
  serialize mods ctx (VDict items') = serialize mods ctx (VDict items).
Proof.
  intros Hnd Hperm. rewrite !serialize_dict. unfold dictionary_serialize.
  rewrite (sorted_items_perm
             (map (fun kv => (fst kv, (serialize_key (fst kv),
                                       serialize mods empty_ctx (snd kv)))) items)
             (map (fun kv => (fst kv, (serialize_key (fst kv),
                                       serialize mods empty_ctx (snd kv)))) items'));
    [done|by rewrite map_map|by apply Permutation_map].
Qed.

Lemma serialize_deconstructs mods ctx v path args kwargs :
  deconstructs v path args kwargs ->
  serialize mods ctx v
  = serialize_deconstructed path (map (serialize mods ctx) args)
      (map (fun kw => (fst kw, serialize mods ctx (snd kw))) kwargs).
Proof. by intros [-> | ->]. Qed.

Lemma collect_ok mods ctx (l : list value) :
  Forall (serializes mods ctx) l ->
  exists imports,
    collect (map (serialize mods ctx) l)
    = Ok (map (fun v => text_of (serialize mods ctx v)) l, imports).
Proof.
  induction 1 as [|v l [[s im] Hv] _ [ims IH]]; simpl; [by eexists|].
  rewrite Hv, IH. simpl. by eexists.
Qed.

Lemma collect_kwargs_ok mods ctx (l : list (string * value)) :
  Forall (fun kw => serializes mods ctx (snd kw)) l ->
  exists imports,
    collect_kwargs (map (fun kw => (fst kw, serialize mods ctx (snd kw))) l)
    = Ok (map (kwarg_entry mods ctx) l, imports).
Proof.
  induction 1 as [|[kw v] l [[s im] Hv] _ [ims IH]]; simpl; [by eexists|].
  simpl in Hv. unfold kwarg_entry at 1. simpl. rewrite Hv, IH. simpl. by eexists.
Qed.

Lemma kwargs_sorted_name_order mods ctx v path args kwargs callee :
  deconstructs v path args kwargs -> NoDup (map fst kwargs) ->
  _serialize_path path = Ok callee ->
  Forall (serializes mods ctx) args ->
  Forall (fun kw => serializes mods ctx (snd kw)) kwargs ->
  exists kws imports,
    kws ≡ₚ kwargs /\ ascending_names (map fst kws) /\
    serialize mods ctx v
    = Ok (fst callee +:+ "(" +:+
            join ", " (map (fun a => text_of (serialize mods ctx a)) args
                       ++ map (kwarg_entry mods ctx) kws) +:+ ")",
          imports).
Proof.
  intros Hv Hnd Hpath Hargs Hkw. destruct callee as [name im0].
  pose proof (sorted_perm String.ltb kwargs) as Hperm.
  assert (Forall (fun kw => serializes mods ctx (snd kw)) (sorted String.ltb kwargs)) as Hkw'
    by (by rewrite Hperm).
  destruct (collect_ok _ _ _ Hargs) as [im1 H1].
  destruct (collect_kwargs_ok _ _ _ Hkw') as [im2 H2].
  exists (sorted String.ltb kwargs). eexists. split; [done|]. split.
  - apply (sorted_strict String.ltb (fun _ => True)).
    + intros a b _ _. apply string_lt_total.
    + apply (sorted_sorted String.ltb (fun _ => True)).
      * intros a b _ _. apply string_lt_asym.
      * intros a b c _ _ _. apply string_lt_trans.
      * by apply Forall_forall.
    + by rewrite (Permutation_map fst Hperm).
    + by apply Forall_forall.
  - rewrite (serialize_deconstructs _ _ _ _ _ _ Hv).
    unfold serialize_deconstructed, _format_args. rewrite Hpath.
    simpl. rewrite H1. simpl.
    rewrite (sorted_map String.ltb (fun kw => serialize mods ctx (snd kw))), H2. simpl.
    reflexivity.
Qed.

Lemma kwargs_permutation_invariant mods ctx v path args kwargs kwargs' :
  deconstructs v path args kwargs -> NoDup (map fst kwargs) -> kwargs' ≡ₚ kwargs ->
  serialize mods ctx (with_kwargs v kwargs') = serialize mods ctx v.
Proof.
  intros Hv Hnd Hperm.
  rewrite (serialize_deconstructs _ _ v path args kwargs Hv).
  rewrite (serialize_deconstructs _ _ (with_kwargs v kwargs') path args kwargs').
  2:{ destruct Hv as [-> | ->]; [by left|by right]. }
  unfold serialize_deconstructed, _format_args.
  rewrite !(sorted_map String.ltb (fun kw => serialize mods ctx (snd kw))).
  rewrite (sorted_permutation_invariant String.ltb (fun _ => True) (fun a b _ _ => string_lt_asym a b)
             (fun a b c _ _ _ => string_lt_trans a b c) (fun a b _ _ => string_lt_total a b)
             kwargs kwargs'); [done|done|by apply Forall_forall|done].
Qed.

(** ** Sorted key order (C1) *)

(** [NoDup] of a list given by its elements. *)
Ltac solve_NoDup := simpl; by apply (bool_decide_unpack _).

(** A property of all pairs of elements of a list given by its elements. *)
Ltac solve_pairs :=
  let a := fresh in let b := fresh in let Ha := fresh in let Hb := fresh in
  intros a b Ha Hb; simpl in Ha, Hb;
  repeat (apply elem_of_cons in Ha as [->|Ha]); try (by inv Ha);
  repeat (apply elem_of_cons in Hb as [->|Hb]); try (by inv Hb); reflexivity.

(** C1.  A mapping is rendered as a brace literal whose entries follow the
    sorted order of its keys, and a value that deconstructs is rendered as a
    call whose keyword arguments follow the sorted order of their names.  The
    text therefore does not depend on the order in which the mapping or the
    keyword arguments hold their items.  The mapping has keys of one type and
    values that serialize; the path of the call has a dot and its arguments
    serialize. *)
Theorem sorted_key_order (mods : modules) (ctx : context)
    (items : list (dkey * value))
    (v : value) (path : string) (args : list value) (kwargs : list (string * value))
    (callee : output) :
  NoDup (map fst items) ->
  one_kind (map fst items) ->
  Forall (fun kv => serializes mods empty_ctx (snd kv)) items ->
  deconstructs v path args kwargs ->
  NoDup (map fst kwargs) ->
  _serialize_path path = Ok callee ->
  Forall (serializes mods ctx) args ->
  Forall (fun kw => serializes mods ctx (snd kw)) kwargs ->
  (exists its imports,
      its ≡ₚ items /\ ascending_keys (map fst its) /\
      serialize mods ctx (VDict items)
      = Ok ("{" +:+ join ", " (map (dict_entry mods) its) +:+ "}", imports))
  /\ (forall items', items' ≡ₚ items ->
        serialize mods ctx (VDict items') = serialize mods ctx (VDict items))
  /\ (exists kws imports,
        kws ≡ₚ kwargs /\ ascending_names (map fst kws) /\
        serialize mods ctx v
        = Ok (fst callee +:+ "(" +:+
                join ", " (map (fun a => text_of (serialize mods ctx a)) args
                           ++ map (kwarg_entry mods ctx) kws) +:+ ")",
              imports))
  /\ (forall kwargs', kwargs' ≡ₚ kwargs ->
        serialize mods ctx (with_kwargs v kwargs') = serialize mods ctx v).
Proof.
  intros Hnd Hkind Hser Hv Hndk Hpath Hargs Hkw.
  split; [by apply dict_sorted_key_order|].
  split; [intros items' Hp; by apply dict_permutation_invariant|].
  split; [by apply (kwargs_sorted_name_order _ _ _ path)|].
  intros kwargs' Hp. by apply (kwargs_permutation_invariant _ _ _ path args kwargs).
Qed.

Lemma sorted_key_order_witness :
  (exists its imports,
      its ≡ₚ sample_dict /\ ascending_keys (map fst its) /\
      serialize ∅ empty_ctx (VDict sample_dict)
      = Ok ("{" +:+ join ", " (map (dict_entry ∅) its) +:+ "}", imports))
  /\ (forall items', items' ≡ₚ sample_dict ->
        serialize ∅ empty_ctx (VDict items') = serialize ∅ empty_ctx (VDict sample_dict))
  /\ (exists kws imports,
        kws ≡ₚ [("unique", VBool true); ("auto", VBool false)] /\
        ascending_names (map fst kws) /\
        serialize ∅ empty_ctx sample_call
        = Ok ("orm.Required" +:+ "(" +:+
                join ", " (map (fun a => text_of (serialize ∅ empty_ctx a)) [VStr "x"]
                           ++ map (kwarg_entry ∅ empty_ctx) kws) +:+ ")",
              imports))
  /\ (forall kwargs', kwargs' ≡ₚ [("unique", VBool true); ("auto", VBool false)] ->
        serialize ∅ empty_ctx (with_kwargs sample_call kwargs')
        = serialize ∅ empty_ctx sample_call).
Proof.
  apply (sorted_key_order ∅ empty_ctx sample_dict sample_call
           "pony.orm.core.Required" [VStr "x"]
           [("unique", VBool true); ("auto", VBool false)]
           ("orm.Required", {[ "from pony import orm" ]})).
  - solve_NoDup.
  - solve_pairs.
  - repeat constructor; by eexists.
  - by right.
  - solve_NoDup.
  - reflexivity.
  - repeat constructor; by eexists.
  - repeat constructor; by eexists.
Defined.

(** ** Tuples and other iterables (C8) *)

Lemma serialize_tuple mods ctx items :
  serialize mods ctx (VTuple items)
  = (let '(before, after) := tuple_format (length items) in
     sequence_serialize before after (map (serialize mods empty_ctx) items)).
Proof. reflexivity. Qed.

Lemma serialize_iterable mods ctx items :
  serialize mods ctx (VIterable items)
  = iterable_serialize (map (serialize mods empty_ctx) items).
Proof. reflexivity. Qed.

(** C8.  A tuple and any other iterable whose elements serialize is rendered
    as the tuple literal over the texts of its elements: [()] when empty,
    [(x,)] with the trailing comma for one element, and the elements joined
    by commas between parentheses for more. *)
Theorem tuple_literal_format (mods : modules) (ctx : context) (v : value)
    (items : list value) :
  v = VTuple items \/ v = VIterable items ->
  Forall (serializes mods empty_ctx) items ->
  exists imports,
    serialize mods ctx v
    = Ok (tuple_literal (map (fun x => text_of (serialize mods empty_ctx x)) items), imports).
Proof.
  intros Hv Hitems.
  destruct (collect_ok _ _ _ Hitems) as [imports Hc]. exists imports.
  destruct Hv as [-> | ->].
  - rewrite serialize_tuple. unfold sequence_serialize.
    destruct (tuple_format (length items)) as [before after] eqn:E.
    rewrite Hc. simpl.
    destruct items as [|x [|y items]]; inv E; reflexivity.
  - rewrite serialize_iterable. unfold iterable_serialize. rewrite Hc. simpl.
    rewrite length_map.
    destruct items as [|x [|y items]]; reflexivity.
Qed.

Lemma tuple_literal_format_witness :
  exists imports,
    serialize ∅ empty_ctx (VTuple [VInt 5])
    = Ok (tuple_literal (map (fun x => text_of (serialize ∅ empty_ctx x)) [VInt 5]), imports).
Proof.
  apply (tuple_literal_format ∅ empty_ctx (VTuple [VInt 5]) [VInt 5]).
  - by left.
  - repeat constructor. by eexists.
Defined.

(** The three cases of the literal on concrete tuples. *)
Example tuple_literal_cases :
  serialize ∅ empty_ctx (VTuple []) = Ok ("()", ∅)
  /\ serialize ∅ empty_ctx (VTuple [VInt 5]) = Ok ("(5,)", ∅)
  /\ serialize ∅ empty_ctx (VIterable [VInt 5]) = Ok ("(5,)", ∅)
  /\ serialize ∅ empty_ctx (VTuple [VInt 5; VStr "x"]) = Ok ("(5, 'x')", ∅).
Proof. repeat split; reflexivity. Qed.

(** ** Values that deconstruct (C2) *)

Lemma contains_app c a b : contains c (a +:+ b) = contains c a || contains c b.
Proof.
  induction a as [|x a IH]; simpl; [done|].
  change (String x a +:+ b) with (String x (a +:+ b)). simpl.
  by rewrite IH, orb_assoc.
Qed.

(** [rsplit] cuts at a dot: the two parts joined by a dot give the path. *)
Lemma rsplit1_join c s hd tl :
  rsplit1 c s = Some (hd, tl) -> s = hd +:+ String c tl.
Proof.
  revert hd. induction s as [|a s IH]; intros hd H; simpl in H; [done|].
  destruct (rsplit1 c s) as [[hd' tl']|].
  - inv H. change (String a hd' +:+ String c tl) with (String a (hd' +:+ String c tl)).
    f_equal. by apply IH.
  - case_bool_decide; [|done]. inv H. reflexivity.
Qed.

Lemma _serialize_path_call path module name :
  rsplit1 "."%char path = Some (module, name) ->
  _serialize_path path = Ok (call_name module name, {[ call_import module ]}).
Proof.
  intros H. unfold _serialize_path, call_name, call_import. rewrite H.
  repeat case_bool_decide; try done.
  apply rsplit1_join in H. by rewrite H.
Qed.

(** C2, as the code has it.  The rule for values that expose [deconstruct]
    comes after the rules for attributes, entity classes and plain classes.
    A value that exposes [deconstruct] and is neither an attribute nor an
    entity class is, when it is a class, rendered by the type rule; when it
    is not a class and has no [serialize_deconstructed] of its own, it is
    rendered as a call expression whose callee is [orm.name] for the module
    [pony.orm.core], [op.name] for [pony.migrate.diagram_ops] and the dotted
    path otherwise, with the matching import line; when it has one, what
    that returns is the result. *)
Theorem deconstructable_call_expression (mods : modules) (ctx : context) (v : value) :
  has_deconstruct v = true ->
  is_Attribute v = false ->
  is_EntityMeta v = false ->
  (is_type v = true ->
     serializer_factory v = Ok TypeSerializer /\
     exists t, v = VType t /\ serialize mods ctx v = Ok (type_serialize t))
  /\ (is_type v = false ->
       serializer_factory v = Ok DeconstructableSerializer /\
       exists path args kwargs hook,
         v = VObject path args kwargs hook /\
         (hook = None ->
          forall module name params im,
            rsplit1 "."%char path = Some (module, name) ->
            _format_args (map (serialize mods ctx) args)
              (map (fun kw => (fst kw, serialize mods ctx (snd kw))) kwargs)
            = Ok (params, im) ->
            serialize mods ctx v
            = Ok (call_name module name +:+ "(" +:+ params +:+ ")",
                  {[ call_import module ]} ∪ im))
         /\ (forall own, hook = Some own -> serialize mods ctx v = own)).
Proof.
  intros Hd Ha He. split; intros Ht.
  - destruct v; try discriminate. split; [reflexivity|].
    eexists; split; reflexivity.
  - destruct v; try discriminate. split; [reflexivity|].
    do 4 eexists. split; [reflexivity|]. split; [|by intros own ->].
    intros -> module name params im Hsplit Hargs.
    change (serialize mods ctx (VObject path args kwargs None))
      with (serialize_deconstructed path (map (serialize mods ctx) args)
              (map (fun kw => (fst kw, serialize mods ctx (snd kw))) kwargs)).
    unfold serialize_deconstructed.
    rewrite (_serialize_path_call _ _ _ Hsplit). simpl. rewrite Hargs. reflexivity.
Qed.

Lemma deconstructable_call_expression_witness :
  (is_type sample_call = true ->
     serializer_factory sample_call = Ok TypeSerializer /\
     exists t, sample_call = VType t /\ serialize ∅ empty_ctx sample_call = Ok (type_serialize t))
  /\ (is_type sample_call = false ->
       serializer_factory sample_call = Ok DeconstructableSerializer /\
       exists path args kwargs hook,
         sample_call = VObject path args kwargs hook /\
         (hook = None ->
          forall module name params im,
            rsplit1 "."%char path = Some (module, name) ->
            _format_args (map (serialize ∅ empty_ctx) args)
              (map (fun kw => (fst kw, serialize ∅ empty_ctx (snd kw))) kwargs)
            = Ok (params, im) ->
            serialize ∅ empty_ctx sample_call
            = Ok (call_name module name +:+ "(" +:+ params +:+ ")",
                  {[ call_import module ]} ∪ im))
         /\ (forall own, hook = Some own -> serialize ∅ empty_ctx sample_call = own)).
Proof.
  apply (deconstructable_call_expression ∅ empty_ctx sample_call); reflexivity.
Defined.

(** The call expressions of the two aliases and of another path. *)
Example call_expression_cases :
  serialize ∅ empty_ctx sample_call
  = Ok ("orm.Required('x', auto=False, unique=True)", {[ "from pony import orm" ]})
  /\ serialize ∅ empty_ctx (VObject "pony.migrate.diagram_ops.AddAttr" [VStr "Person"] [] None)
     = Ok ("op.AddAttr('Person')", {[ "from pony.migrate import diagram_ops as op" ]})
  /\ serialize ∅ empty_ctx (VObject "app.fields.Money" [VInt 2] [] None)
     = Ok ("app.fields.Money(2)", {[ "import app.fields" ]}).
Proof. repeat split; reflexivity. Qed.

(** C2 as stated fails on a class that exposes [deconstruct]: it is neither
    an attribute nor an entity class, the type rule takes it before the rule
    for deconstruction, and the text is a dotted reference to the class with
    the plain import of its module, not a call expression with the alias.
    It fails as well on an object with a [serialize_deconstructed] of its
    own, whose result is returned whatever the path. *)
Lemma deconstructable_class_counterexample :
  (has_deconstruct sample_class = true
   /\ is_Attribute sample_class = false
   /\ is_EntityMeta sample_class = false
   /\ serializer_factory sample_class = Ok TypeSerializer
   /\ serialize ∅ empty_ctx sample_class
      = Ok ("pony.migrate.diagram_ops.AddAttr", {[ "import pony.migrate.diagram_ops" ]})
   /\ ~ rendered_as_call (serialize ∅ empty_ctx sample_class))
  /\ (has_deconstruct sample_hooked = true
      /\ is_Attribute sample_hooked = false
      /\ is_EntityMeta sample_hooked = false
      /\ is_type sample_hooked = false
      /\ serialize ∅ empty_ctx sample_hooked = Ok ("Required", ∅)
      /\ ~ rendered_as_call (serialize ∅ empty_ctx sample_hooked)).
Proof.
  split.
  - repeat split; try reflexivity.
    intros (callee & params & imports & H).
    change (serialize ∅ empty_ctx sample_class)
      with (Ok ("pony.migrate.diagram_ops.AddAttr",
                ({[ "import pony.migrate.diagram_ops" ]} : gset string))) in H.
    injection H as H _.
    apply (f_equal (contains "("%char)) in H.
    rewrite !contains_app in H. simpl in H.
    rewrite orb_true_r in H. vm_compute in H. discriminate.
  - repeat split; try reflexivity.
    intros (callee & params & imports & H).
    change (serialize ∅ empty_ctx sample_hooked)
      with (Ok ("Required", (∅ : gset string))) in H.
    injection H as H _.
    apply (f_equal (contains "("%char)) in H.
    rewrite !contains_app in H. simpl in H.
    rewrite orb_true_r in H. vm_compute in H. discriminate.
Qed.

(** ** Functions (C4) *)

Lemma serialize_function mods ctx f :
  serialize mods ctx (VFunction f) = function_serialize mods f.
Proof. reflexivity. Qed.

(** C4.  A function named at the top of its module, whose qualified name has
    no marker of a local definition, serializes to [module.qualname] with the
    import of the module.  A lambda serializes to [lambda: ] followed by the
    source its body decompiles to, with no import.  A function defined inside
    another function, which its module does not hold under its name, fails
    with a [ValueError] that names the function and the module. *)
Theorem function_serialization (mods : modules) (ctx : context)
    (named lam nested : function) (m q src m' q' : string) (names : gset string) :
  fn_self_class named = None ->
  fn_name named <> "<lambda>" ->
  fn_module named = Some m -> m <> EmptyString ->
  fn_qualname named = Some q -> q <> EmptyString ->
  contains "<"%char q = false ->
  fn_self_class lam = None ->
  fn_name lam = "<lambda>" ->
  fn_source lam = Ok src ->
  fn_self_class nested = None ->
  fn_name nested <> "<lambda>" ->
  fn_module nested = Some m' -> m' <> EmptyString ->
  fn_qualname nested = Some q' ->
  contains "<"%char q' = true ->
  mods !! m' = Some names ->
  fn_name nested ∉ names ->
  serialize mods ctx (VFunction named) = Ok (m +:+ "." +:+ q, {[ "import " +:+ m ]})
  /\ serialize mods ctx (VFunction lam) = Ok ("lambda: " +:+ src, ∅)
  /\ exists rest,
       serialize mods ctx (VFunction nested)
       = Raise (ValueError (Some ("Could not find function " +:+ fn_name nested
                                    +:+ " in " +:+ m' +:+ "." +:+ rest))).
Proof.
  intros Hs Hn Hm Hm0 Hq Hq0 Hc Hls Hln Hsrc Hns Hnn Hnm Hnm0 Hnq Hnc Hmods Hnot.
  rewrite !serialize_function. unfold function_serialize. repeat split.
  - rewrite Hs, Hm, Hq, Hc. by repeat (case_bool_decide; try done).
  - rewrite Hls, Hsrc. by case_bool_decide.
  - rewrite Hns, Hnm, Hnq, Hnc, Hmods.
    eexists. repeat (case_bool_decide; try done); simpl; rewrite ?andb_false_r; reflexivity.
Qed.

Lemma function_serialization_witness :
  serialize sample_modules empty_ctx (VFunction sample_named)
  = Ok ("app.models" +:+ "." +:+ "default_name", {[ "import " +:+ "app.models" ]})
  /\ serialize sample_modules empty_ctx (VFunction sample_lambda)
     = Ok ("lambda: " +:+ "x + 1", ∅)
  /\ exists rest,
       serialize sample_modules empty_ctx (VFunction sample_nested)
       = Raise (ValueError (Some ("Could not find function " +:+ fn_name sample_nested
                                    +:+ " in " +:+ "app.models" +:+ "." +:+ rest))).
Proof.
  apply (function_serialization sample_modules empty_ctx
           sample_named sample_lambda sample_nested
           "app.models" "default_name" "x + 1" "app.models" "outer.<locals>.inner"
           {[ "outer"; "default_name" ]});
    try reflexivity; try discriminate.
Defined.

(** ** A value of no known kind (C6) *)

Lemma serializer_factory_no_rule v :
  no_rule_matches v -> serializer_factory v = Raise (ValueError None).
Proof.
  unfold no_rule_matches, rule_tests. rewrite !Forall_cons.
  intros H. unfold serializer_factory.
  repeat (destruct H as [-> H]). reflexivity.
Qed.

(** C6, as the code has it.  A value that matches none of the rules makes
    the dispatch, and so serialization, fail with a [ValueError] raised with
    no argument: the failure carries no message and no reference to the
    value.  The dispatch raises in this case only. *)
Theorem unknown_kind_bare_error (mods : modules) (ctx : context) (v : value) :
  no_rule_matches v ->
  serializer_factory v = Raise (ValueError None)
  /\ serialize mods ctx v = Raise (ValueError None)
  /\ ~ reports_context (serialize mods ctx v).
Proof.
  intros H. pose proof (serializer_factory_no_rule v H) as Hf.
  assert (serialize mods ctx v = Raise (ValueError None)) as Hs.
  { destruct v; simpl in *; try discriminate; reflexivity. }
  repeat split; [done..|].
  intros [msg Hmsg]. congruence.
Qed.

Lemma unknown_kind_bare_error_witness :
  serializer_factory VOpaque = Raise (ValueError None)
  /\ serialize ∅ empty_ctx VOpaque = Raise (ValueError None)
  /\ ~ reports_context (serialize ∅ empty_ctx VOpaque).
Proof.
  apply (unknown_kind_bare_error ∅ empty_ctx VOpaque).
  repeat constructor.
Defined.

(** The dispatch raises for no other value. *)
Lemma serializer_factory_raises_only_then v e :
  serializer_factory v = Raise e -> e = ValueError None /\ no_rule_matches v.
Proof.
  intros H. destruct v; try discriminate.
  split; [by inv H|]. repeat constructor.
Qed.

(** C6 as stated fails on a value of no known kind: it matches no rule, and
    the failure has no message that could name it. *)
Lemma unknown_kind_counterexample :
  no_rule_matches VOpaque
  /\ serialize ∅ empty_ctx VOpaque = Raise (ValueError None)
  /\ ~ reports_context (serialize ∅ empty_ctx VOpaque).
Proof.
  split; [repeat constructor|]. split; [reflexivity|].
  intros [msg Hmsg]. discriminate.
Qed.

(** ** Resolving a migration name (C5) *)

Lemma rsplit1_none c s : contains c s = false -> rsplit1 c s = None.
Proof.
  induction s as [|a s IH]; simpl; [done|].
  intros [Ha Hs]%orb_false_iff. rewrite (IH Hs). by rewrite Ha.
Qed.

Lemma rsplit1_last c hd tl :
  contains c tl = false -> rsplit1 c (hd +:+ String c tl) = Some (hd, tl).
Proof.
  intros H. induction hd as [|a hd IH].
  - change (EmptyString +:+ String c tl) with (String c tl). simpl.
    rewrite (rsplit1_none _ _ H). by rewrite bool_decide_eq_true_2.
  - change (String a hd +:+ String c tl) with (String a (hd +:+ String c tl)).
    simpl. by rewrite IH.
Qed.

(** A text whose last three characters are [.py] is what stands before
    them followed by [.py]. *)
Lemma last_chars_py p : last_chars 3 p = ".py" -> p = drop_last 3 p +:+ ".py".
Proof.
  unfold last_chars, drop_last.
  induction p as [|a p IH]; [done|].
  destruct p as [|b [|c [|d p]]]; try done.
  intros H.
  replace (String.length (String a (String b (String c (String d p)))) - 3)%nat
    with (S (String.length (String b (String c (String d p))) - 3))%nat in * by (simpl; lia).
  change (String.substring (S ?n) 3 (String a ?s)) with (String.substring n 3 s) in H.
  apply IH in H.
  change (String.substring 0 (S ?n) (String a ?s)) with (String a (String.substring 0 n s)).
  change (String a ?x +:+ ?y) with (String a (x +:+ y)).
  by rewrite <- H.
Qed.

Lemma remove_extension_py p : last_chars 3 p = ".py" -> remove_extension p = drop_last 3 p.
Proof.
  intros H. apply last_chars_py in H. unfold remove_extension.
  rewrite H at 1. by rewrite (rsplit1_last "."%char _ "py").
Qed.

(** C5, as the code has it.  The name is looked up among the files of the
    migration directory that start with it.  More than one file is an error
    that lists them all; no file is an error that names the token.  A single
    file must have a base name that ends in [.py]: then its base name without
    that extension is returned, and otherwise the assertion fails. *)
Theorem find_migration_resolution (migration_dir : string) (listing : list string)
    (name : string) :
  let files := glob_prefix migration_dir listing name in
  ((1 < length files)%nat ->
     find_migration migration_dir listing name
     = Raise (Exception ("Multiple files found: " +:+ join ", " files)))
  /\ (files = [] ->
       find_migration migration_dir listing name
       = Raise (Exception ("No files for " +:+ name)))
  /\ (forall f, files = [f] ->
       (last_chars 3 (basename f) = ".py" ->
          find_migration migration_dir listing name = Ok (remove_extension (basename f)))
       /\ (last_chars 3 (basename f) <> ".py" ->
            find_migration migration_dir listing name = Raise AssertionError)).
Proof.
  intros files. unfold find_migration. fold files. repeat split.
  - intros H. apply Nat.ltb_lt in H. by rewrite H.
  - by intros ->.
  - rewrite H. simpl. intros Hpy. rewrite bool_decide_eq_true_2 by done.
    by rewrite remove_extension_py.
  - rewrite H. simpl. intros Hpy. by rewrite bool_decide_eq_false_2.
Qed.

Lemma find_migration_resolution_witness :
  find_migration "migrations" ["0001_init.py"; "0001_init_extra.py"; "0002_more.py"] "0001"
  = Raise (Exception ("Multiple files found: " +:+
             join ", " (glob_prefix "migrations"
                          ["0001_init.py"; "0001_init_extra.py"; "0002_more.py"] "0001")))
  /\ find_migration "migrations" ["0001_init.py"; "0001_init_extra.py"; "0002_more.py"] "9999"
     = Raise (Exception ("No files for " +:+ "9999"))
  /\ find_migration "migrations" ["0001_init.py"; "0001_init_extra.py"; "0002_more.py"] "0002"
     = Ok (remove_extension (basename "migrations/0002_more.py"))
  /\ find_migration "migrations" ["0001_init.txt"] "0001" = Raise AssertionError.
Proof.
  split; [|split; [|split]].
  - apply (proj1 (find_migration_resolution "migrations"
                    ["0001_init.py"; "0001_init_extra.py"; "0002_more.py"] "0001")).
    simpl. lia.
  - apply (proj1 (proj2 (find_migration_resolution "migrations"
                    ["0001_init.py"; "0001_init_extra.py"; "0002_more.py"] "9999"))).
    reflexivity.
  - apply (proj1 (proj2 (proj2 (find_migration_resolution "migrations"
                    ["0001_init.py"; "0001_init_extra.py"; "0002_more.py"] "0002"))
                    "migrations/0002_more.py" eq_refl)).
    reflexivity.
  - apply (proj2 (proj2 (proj2 (find_migration_resolution "migrations"
                    ["0001_init.txt"] "0001"))
                    "migrations/0001_init.txt" eq_refl)).
    discriminate.
Defined.

(** The three outcomes on the directory of the specification. *)
Example find_migration_cases :
  find_migration "migrations" ["0001_init.py"; "0001_init_extra.py"; "0002_more.py"] "0001"
  = Raise (Exception
      "Multiple files found: migrations/0001_init.py, migrations/0001_init_extra.py")
  /\ find_migration "migrations" ["0001_init.py"; "0001_init_extra.py"; "0002_more.py"] "9999"
     = Raise (Exception "No files for 9999")
  /\ find_migration "migrations" ["0001_init.py"; "0001_init_extra.py"; "0002_more.py"] "0002"
     = Ok "0002_more".
Proof. repeat split; reflexivity. Qed.

(** C5 as stated fails on a single match that is not a module: the file
    [0001_init.txt] is the only one that starts with [0001], its base name
    without the extension is [0001_init], and the lookup fails the assertion
    instead of returning it. *)
Lemma find_migration_counterexample :
  glob_prefix "migrations" ["0001_init.txt"] "0001" = ["migrations/0001_init.txt"]
  /\ remove_extension (basename "migrations/0001_init.txt") = "0001_init"
  /\ find_migration "migrations" ["0001_init.txt"] "0001" = Raise AssertionError
  /\ find_migration "migrations" ["0001_init.txt"] "0001"
     <> Ok (remove_extension (basename "migrations/0001_init.txt")).
Proof. repeat split; try reflexivity. discriminate. Qed.

(** ** The exit stack and [sys.argv] *)

Lemma unwind_fold failure stack w :
  trace (fold_left (fun w i => unwind_item failure i w) stack w)
  = trace w ++ unwind_events failure stack
  /\ sys_argv (fold_left (fun w i => unwind_item failure i w) stack w) = sys_argv w
  /\ asked (fold_left (fun w i => unwind_item failure i w) stack w) = asked w.
Proof.
  revert w. induction stack as [|i stack IH]; intros w; simpl.
  - by rewrite app_nil_r.
  - destruct (IH (unwind_item failure i w)) as (Ht & Ha & Hq).
    rewrite Ht, Ha, Hq.
    destruct i as [d|]; [|destruct failure as [e|]]; simpl;
      rewrite <- ?app_assoc; done.
Qed.

Lemma unwind_trace failure w :
  trace (unwind failure w) = trace w ++ unwind_events failure (cmd_exitstack w).
Proof. unfold unwind. simpl. apply unwind_fold. Qed.

Lemma unwind_argv failure w : sys_argv (unwind failure w) = sys_argv w.
Proof. unfold unwind. simpl. apply unwind_fold. Qed.

Lemma unwind_events_no_action failure stack :
  Forall (fun e => is_action e = false) (unwind_events failure stack).
Proof.
  induction stack as [|i stack IH]; simpl; [constructor|].
  apply Forall_app. split; [|done].
  destruct i as [d|]; [|destruct failure]; repeat constructor.
Qed.

Lemma keeps_ret {A} (a : A) : keeps_argv (mret a : M A).
Proof. by intros w. Qed.

Lemma keeps_bind {A B} (m : M A) (f : A -> M B) :
  keeps_argv m -> (forall a, keeps_argv (f a)) -> keeps_argv (m ≫= f).
Proof.
  intros Hm Hf w. unfold mbind, M_bind. specialize (Hm w).
  destruct (m w) as [[a|e] w']; simpl in *; [|done].
  by rewrite Hf.
Qed.

Lemma keeps_raise {A} e : keeps_argv (raise e : M A).
Proof. by intros w. Qed.

Lemma keeps_emit e : keeps_argv (emit e).
Proof. by intros w. Qed.

Lemma keeps_lift {A} (r : result A) : keeps_argv (lift r).
Proof. by intros w. Qed.

Lemma keeps_register i : keeps_argv (register i).
Proof. by intros w. Qed.

Lemma keeps_callback_disconnect db : keeps_argv (callback_disconnect db).
Proof. destruct db; [apply keeps_register|apply keeps_raise]. Qed.

Lemma keeps_with_cmd_exitstack {A} (block : M A) :
  keeps_argv block -> keeps_argv (with_cmd_exitstack block).
Proof.
  intros H w. unfold with_cmd_exitstack. specialize (H w).
  destruct (block w) as [[a|e] w']; cbn [snd] in *; by rewrite unwind_argv.
Qed.

Create HintDb keeps.
#[local] Hint Resolve keeps_ret keeps_raise keeps_emit keeps_lift keeps_register
  keeps_callback_disconnect : keeps.

Ltac keeps :=
  repeat first
    [ progress auto with keeps
    | apply keeps_bind; [|intros ?]
    | apply keeps_with_cmd_exitstack
    | match goal with
      | |- keeps_argv (if ?b then _ else _) => destruct b
      | |- keeps_argv (match ?x with _ => _ end) => destruct x
      | |- keeps_argv pass => apply keeps_ret
      | |- keeps_argv (print _) => apply keeps_emit
      end ].

Section command_facts.
Context (migration_dir : string) (listing : list string)
        (disk_loader : loader) (operator : nat -> bool)
        (MIGRATION_TEMPLATE : template_ctx -> string)
        (pony_version : string) (now : string) (PONY_DEBUG : bool)
        (docopt : list string -> result options).

Local Abbreviation merge_ :=
  (merge migration_dir disk_loader operator MIGRATION_TEMPLATE pony_version now).
Local Abbreviation show_migrations_ :=
  (show_migrations migration_dir disk_loader operator MIGRATION_TEMPLATE pony_version now).
Local Abbreviation migrate_ :=
  (migrate migration_dir listing disk_loader operator MIGRATION_TEMPLATE pony_version now
           PONY_DEBUG).
Local Abbreviation cli_ :=
  (cli migration_dir listing disk_loader operator MIGRATION_TEMPLATE pony_version now
       PONY_DEBUG docopt).

Lemma keeps_ask_merge leaves : keeps_argv (ask_merge operator leaves).
Proof. by intros w. Qed.
#[local] Hint Resolve keeps_ask_merge : keeps.

Lemma keeps_print_names prefix l : keeps_argv (print_names prefix l).
Proof. induction l; simpl; keeps. Qed.
#[local] Hint Resolve keeps_print_names : keeps.

Lemma keeps_merge db loader_arg leaves_arg : keeps_argv (merge_ db loader_arg leaves_arg).
Proof.
  unfold merge. destruct loader_arg, leaves_arg; keeps.
Qed.
#[local] Hint Resolve keeps_merge : keeps.

Lemma keeps_show_migrations db fail_fast : keeps_argv (show_migrations_ db fail_fast).
Proof.
  unfold show_migrations, show_migrations_without_db.
  keeps.
Qed.
#[local] Hint Resolve keeps_show_migrations : keeps.

Lemma keeps_migrate db opts : keeps_argv (migrate_ db opts).
Proof.
  unfold migrate, find_migration_opt.
  keeps.
Qed.

(** ** The merge entry point (C7) *)

(** C7, on the code.  The merge entry point called on its own.  With at
    most one leaf it prints that there is nothing to merge and returns.  With
    more leaves it asks the operator: on a refusal it raises [MergeAborted]
    and writes nothing.  On an acceptance it registers the disconnection of
    the database before anything else: called with a database handle it then
    writes one file, named after the generated name in the migration
    directory, that the template renders with the leaves as dependencies and
    the empty operation list as body; called without one, as its default
    argument allows, it raises [AttributeError] after the question, and writes
    nothing. *)
Theorem merge_entry_point (db : option database) (w : world) :
  let leaves := leaf_nodes disk_loader in
  ((length leaves <= 1)%nat ->
     merge_ db None None w = (Ok tt, add_event (Print "Nothing to merge.") w))
  /\ ((1 < length leaves)%nat -> operator (asked w) = false ->
       exists w',
         merge_ db None None w = (Raise MergeAborted, w')
         /\ trace w' = trace w ++ [AskMerge leaves])
  /\ ((1 < length leaves)%nat -> operator (asked w) = true ->
       match db with
       | Some d =>
           exists w',
             merge_ db None None w = (Ok tt, w')
             /\ trace w' = trace w ++
                  [AskMerge leaves;
                   WriteFile (path_join migration_dir (_generate_name disk_loader +:+ ".py"))
                     (MIGRATION_TEMPLATE
                        {| deps := leaves; version := pony_version; timestamp := now;
                           body := "operations = []"; imports := EmptyString |})]
             /\ cmd_exitstack w' = Callback_disconnect d :: cmd_exitstack w
       | None =>
           exists w',
             merge_ db None None w = (Raise AttributeError, w')
             /\ trace w' = trace w ++ [AskMerge leaves]
             /\ cmd_exitstack w' = cmd_exitstack w
       end).
Proof.
  intros leaves. unfold merge. fold leaves. split; [|split].
  - intros H. apply Nat.leb_le in H. by rewrite H.
  - intros H Hop. apply Nat.leb_gt in H. rewrite H.
    unfold mbind, M_bind, ask_merge. rewrite Hop. simpl.
    eexists. split; reflexivity.
  - intros H Hop. apply Nat.leb_gt in H. rewrite H.
    unfold mbind, M_bind, ask_merge. rewrite Hop.
    destruct db as [d|]; simpl; eexists; (split; [reflexivity|]); simpl.
    + split; [by rewrite <- app_assoc|reflexivity].
    + split; reflexivity.
Qed.

(** ** Listing with several leaves (C3) *)

(** C3, on the code.  With more than one leaf and no fail-fast flag the
    listing asks the operator.  On a refusal it returns and only the question
    was asked.  On an acceptance it calls the merge without a database
    handle: the merge asks again, and then raises [MergeAborted] on a refusal
    and [AttributeError] on an acceptance, so the listing fails, writes no
    file and is not run again. *)
Theorem list_merge_branch (db : database) (w : world) :
  let leaves := leaf_nodes disk_loader in
  (1 < length leaves)%nat ->
  (operator (asked w) = false ->
     exists w',
       show_migrations_ db false w = (Ok tt, w')
       /\ trace w' = trace w ++ [AskMerge leaves])
  /\ (operator (asked w) = true ->
       exists w',
         show_migrations_ db false w
         = (Raise (if operator (S (asked w)) then AttributeError else MergeAborted), w')
         /\ trace w' = trace w ++ [AskMerge leaves; AskMerge leaves]).
Proof.
  intros leaves H. subst leaves. unfold show_migrations, merge.
  destruct (leaf_nodes disk_loader) as [|leaf [|leaf2 rest]]; [simpl in H; lia..|].
  split; intros Hop.
  - unfold mbind, M_bind, ask_merge, callback_disconnect, register. simpl.
    rewrite Hop. eexists. split; reflexivity.
  - unfold mbind, M_bind, ask_merge, callback_disconnect, register. simpl.
    rewrite Hop. simpl.
    destruct (operator (S (asked w))); simpl; eexists; (split; [reflexivity|]);
      simpl; by rewrite <- app_assoc.
Qed.

(** ** No subcommand (C9) *)

(** C9.  With none of make, apply, sql and list selected, [migrate] raises
    [NotImplementedError].  It performs no migration action, asks nothing,
    writes no file and prints no line: all it adds to the trace is the SQL
    tracing switch when a verbose flag is set, and what leaving the exit
    stack does with the error.  From a fresh stack that is nothing, unless
    [PONY_DEBUG] has put the debugger hook on it, which reports the error
    being raised on the error stream and opens the post-mortem before the
    error goes on. *)
Theorem migrate_without_subcommand (db : database) (opts : options) (w : world) :
  selected opts = None ->
  exists w' added,
    migrate_ db opts w = (Raise NotImplementedError, w')
    /\ trace w' = trace w ++ added
    /\ Forall (fun e => is_action e = false) added
    /\ (cmd_exitstack w = [] ->
        added = (if opt_verbose opts || opt_v opts then [SqlDebug] else [])
                ++ (if PONY_DEBUG
                    then [PrintStderr NotImplementedError; PostMortem NotImplementedError]
                    else [])).
Proof.
  intros Hsel. unfold migrate. rewrite Hsel.
  unfold mbind, M_bind, with_cmd_exitstack, raise.
  destruct (opt_verbose opts || opt_v opts); destruct PONY_DEBUG; simpl;
    do 2 eexists; (split; [reflexivity|]); rewrite unwind_trace; simpl;
    rewrite <- ?app_assoc; (split; [reflexivity|]);
    (split; [repeat constructor; apply unwind_events_no_action|]);
    intros Hs; rewrite Hs; reflexivity.
Qed.

(** ** [sys.argv] under [use_argv] (C10) *)

(** C10.  Given an argument text, [cli] runs its block under [use_argv]:
    the block, and so [docopt], sees [sys.argv] replaced by [cli] followed by
    the words of the text.  When the block returns, [sys.argv] is again what
    it was.  When the block raises, nothing restores it: the replaced value
    stays. *)
Theorem argv_replaced_and_restored (db : database) (args : string) (w : world) :
  given (Some args) = true ->
  (forall (A : Type) (block : M A) (a : A) w',
      block (set_argv ("cli" :: split args) w) = (Ok a, w') ->
      use_argv args block w = (Ok a, set_argv (sys_argv w) w'))
  /\ (forall (A : Type) (block : M A) e w',
        block (set_argv ("cli" :: split args) w) = (Raise e, w') ->
        use_argv args block w = (Raise e, w'))
  /\ (forall e, docopt ("cli" :: split args) = Raise e ->
        cli_ db (Some args) w = (Raise e, set_argv ("cli" :: split args) w))
  /\ (forall w', cli_ db (Some args) w = (Ok tt, w') -> sys_argv w' = sys_argv w)
  /\ (forall e w', cli_ db (Some args) w = (Raise e, w') ->
        sys_argv w' = "cli" :: split args).
Proof.
  intros Hgiven. repeat split.
  - intros A block a w' H. unfold use_argv. by rewrite H.
  - intros A block e w' H. unfold use_argv. by rewrite H.
  - intros e H. unfold cli. rewrite Hgiven. unfold use_argv, mbind, M_bind. simpl.
    by rewrite H.
  - intros w'. unfold cli. rewrite Hgiven. unfold use_argv.
    match goal with |- context [match ?b ?x with _ => _ end] => destruct (b x) as [[[]|e] w1] end;
      intros [= <-]; reflexivity.
  - intros e w'. unfold cli. rewrite Hgiven. unfold use_argv.
    match goal with |- context [match ?b ?x with _ => _ end] =>
      destruct (b x) as [[[]|e1] w1] eqn:Hb end;
      intros [= <- <-].
    assert (keeps_argv (A:=unit)
              (opts ← (fun w0 => (docopt (sys_argv w0), w0));
               if opt_migrate opts then migrate_ db opts else raise NotImplementedError)) as Hk.
    { apply keeps_bind; [by intros ?|]. intros opts.
      destruct (opt_migrate opts); [apply keeps_migrate|apply keeps_raise]. }
    specialize (Hk (set_argv ("cli" :: split args) w)).
    rewrite Hb in Hk. exact Hk.
Qed.

End command_facts.

Lemma merge_entry_point_witness :
  merge "migrations" sample_single_loader (fun _ => true) sample_template
        "0.7" "2018-03-01 10:00" None None None sample_world
  = (Ok tt, add_event (Print "Nothing to merge.") sample_world)
  /\ (exists w',
        merge "migrations" sample_loader (fun _ => false) sample_template
              "0.7" "2018-03-01 10:00" (Some sample_db) None None sample_world
        = (Raise MergeAborted, w')
        /\ trace w' = trace sample_world ++ [AskMerge ["0002_a"; "0002_b"]])
  /\ (exists w',
        merge "migrations" sample_loader (fun _ => true) sample_template
              "0.7" "2018-03-01 10:00" (Some sample_db) None None sample_world
        = (Ok tt, w')
        /\ trace w' = trace sample_world ++
             [AskMerge ["0002_a"; "0002_b"];
              WriteFile (path_join "migrations" ("0003_merge" +:+ ".py"))
                (sample_template
                   {| deps := ["0002_a"; "0002_b"]; version := "0.7";
                      timestamp := "2018-03-01 10:00";
                      body := "operations = []"; imports := EmptyString |})]
        /\ cmd_exitstack w' = Callback_disconnect sample_db :: cmd_exitstack sample_world)
  /\ (exists w',
        merge "migrations" sample_loader (fun _ => true) sample_template
              "0.7" "2018-03-01 10:00" None None None sample_world
        = (Raise AttributeError, w')
        /\ trace w' = trace sample_world ++ [AskMerge ["0002_a"; "0002_b"]]
        /\ cmd_exitstack w' = cmd_exitstack sample_world).
Proof.
  split; [|split; [|split]].
  - apply (proj1 (merge_entry_point "migrations" sample_single_loader (fun _ => true)
                    sample_template "0.7" "2018-03-01 10:00" None sample_world)).
    simpl. lia.
  - apply (proj1 (proj2 (merge_entry_point "migrations" sample_loader (fun _ => false)
                    sample_template "0.7" "2018-03-01 10:00" (Some sample_db) sample_world))).
    + simpl. lia.
    + reflexivity.
  - apply (proj2 (proj2 (merge_entry_point "migrations" sample_loader (fun _ => true)
                    sample_template "0.7" "2018-03-01 10:00" (Some sample_db) sample_world))
             ltac:(simpl; lia) eq_refl).
  - apply (proj2 (proj2 (merge_entry_point "migrations" sample_loader (fun _ => true)
                    sample_template "0.7" "2018-03-01 10:00" None sample_world))
             ltac:(simpl; lia) eq_refl).
Defined.

(** The entry point called with no argument, as its signature allows, on a
    history with two heads and an operator who accepts: no file is written,
    the call ends in [AttributeError]. *)
Example merge_without_db_counterexample :
  merge "migrations" sample_loader (fun _ => true) sample_template
        "0.7" "2018-03-01 10:00" None None None sample_world
  = (Raise AttributeError,
     {| sys_argv := sys_argv sample_world; cmd_exitstack := [];
        asked := 1; trace := [AskMerge ["0002_a"; "0002_b"]] |})
  /\ Forall (fun e => match e with WriteFile _ _ => False | _ => True end)
        (trace (snd (merge "migrations" sample_loader (fun _ => true) sample_template
                       "0.7" "2018-03-01 10:00" None None None sample_world))).
Proof. split; [reflexivity|]. repeat constructor. Qed.

(** The file the merge writes for the two heads. *)
Example merge_writes_file :
  trace (snd (merge "migrations" sample_loader (fun _ => true) sample_template
                "0.7" "2018-03-01 10:00" (Some sample_db) None None sample_world))
  = [AskMerge ["0002_a"; "0002_b"];
     WriteFile "migrations/0003_merge.py"
       ("dependencies = ['0002_a', '0002_b']" +:+ str1 "010"%char +:+ str1 "010"%char
        +:+ "operations = []")].
Proof. reflexivity. Qed.

Lemma list_merge_branch_witness :
  (exists w',
      show_migrations "migrations" sample_loader (fun _ => false) sample_template
        "0.7" "2018-03-01 10:00" sample_db false sample_world = (Ok tt, w')
      /\ trace w' = trace sample_world ++ [AskMerge ["0002_a"; "0002_b"]])
  /\ (exists w',
        show_migrations "migrations" sample_loader (fun _ => true) sample_template
          "0.7" "2018-03-01 10:00" sample_db false sample_world = (Raise AttributeError, w')
        /\ trace w' = trace sample_world
                      ++ [AskMerge ["0002_a"; "0002_b"]; AskMerge ["0002_a"; "0002_b"]]).
Proof.
  split.
  - apply (proj1 (list_merge_branch "migrations" sample_loader (fun _ => false)
                    sample_template "0.7" "2018-03-01 10:00" sample_db sample_world
                    ltac:(simpl; lia)) eq_refl).
  - apply (proj2 (list_merge_branch "migrations" sample_loader (fun _ => true)
                    sample_template "0.7" "2018-03-01 10:00" sample_db sample_world
                    ltac:(simpl; lia)) eq_refl).
Defined.

(** The listing with two heads and an operator who accepts: the whole run. *)
Example list_merge_accept_run :
  show_migrations "migrations" sample_loader (fun _ => true) sample_template
    "0.7" "2018-03-01 10:00" sample_db false sample_world
  = (Raise AttributeError,
     {| sys_argv := ["manage.py"; "list"];
        cmd_exitstack := [Callback_disconnect sample_db];
        asked := 2;
        trace := [AskMerge ["0002_a"; "0002_b"]; AskMerge ["0002_a"; "0002_b"]] |}).
Proof. reflexivity. Qed.

(** With the fail-fast flag, several heads are not an error: the listing
    goes on from the first one. *)
Example list_fail_fast_run :
  show_migrations "migrations" sample_loader (fun _ => true) sample_template
    "0.7" "2018-03-01 10:00" sample_db true sample_world
  = (Ok tt,
     {| sys_argv := ["manage.py"; "list"];
        cmd_exitstack := [Callback_disconnect sample_db];
        asked := 0;
        trace := [Print "+ 0001_init"; Print "  0002_a"] |}).
Proof. reflexivity. Qed.

Lemma migrate_without_subcommand_witness :
  exists w' added,
    migrate "migrations" [] sample_loader (fun _ => true) sample_template
      "0.7" "2018-03-01 10:00" false sample_db (bare_options true false) sample_world
    = (Raise NotImplementedError, w')
    /\ trace w' = trace sample_world ++ added
    /\ Forall (fun e => is_action e = false) added
    /\ (cmd_exitstack sample_world = [] ->
        added = (if opt_verbose (bare_options true false) || opt_v (bare_options true false)
                 then [SqlDebug] else [])
                ++ (if false
                    then [PrintStderr NotImplementedError; PostMortem NotImplementedError]
                    else [])).
Proof.
  apply (migrate_without_subcommand "migrations" [] sample_loader (fun _ => true)
           sample_template "0.7" "2018-03-01 10:00" false sample_db
           (bare_options true false) sample_world).
  reflexivity.
Defined.

(** The bare invocation with the verbose flag, without and with the
    debugger hook. *)
Example migrate_bare_runs :
  migrate "migrations" [] sample_loader (fun _ => true) sample_template
    "0.7" "2018-03-01 10:00" false sample_db (bare_options true false) sample_world
  = (Raise NotImplementedError,
     {| sys_argv := ["manage.py"; "list"]; cmd_exitstack := []; asked := 0;
        trace := [SqlDebug] |})
  /\ migrate "migrations" [] sample_loader (fun _ => true) sample_template
       "0.7" "2018-03-01 10:00" true sample_db (bare_options true false) sample_world
     = (Raise NotImplementedError,
        {| sys_argv := ["manage.py"; "list"]; cmd_exitstack := []; asked := 0;
           trace := [SqlDebug; PrintStderr NotImplementedError;
                     PostMortem NotImplementedError] |}).
Proof. split; reflexivity. Qed.

Lemma argv_replaced_and_restored_witness :
  (forall (A : Type) (block : M A) (a : A) w',
      block (set_argv ("cli" :: split "migrate --verbose") sample_world) = (Ok a, w') ->
      use_argv "migrate --verbose" block sample_world
      = (Ok a, set_argv (sys_argv sample_world) w'))
  /\ (forall (A : Type) (block : M A) e w',
        block (set_argv ("cli" :: split "migrate --verbose") sample_world) = (Raise e, w') ->
        use_argv "migrate --verbose" block sample_world = (Raise e, w'))
  /\ (forall e, sample_docopt ("cli" :: split "migrate --verbose") = Raise e ->
        cli "migrations" [] sample_loader (fun _ => true) sample_template
          "0.7" "2018-03-01 10:00" false sample_docopt sample_db
          (Some "migrate --verbose") sample_world
        = (Raise e, set_argv ("cli" :: split "migrate --verbose") sample_world))
  /\ (forall w',
        cli "migrations" [] sample_loader (fun _ => true) sample_template
          "0.7" "2018-03-01 10:00" false sample_docopt sample_db
          (Some "migrate --verbose") sample_world = (Ok tt, w') ->
        sys_argv w' = sys_argv sample_world)
  /\ (forall e w',
        cli "migrations" [] sample_loader (fun _ => true) sample_template
          "0.7" "2018-03-01 10:00" false sample_docopt sample_db
          (Some "migrate --verbose") sample_world = (Raise e, w') ->
        sys_argv w' = "cli" :: split "migrate --verbose").
Proof.
  apply (argv_replaced_and_restored "migrations" [] sample_loader (fun _ => true)
           sample_template "0.7" "2018-03-01 10:00" false sample_docopt sample_db
           "migrate --verbose" sample_world).
  reflexivity.
Defined.

(** [cli] with an argument text: the bare command raises and leaves the
    replaced [sys.argv] behind; a block that returns gets it restored. *)
Example cli_argv_runs :
  sys_argv (snd (cli "migrations" [] sample_loader (fun _ => true) sample_template
                   "0.7" "2018-03-01 10:00" false sample_docopt sample_db
                   (Some "migrate --verbose") sample_world))
  = ["cli"; "migrate"; "--verbose"]
  /\ use_argv "migrate --verbose" (fun w => (Ok (sys_argv w), w)) sample_world
     = (Ok ["cli"; "migrate"; "--verbose"], sample_world).
Proof. split; reflexivity. Qed.

(** * Further properties *)

(** ** Induction on values *)

Section value_induction.
Context (P : value -> Prop).
Hypothesis HNone : P VNone.
Hypothesis HBool : forall b, P (VBool b).
Hypothesis HInt : forall z, P (VInt z).
Hypothesis HFloat : forall f, P (VFloat f).
Hypothesis HBytes : forall b, P (VBytes b).
Hypothesis HStr : forall s, P (VStr s).
Hypothesis HDecimal : forall r, P (VDecimal r).
Hypothesis HDatetime : forall d, P (VDatetime d).
Hypothesis HDate : forall r, P (VDate r).
Hypothesis HTime : forall r, P (VTime r).
Hypothesis HTimedelta : forall r, P (VTimedelta r).
Hypothesis HEnum : forall m c v, P v -> P (VEnum m c v).
Hypothesis HFrozenset : forall l, Forall P l -> P (VFrozenset l).
Hypothesis HList : forall l, Forall P l -> P (VList l).
Hypothesis HSet : forall l, Forall P l -> P (VSet l).
Hypothesis HTuple : forall l, Forall P l -> P (VTuple l).
Hypothesis HDict : forall l, Forall (fun kv => P (snd kv)) l -> P (VDict l).
Hypothesis HType : forall t, P (VType t).
Hypothesis HEntity : forall n, P (VEntity n).
Hypothesis HAttribute : forall p a k,
  Forall P a -> Forall (fun kw => P (snd kw)) k -> P (VAttribute p a k).
Hypothesis HObject : forall p a k h,
  Forall P a -> Forall (fun kw => P (snd kw)) k -> P (VObject p a k h).
Hypothesis HPartial : forall f a k, P f -> P a -> P k -> P (VPartial f a k).
Hypothesis HFunction : forall f, P (VFunction f).
Hypothesis HIterable : forall l, Forall P l -> P (VIterable l).
Hypothesis HRegex : forall p f, P p -> P f -> P (VRegex p f).
Hypothesis HOpaque : P VOpaque.

Fixpoint value_induction (v : value) : P v :=
  let all := fix all (l : list value) : Forall P l :=
    match l with
    | [] => Forall_nil_2 P
    | x :: l' => Forall_cons_2 P x l' (value_induction x) (all l')
    end in
  let all_snd := fun (K : Type) =>
    fix all_snd (l : list (K * value)) : Forall (fun kv => P (snd kv)) l :=
    match l with
    | [] => Forall_nil_2 _
    | x :: l' => Forall_cons_2 (fun kv => P (snd kv)) x l' (value_induction (snd x)) (all_snd l')
    end in
  match v with
  | VNone => HNone
  | VBool b => HBool b
  | VInt z => HInt z
  | VFloat f => HFloat f
  | VBytes b => HBytes b
  | VStr s => HStr s
  | VDecimal r => HDecimal r
  | VDatetime d => HDatetime d
  | VDate r => HDate r
  | VTime r => HTime r
  | VTimedelta r => HTimedelta r
  | VEnum m c x => HEnum m c x (value_induction x)
  | VFrozenset l => HFrozenset l (all l)
  | VList l => HList l (all l)
  | VSet l => HSet l (all l)
  | VTuple l => HTuple l (all l)
  | VDict l => HDict l (all_snd dkey l)
  | VType t => HType t
  | VEntity n => HEntity n
  | VAttribute p a k => HAttribute p a k (all a) (all_snd string k)
  | VObject p a k h => HObject p a k h (all a) (all_snd string k)
  | VPartial f a k => HPartial f a k (value_induction f) (value_induction a) (value_induction k)
  | VFunction f => HFunction f
  | VIterable l => HIterable l (all l)
  | VRegex p f => HRegex p f (value_induction p) (value_induction f)
  | VOpaque => HOpaque
  end.
End value_induction.

Lemma map_ext_Forall_eq {A B} (f g : A -> B) l :
  Forall (fun x => f x = g x) l -> map f l = map g l.
Proof. induction 1; simpl; congruence. Qed.

(** The serializer reads one flag of the context. *)
Lemma serialize_reads_has_db_var mods v :
  forall ctx ctx', has_db_var ctx = has_db_var ctx' ->
  serialize mods ctx v = serialize mods ctx' v.
Proof.
  induction v using value_induction; intros ctx ctx' Hctx; try reflexivity.
  - destruct ctx, ctx'; simpl in *; by subst.
  - change (serialize mods ctx (VAttribute p a k))
      with (serialize_deconstructed p (map (serialize mods ctx) a)
              (map (fun kw => (fst kw, serialize mods ctx (snd kw))) k)).
    change (serialize mods ctx' (VAttribute p a k))
      with (serialize_deconstructed p (map (serialize mods ctx') a)
              (map (fun kw => (fst kw, serialize mods ctx' (snd kw))) k)).
    f_equal; apply map_ext_Forall_eq.
    + eapply Forall_impl; [exact H|]. intros x Hx. by apply Hx.
    + eapply Forall_impl; [exact H0|]. intros x Hx. simpl. f_equal. by apply Hx.
  - destruct h as [own|]; [reflexivity|].
    change (serialize mods ctx (VObject p a k None))
      with (serialize_deconstructed p (map (serialize mods ctx) a)
              (map (fun kw => (fst kw, serialize mods ctx (snd kw))) k)).
    change (serialize mods ctx' (VObject p a k None))
      with (serialize_deconstructed p (map (serialize mods ctx') a)
              (map (fun kw => (fst kw, serialize mods ctx' (snd kw))) k)).
    f_equal; apply map_ext_Forall_eq.
    + eapply Forall_impl; [exact H|]. intros x Hx. by apply Hx.
    + eapply Forall_impl; [exact H0|]. intros x Hx. simpl. f_equal. by apply Hx.
Qed.

(** ** Collections: text, imports, failures *)

Lemma collect_union mods ctx (l : list value) :
  Forall (serializes mods ctx) l ->
  collect (map (serialize mods ctx) l)
  = Ok (map (fun v => text_of (serialize mods ctx v)) l,
        ⋃ (map (fun v => imports_of (serialize mods ctx v)) l)).
Proof.
  induction 1 as [|v l [[s im] Hv] _ IH]; simpl; [done|].
  by rewrite Hv, IH.
Qed.

Lemma collect_first_failure mods ctx (pre post : list value) x e :
  Forall (serializes mods ctx) pre ->
  serialize mods ctx x = Raise e ->
  collect (map (serialize mods ctx) (pre ++ x :: post)) = Raise e.
Proof.
  induction 1 as [|v l [[s im] Hv] _ IH]; intros Hx; simpl.
  - by rewrite Hx.
  - by rewrite Hv, IH.
Qed.

Lemma serialize_elements mods ctx v items :
  elements_of v = Some items ->
  serialize mods ctx v
  = match v with
    | VTuple _ =>
        let '(before, after) := tuple_format (length items) in
        sequence_serialize before after (map (serialize mods empty_ctx) items)
    | VIterable _ => iterable_serialize (map (serialize mods empty_ctx) items)
    | VList _ => sequence_serialize "[" "]" (map (serialize mods empty_ctx) items)
    | VSet _ => sequence_serialize "set([" "])" (map (serialize mods empty_ctx) items)
    | _ => sequence_serialize "frozenset([" "])" (map (serialize mods empty_ctx) items)
    end.
Proof. destruct v; try discriminate; intros [= ->]; reflexivity. Qed.

(** X1.  A list, a set and a frozen set whose elements serialize are
    rendered as the texts of the elements joined by commas, between square
    brackets for a list and inside [set([...])] and [frozenset([...])] for
    the sets; the import lines are those of the elements.  An empty set is
    [set([])], never a pair of braces. *)
Theorem sequence_literal_format (mods : modules) (ctx : context) (v : value)
    (items : list value) (before after : string) :
  sequence_items v = Some (items, (before, after)) ->
  Forall (serializes mods empty_ctx) items ->
  serialize mods ctx v
  = Ok (before +:+ join ", " (map (fun x => text_of (serialize mods empty_ctx x)) items)
          +:+ after,
        ⋃ (map (fun x => imports_of (serialize mods empty_ctx x)) items))
  /\ serialize mods ctx (VSet []) = Ok ("set([])", ∅)
  /\ serialize mods ctx (VFrozenset []) = Ok ("frozenset([])", ∅)
  /\ serialize mods ctx (VList []) = Ok ("[]", ∅).
Proof.
  intros Hv Hitems. split; [|repeat split].
  destruct v; try discriminate; injection Hv as <- <- <-;
    (erewrite serialize_elements by reflexivity);
    unfold sequence_serialize; rewrite (collect_union _ _ _ Hitems); reflexivity.
Qed.

Lemma sequence_literal_format_witness :
  serialize ∅ empty_ctx (VSet [VInt 2; VStr "a"])
  = Ok ("set([" +:+ join ", " (map (fun x => text_of (serialize ∅ empty_ctx x))
                                   [VInt 2; VStr "a"]) +:+ "])",
        ⋃ (map (fun x => imports_of (serialize ∅ empty_ctx x)) [VInt 2; VStr "a"]))
  /\ serialize ∅ empty_ctx (VSet []) = Ok ("set([])", ∅)
  /\ serialize ∅ empty_ctx (VFrozenset []) = Ok ("frozenset([])", ∅)
  /\ serialize ∅ empty_ctx (VList []) = Ok ("[]", ∅).
Proof.
  apply (sequence_literal_format ∅ empty_ctx (VSet [VInt 2; VStr "a"])
           [VInt 2; VStr "a"] "set([" "])").
  - reflexivity.
  - repeat constructor; by eexists.
Defined.

(** X2.  The import lines of a list, tuple, set, frozen set or other
    iterable whose elements serialize are exactly the import lines of its
    elements: a line is required by the collection if and only if one of the
    elements requires it. *)
Theorem collection_imports (mods : modules) (ctx : context) (v : value)
    (items : list value) :
  elements_of v = Some items ->
  Forall (serializes mods empty_ctx) items ->
  serializes mods ctx v
  /\ forall line,
       line ∈ imports_of (serialize mods ctx v)
       <-> exists x, x ∈ items /\ line ∈ imports_of (serialize mods empty_ctx x).
Proof.
  intros Hv Hitems.
  assert (exists text,
             serialize mods ctx v
             = Ok (text, ⋃ (map (fun x => imports_of (serialize mods empty_ctx x)) items)))
    as [text Hs].
  { rewrite (serialize_elements _ _ _ _ Hv).
    destruct v; try discriminate;
      try (destruct (tuple_format (length items)));
      unfold sequence_serialize, iterable_serialize;
      rewrite (collect_union _ _ _ Hitems); simpl;
      try (destruct (negb _)); by eexists. }
  split; [by eexists|].
  intros line. rewrite Hs. simpl. rewrite elem_of_union_list. split.
  - intros (X & HX & Hline). apply list_elem_of_fmap in HX as (x & -> & Hx). eauto.
  - intros (x & Hx & Hline). eexists. split; [|exact Hline].
    apply list_elem_of_fmap. eauto.
Qed.

Lemma collection_imports_witness :
  serializes ∅ empty_ctx (VTuple [VDecimal "Decimal('1.5')"; VDate "datetime.date(2018, 3, 1)"])
  /\ forall line,
       line ∈ imports_of (serialize ∅ empty_ctx
                            (VTuple [VDecimal "Decimal('1.5')";
                                     VDate "datetime.date(2018, 3, 1)"]))
       <-> exists x, x ∈ [VDecimal "Decimal('1.5')"; VDate "datetime.date(2018, 3, 1)"]
                     /\ line ∈ imports_of (serialize ∅ empty_ctx x).
Proof.
  apply (collection_imports ∅ empty_ctx
           (VTuple [VDecimal "Decimal('1.5')"; VDate "datetime.date(2018, 3, 1)"])
           [VDecimal "Decimal('1.5')"; VDate "datetime.date(2018, 3, 1)"]).
  - reflexivity.
  - repeat constructor; by eexists.
Defined.

(** X3.  A list, tuple, set, frozen set or other iterable fails with the
    failure of its first element that fails: the elements before it
    serialize, and what comes after it is not looked at. *)
Theorem collection_first_failure (mods : modules) (ctx : context) (v : value)
    (pre post : list value) (x : value) (e : exn) :
  elements_of v = Some (pre ++ x :: post) ->
  Forall (serializes mods empty_ctx) pre ->
  serialize mods empty_ctx x = Raise e ->
  serialize mods ctx v = Raise e.
Proof.
  intros Hv Hpre Hx. rewrite (serialize_elements _ _ _ _ Hv).
  destruct v; try discriminate;
    try (destruct (tuple_format (length (pre ++ x :: post))));
    unfold sequence_serialize, iterable_serialize;
    by rewrite (collect_first_failure _ _ _ _ _ _ Hpre Hx).
Qed.

Lemma collection_first_failure_witness :
  serialize ∅ empty_ctx (VList [VInt 1; VOpaque; VDict [(KInt 1, VNone); (KStr "a", VNone)]])
  = Raise (ValueError None).
Proof.
  apply (collection_first_failure ∅ empty_ctx
           (VList [VInt 1; VOpaque; VDict [(KInt 1, VNone); (KStr "a", VNone)]])
           [VInt 1] [VDict [(KInt 1, VNone); (KStr "a", VNone)]] VOpaque (ValueError None)).
  - reflexivity.
  - repeat constructor; by eexists.
  - reflexivity.
Defined.

(** ** Mappings: keys that cannot be ordered, and the first failure *)

Lemma collect_dict_first_failure mods (pre post : list (dkey * value)) k x e :
  Forall (fun kv => serializes mods empty_ctx (snd kv)) pre ->
  serialize mods empty_ctx x = Raise e ->
  collect_dict (map (fun kv => (fst kv, (serialize_key (fst kv),
                                         serialize mods empty_ctx (snd kv))))
                    (pre ++ (k, x) :: post))
  = Raise e.
Proof.
  induction 1 as [|[k' v] l [[s im] Hv] _ IH]; intros Hx; simpl.
  - by rewrite serialize_key_text, Hx.
  - simpl in Hv. by rewrite serialize_key_text, Hv, IH.
Qed.

(** X4.  A mapping that has an [int] key and a [str] key cannot be sorted:
    serialization raises [TypeError], before any key or value is serialized
    and whatever the values are. *)
Theorem dict_mixed_keys (mods : modules) (ctx : context)
    (items : list (dkey * value)) (k1 k2 : dkey) :
  k1 ∈ map fst items -> k2 ∈ map fst items -> same_kind k1 k2 = false ->
  serialize mods ctx (VDict items) = Raise TypeError.
Proof.
  intros H1 H2 Hk. rewrite serialize_dict. unfold dictionary_serialize.
  rewrite sorted_items_mixed; [done|].
  rewrite map_map. simpl. intros Hone.
  specialize (Hone k1 k2 H1 H2). congruence.
Qed.

Lemma dict_mixed_keys_witness :
  serialize ∅ empty_ctx (VDict [(KStr "a", VOpaque); (KInt 1, VNone)]) = Raise TypeError.
Proof.
  apply (dict_mixed_keys ∅ empty_ctx [(KStr "a", VOpaque); (KInt 1, VNone)]
           (KStr "a") (KInt 1)).
  - simpl. apply list_elem_of_here.
  - simpl. apply list_elem_of_further, list_elem_of_here.
  - reflexivity.
Defined.

(** X5.  In a mapping with keys of one type, the values are serialized in
    the sorted order of the keys: the mapping fails with the failure of the
    value under the smallest key whose value fails, wherever that item stands
    in the mapping. *)
Theorem dict_failure_in_key_order (mods : modules) (ctx : context)
    (items : list (dkey * value)) (k : dkey) (x : value) (e : exn) :
  NoDup (map fst items) ->
  one_kind (map fst items) ->
  (k, x) ∈ items ->
  serialize mods empty_ctx x = Raise e ->
  (forall k' x', (k', x') ∈ items -> key_lt k' k = Some true ->
                 serializes mods empty_ctx x') ->
  serialize mods ctx (VDict items) = Raise e.
Proof.
  intros Hnd Hkind Hin Hx Hbefore.
  pose proof (sorted_perm key_before items) as Hperm.
  destruct (one_kind_P _ Hkind) as [c Hc]. rewrite Forall_fmap in Hc.
  assert (StronglySorted (not_after key_before) (sorted key_before items)) as Hs.
  { apply (sorted_sorted key_before (fun k => is_int_key k = c));
      [apply key_before_asym|apply key_before_trans|done]. }
  assert ((k, x) ∈ sorted key_before items) as Hin' by (by rewrite Hperm).
  apply list_elem_of_split in Hin' as (pre & post & Hsplit).
  rewrite Hsplit in Hs, Hperm.
  assert (Forall (fun kv => serializes mods empty_ctx (snd kv)) pre) as Hpre.
  { apply Forall_forall. intros [k' x'] Hy. simpl.
    assert ((k', x') ∈ items) as Hy' by (rewrite <- Hperm; set_solver).
    apply (Hbefore k' x' Hy').
    apply StronglySorted_app in Hs as (Hs & _ & _).
    specialize (Hs (k', x') (k, x) Hy ltac:(left)). unfold not_after in Hs. simpl in Hs.
    rewrite Forall_forall in Hc.
    destruct (key_before k' k) eqn:E.
    - unfold key_before in E. destruct (key_lt k' k) as [[]|]; simpl in E; congruence.
    - exfalso.
      assert (k' = k) as ->.
      { apply (key_before_total c); [by apply (Hc (k', x'))|by apply (Hc (k, x))|done..]. }
      assert (NoDup (map fst (pre ++ (k, x) :: post))) as Hnd'
        by (by rewrite (Permutation_map fst Hperm)).
      rewrite map_app in Hnd'. apply NoDup_app in Hnd' as (_ & Hdisj & _).
      apply (Hdisj k).
      + by apply (list_elem_of_fmap_2 fst pre (k, x')).
      + simpl. left. }
  rewrite serialize_dict. unfold dictionary_serialize.
  rewrite sorted_items_one_kind by (by rewrite map_map).
  simpl.
  rewrite (sorted_map key_before
             (fun kv => (serialize_key (fst kv), serialize mods empty_ctx (snd kv)))).
  rewrite Hsplit. by rewrite (collect_dict_first_failure _ _ _ _ _ _ Hpre Hx).
Qed.

Lemma dict_failure_in_key_order_witness :
  serialize ∅ empty_ctx
    (VDict [(KStr "c", VFunction sample_nested); (KStr "b", VOpaque); (KStr "a", VInt 1)])
  = Raise (ValueError None).
Proof.
  apply (dict_failure_in_key_order ∅ empty_ctx
           [(KStr "c", VFunction sample_nested); (KStr "b", VOpaque); (KStr "a", VInt 1)]
           (KStr "b") VOpaque (ValueError None)).
  - solve_NoDup.
  - solve_pairs.
  - apply list_elem_of_further, list_elem_of_here.
  - reflexivity.
  - intros k' x' Hin Hlt.
    repeat (apply elem_of_cons in Hin as [Hin|Hin]); try (by inv Hin);
      injection Hin as -> ->; try discriminate.
    by eexists.
Defined.

(** ** The context *)

(** X6.  Of the context only the flag [has_db_var] is read: the flag
    [is_dynamic], which the dispatch sets for a function, changes the result
    for no value. *)
Theorem context_is_dynamic_unread (mods : modules) (v : value) (db_var d d' : bool) :
  serialize mods {| has_db_var := db_var; is_dynamic := d |} v
  = serialize mods {| has_db_var := db_var; is_dynamic := d' |} v.
Proof. by apply serialize_reads_has_db_var. Qed.

(** X7.  The context goes down to the arguments of a call and no further:
    a collection, mapping, enumeration member, partial application or
    pattern serializes its parts with an empty context.  With a database
    variable in scope an entity class is rendered [db.Name] on its own and as
    an argument of a call, and as its quoted name inside a list. *)
Theorem collections_drop_context (mods : modules) (ctx : context) (v : value)
    (name path callee : string) (imports : gset string) :
  has_db_var ctx = true ->
  drops_context v = true ->
  _serialize_path path = Ok (callee, imports) ->
  serialize mods ctx v = serialize mods empty_ctx v
  /\ serialize mods ctx (VEntity name) = Ok ("db." +:+ name, ∅)
  /\ serialize mods ctx (VObject path [VEntity name] [] None)
     = Ok (callee +:+ "(" +:+ ("db." +:+ name) +:+ ")", imports ∪ (∅ ∪ ∅ ∪ ∅))
  /\ serialize mods ctx (VObject path [VList [VEntity name]] [] None)
     = Ok (callee +:+ "(" +:+ ("[" +:+ repr_str name +:+ "]") +:+ ")",
           imports ∪ (∅ ∪ ∅ ∪ ∅)).
Proof.
  intros Hdb Hv Hpath. repeat split.
  - destruct v; try discriminate; reflexivity.
  - destruct ctx; simpl in *; by subst.
  - change (serialize mods ctx (VObject path [VEntity name] [] None))
      with (serialize_deconstructed path [serialize mods ctx (VEntity name)] []).
    unfold serialize_deconstructed, _format_args. rewrite Hpath.
    destruct ctx; simpl in *; subst. reflexivity.
  - change (serialize mods ctx (VObject path [VList [VEntity name]] [] None))
      with (serialize_deconstructed path [serialize mods ctx (VList [VEntity name])] []).
    unfold serialize_deconstructed, _format_args. by rewrite Hpath.
Qed.

Lemma collections_drop_context_witness :
  serialize ∅ {| has_db_var := true; is_dynamic := false |} (VTuple [VEntity "Person"])
  = serialize ∅ empty_ctx (VTuple [VEntity "Person"])
  /\ serialize ∅ {| has_db_var := true; is_dynamic := false |} (VEntity "Person")
     = Ok ("db." +:+ "Person", ∅)
  /\ serialize ∅ {| has_db_var := true; is_dynamic := false |}
       (VObject "pony.orm.core.Set" [VEntity "Person"] [] None)
     = Ok ("orm.Set" +:+ "(" +:+ ("db." +:+ "Person") +:+ ")",
           {[ "from pony import orm" ]} ∪ (∅ ∪ ∅ ∪ ∅))
  /\ serialize ∅ {| has_db_var := true; is_dynamic := false |}
       (VObject "pony.orm.core.Set" [VList [VEntity "Person"]] [] None)
     = Ok ("orm.Set" +:+ "(" +:+ ("[" +:+ repr_str "Person" +:+ "]") +:+ ")",
           {[ "from pony import orm" ]} ∪ (∅ ∪ ∅ ∪ ∅)).
Proof.
  apply (collections_drop_context ∅ {| has_db_var := true; is_dynamic := false |}
           (VTuple [VEntity "Person"]) "Person" "pony.orm.core.Set"
           "orm.Set" {[ "from pony import orm" ]}); reflexivity.
Defined.

(** ** Literal data, dates and times, patterns, functions *)

Lemma collect_literals (l : list value) :
  Forall (fun x => exists text, forall mods ctx, serialize mods ctx x = Ok (text, ∅)) l ->
  exists texts, forall mods ctx, collect (map (serialize mods ctx) l) = Ok (texts, ∅).
Proof.
  induction 1 as [|x l [t Ht] _ [ts IH]]; simpl.
  - by exists [].
  - exists (t :: ts). intros mods ctx. rewrite Ht, IH. simpl.
    by rewrite (left_id_L ∅ (∪)).
Qed.

(** X8.  Literal data, that is [None], a Boolean, an integer, a float, a
    byte string, a text, or a list, tuple, set or frozen set of literal data,
    always serializes; it needs no import line, and its text depends neither
    on the context nor on the modules that can be imported. *)
Theorem literal_data_serializes (v : value) :
  is_literal v = true ->
  exists text, forall mods ctx, serialize mods ctx v = Ok (text, ∅).
Proof.
  induction v using value_induction; intros Hv; try discriminate;
    try (by eexists; intros; reflexivity).
  all: try (by match goal with b : bool |- _ => destruct b end; eexists).
  all: try (by match goal with f : pyfloat |- _ => destruct f as [|[]|] end; eexists).
  all: match goal with
       | IH : Forall _ ?items |- _ =>
           simpl in Hv; destruct (collect_literals items) as [ts Hts];
           [ rewrite Forall_forall in *; rewrite forallb_forall in Hv;
             intros x Hx; apply IH; [done|]; apply Hv; by apply list_elem_of_In
           | destruct (tuple_format (length items)) as [before after] eqn:E;
             eexists; intros mods ctx; erewrite serialize_elements by reflexivity;
             try rewrite E; unfold sequence_serialize; rewrite Hts; reflexivity ]
       end.
Qed.

Lemma literal_data_serializes_witness :
  exists text, forall mods ctx,
    serialize mods ctx (VList [VTuple [VInt 1; VStr "a"]; VSet []; VNone]) = Ok (text, ∅).
Proof.
  apply (literal_data_serializes (VList [VTuple [VInt 1; VStr "a"]; VSet []; VNone])).
  reflexivity.
Defined.

(** [replace] of [<UTC>] by [utc] *)

Lemma string_prefix_cons a b p s :
  String.prefix (String a p) (String b s) = true <-> a = b /\ String.prefix p s = true.
Proof.
  simpl. destruct (ascii_dec a b); [|by split; [|intros [? _]]].
  split; [done|by intros [_ ?]].
Qed.

Lemma prefix_replace_utc (p s : string) :
  Forall (fun ch => ch <> "<"%char /\ ch <> "u"%char) (list_ascii_of_string p) ->
  String.prefix p (replace_go "<UTC>" "utc" O s) = true ->
  String.prefix p s = true.
Proof.
  revert s. induction p as [|ch p IH]; intros s Hp; [by destruct s|].
  simpl in Hp. apply Forall_cons in Hp as [[Hlt Hu] Hp].
  destruct s as [|a s]; [done|].
  cbn [replace_go]. destruct (String.prefix "<UTC>" (String a s)) eqn:E.
  - intros H. change ("utc" +:+ ?x) with (String "u" ("tc" +:+ x)) in H.
    apply string_prefix_cons in H as [-> _]. done.
  - intros H. apply string_prefix_cons in H as [-> H]. apply string_prefix_cons. split; [done|].
    by apply IH.
Qed.

Lemma occurs_cons_ne (c a : ascii) (p s : string) :
  c <> a -> occurs (String c p) (String a s) = occurs (String c p) s.
Proof.
  intros Hne. cbn [occurs String.prefix].
  by destruct (ascii_dec c a).
Qed.

Lemma replace_utc_gone (k : nat) (s : string) :
  occurs "<UTC>" (replace_go "<UTC>" "utc" k s) = false.
Proof.
  revert k. induction s as [|a s IH]; intros k; [done|].
  cbn [replace_go]. destruct k as [|k]; [|apply IH].
  destruct (String.prefix "<UTC>" (String a s)) eqn:E.
  - change ("utc" +:+ ?x) with (String "u" (String "t" (String "c" x))).
    rewrite !occurs_cons_ne by discriminate. apply IH.
  - destruct (String.prefix "<UTC>" (String a (replace_go "<UTC>" "utc" 0 s))) eqn:E'.
    + apply string_prefix_cons in E' as [<- E'].
      apply prefix_replace_utc in E'.
      * assert (String.prefix "<UTC>" (String "<" s) = true) as E''
          by (apply string_prefix_cons; split; [reflexivity|exact E']).
        rewrite E'' in E. discriminate E.
      * repeat (apply Forall_cons; split; [split; discriminate|]). apply Forall_nil_2.
    + change (occurs "<UTC>" (String a (replace_go "<UTC>" "utc" 0 s)))
        with (String.prefix "<UTC>" (String a (replace_go "<UTC>" "utc" 0 s))
              || occurs "<UTC>" (replace_go "<UTC>" "utc" 0 s)).
      rewrite E', IH. reflexivity.
Qed.

Lemma replace_utc_absent (s : string) :
  contains "<"%char s = false -> replace "<UTC>" "utc" s = s.
Proof.
  unfold replace. induction s as [|a s IH]; [done|].
  cbn [contains replace_go]. intros H. apply orb_false_iff in H as [Ha Hs].
  destruct (String.prefix "<UTC>" (String a s)) eqn:E.
  - apply string_prefix_cons in E as [<- _]. by apply bool_decide_eq_false in Ha.
  - by rewrite IH.
Qed.

(** X9.  A date and time in a zone other than [utc] is converted to
    [utc] first, and when the conversion raises, as it does with an
    [OverflowError] for a value too close to the ends of the range, the
    serialization fails with that exception.  Otherwise the value serializes:
    its text is the [repr], of the converted value when there was a
    conversion, with the marker [<UTC>] replaced by the name [utc], so the
    text never holds the marker, and a [repr] without [<] is kept as it is.
    The result imports [datetime], imports [utc] exactly when the value has
    a zone, and imports nothing else. *)
Theorem datetime_rendering (mods : modules) (ctx : context) (d : datetime) :
  (forall e, dt_tzinfo d = TzOther -> dt_utc_repr d = Raise e ->
     serialize mods ctx (VDatetime d) = Raise e)
  /\ (forall r,
        dt_tzinfo d = TzOther /\ dt_utc_repr d = Ok r
        \/ dt_tzinfo d <> TzOther /\ dt_repr d = r ->
        exists text imports,
          serialize mods ctx (VDatetime d) = Ok (text, imports)
          /\ occurs "<UTC>" text = false
          /\ text = replace "<UTC>" "utc" r
          /\ (contains "<"%char r = false -> text = r)
          /\ "import datetime" ∈ imports
          /\ ("from pony.migrate.utils import utc" ∈ imports <-> dt_tzinfo d <> TzNone)
          /\ (forall line, line ∈ imports ->
                line = "import datetime" \/ line = "from pony.migrate.utils import utc")).
Proof.
  change (serialize mods ctx (VDatetime d)) with (datetime_serialize d).
  unfold datetime_serialize. split.
  - by intros e -> ->.
  - intros r Hr.
    assert (match dt_tzinfo d with TzOther => dt_utc_repr d | _ => Ok (dt_repr d) end = Ok r)
      as ->.
    { destruct Hr as [[-> ->]|[Hz <-]]; [done|]. by destruct (dt_tzinfo d). }
    cbn [mbind result_bind]. eexists _, _. split; [reflexivity|].
    split; [apply replace_utc_gone|].
    split; [reflexivity|].
    split; [apply replace_utc_absent|].
    clear Hr. destruct (dt_tzinfo d); (split; [set_solver|split; [|set_solver]]).
    + split; [|done]. intros H. apply elem_of_singleton in H. discriminate.
    + split; [done|]. intros _. set_solver.
    + split; [done|]. intros _. set_solver.
Qed.

Lemma datetime_rendering_witness :
  serialize ∅ empty_ctx (VDatetime sample_late_datetime) = Raise OverflowError
  /\ exists text imports,
       serialize ∅ empty_ctx (VDatetime sample_datetime) = Ok (text, imports)
       /\ occurs "<UTC>" text = false
       /\ text = replace "<UTC>" "utc" "datetime.datetime(2018, 3, 1, 10, 0, tzinfo=<UTC>)"
       /\ (contains "<"%char "datetime.datetime(2018, 3, 1, 10, 0, tzinfo=<UTC>)" = false ->
           text = "datetime.datetime(2018, 3, 1, 10, 0, tzinfo=<UTC>)")
       /\ "import datetime" ∈ imports
       /\ ("from pony.migrate.utils import utc" ∈ imports
           <-> dt_tzinfo sample_datetime <> TzNone)
       /\ (forall line, line ∈ imports ->
             line = "import datetime" \/ line = "from pony.migrate.utils import utc").
Proof.
  split.
  - apply (proj1 (datetime_rendering ∅ empty_ctx sample_late_datetime) OverflowError);
      reflexivity.
  - apply (proj2 (datetime_rendering ∅ empty_ctx sample_datetime)).
    left. split; reflexivity.
Defined.

(** X10.  A compiled pattern over a text, with integer flags, is rendered
    [re.compile(pattern)] when the flags are zero and
    [re.compile(pattern, flags)] otherwise, with the one import line
    [import re]. *)
Theorem regex_flags_omitted (mods : modules) (ctx : context) (p : string) (flags : Z) :
  serialize mods ctx (VRegex (VStr p) (VInt flags))
  = Ok ("re.compile("
          +:+ join ", " (repr_str p :: if flags =? 0 then [] else [repr_int flags])
          +:+ ")",
        {[ "import re" ]}).
Proof.
  simpl. unfold text_serialize. simpl.
  rewrite !(right_id_L ∅ (∪)).
  by destruct (flags =? 0).
Qed.

(** X11.  The fallback of the function serializer.  A function that is not
    bound to a class, is not a lambda, has a module but no usable qualified
    name, and whose module can be imported and holds the function's name, is
    rendered [module.name] with the import of the module; the module
    [__builtin__] gives the bare name and no import. *)
Theorem function_module_lookup (mods : modules) (ctx : context) (f : function)
    (m : string) (names : gset string) :
  fn_self_class f = None ->
  fn_name f <> "<lambda>" ->
  fn_module f = Some m ->
  m <> EmptyString ->
  unqualified f ->
  mods !! m = Some names ->
  fn_name f ∈ names ->
  serialize mods ctx (VFunction f)
  = Ok (if bool_decide (m = "__builtin__") then (fn_name f, ∅)
        else (m +:+ "." +:+ fn_name f, {[ "import " +:+ m ]})).
Proof.
  intros Hself Hname Hmod Hm Hq Hmods Hin.
  change (serialize mods ctx (VFunction f)) with (function_serialize mods f).
  unfold function_serialize. rewrite Hself, (bool_decide_eq_false_2 _ Hname), Hmod.
  assert (match fn_qualname f with
          | Some q =>
              if negb (bool_decide (q = EmptyString))
                 && negb (bool_decide (m = EmptyString))
                 && negb (contains "<"%char q)
              then Some q else None
          | None => None
          end = None) as ->.
  { unfold unqualified in Hq. destruct (fn_qualname f) as [q|]; [|done].
    destruct Hq as [-> | ->]; [done|]. by rewrite andb_false_r. }
  rewrite (bool_decide_eq_false_2 _ Hm), Hmods, (bool_decide_eq_true_2 _ Hin). simpl.
  by destruct (bool_decide (m = "__builtin__")).
Qed.

Lemma function_module_lookup_witness :
  serialize {[ "app.models" := {[ "inner" ]} ]} empty_ctx (VFunction sample_nested)
  = Ok (if bool_decide ("app.models" = "__builtin__") then (fn_name sample_nested, ∅)
        else ("app.models" +:+ "." +:+ fn_name sample_nested,
              {[ "import " +:+ "app.models" ]})).
Proof.
  apply (function_module_lookup {[ "app.models" := {[ "inner" ]} ]} empty_ctx
           sample_nested "app.models" {[ "inner" ]}).
  - reflexivity.
  - discriminate.
  - reflexivity.
  - discriminate.
  - right. reflexivity.
  - reflexivity.
  - by apply elem_of_singleton.
Defined.

(** X12.  What the function serializer does before and instead of a name
    lookup.  A function bound to a class is rendered
    [module.Class.name] whatever else it is, a lambda included.  A lambda
    that cannot be decompiled fails with the failure of the decompiler.  A
    function with no module fails with a [ValueError] that carries its
    [repr]; one whose module cannot be imported fails with an
    [ImportError]. *)
Theorem function_failures (mods : modules) (ctx : context) (f : function) :
  (forall m c, fn_self_class f = Some (m, c) ->
     serialize mods ctx (VFunction f)
     = Ok (m +:+ "." +:+ c +:+ "." +:+ fn_name f, {[ "import " +:+ m ]}))
  /\ (forall e, fn_self_class f = None -> fn_name f = "<lambda>" ->
        fn_source f = Raise e -> serialize mods ctx (VFunction f) = Raise e)
  /\ (fn_self_class f = None -> fn_name f <> "<lambda>" -> fn_module f = None ->
        serialize mods ctx (VFunction f)
        = Raise (ValueError (Some ("Cannot serialize function " +:+ fn_repr f
                                     +:+ ": No module"))))
  /\ (forall m, fn_self_class f = None -> fn_name f <> "<lambda>" ->
        fn_module f = Some m -> m <> EmptyString -> unqualified f -> mods !! m = None ->
        serialize mods ctx (VFunction f) = Raise ImportError).
Proof.
  change (serialize mods ctx (VFunction f)) with (function_serialize mods f).
  unfold function_serialize. split; [|split; [|split]].
  - by intros m c ->.
  - intros e -> Hname He. by rewrite (bool_decide_eq_true_2 _ Hname), He.
  - intros -> Hname ->. by rewrite (bool_decide_eq_false_2 _ Hname).
  - intros m -> Hname -> Hm Hq Hmods. rewrite (bool_decide_eq_false_2 _ Hname).
    assert (match fn_qualname f with
            | Some q =>
                if negb (bool_decide (q = EmptyString))
                   && negb (bool_decide (m = EmptyString))
                   && negb (contains "<"%char q)
                then Some q else None
            | None => None
            end = None) as ->.
    { unfold unqualified in Hq. destruct (fn_qualname f) as [q|]; [|done].
      destruct Hq as [-> | ->]; [done|]. by rewrite andb_false_r. }
    by rewrite (bool_decide_eq_false_2 _ Hm), Hmods.
Qed.

(** X13.  A deconstruction path without a dot cannot be split into a
    module and a name: the object or the schema attribute fails with a
    [ValueError], before any of its arguments is serialized and whatever they
    are. *)
Theorem deconstructed_path_without_dot (mods : modules) (ctx : context) (path : string)
    (args : list value) (kwargs : list (string * value)) :
  contains "."%char path = false ->
  serialize mods ctx (VObject path args kwargs None)
  = Raise (ValueError (Some "not enough values to unpack (expected 2, got 1)"))
  /\ serialize mods ctx (VAttribute path args kwargs)
     = Raise (ValueError (Some "not enough values to unpack (expected 2, got 1)")).
Proof.
  intros Hpath.
  change (serialize mods ctx (VObject path args kwargs None))
    with (serialize_deconstructed path
            (map (serialize mods (factory_ctx (Some ctx) (VObject path args kwargs None))) args)
            (map (fun kw => (fst kw, serialize mods
                               (factory_ctx (Some ctx) (VObject path args kwargs None))
                               (snd kw))) kwargs)).
  change (serialize mods ctx (VAttribute path args kwargs))
    with (serialize_deconstructed path
            (map (serialize mods (factory_ctx (Some ctx) (VAttribute path args kwargs))) args)
            (map (fun kw => (fst kw, serialize mods
                               (factory_ctx (Some ctx) (VAttribute path args kwargs))
                               (snd kw))) kwargs)).
  unfold serialize_deconstructed, _serialize_path.
  by rewrite (rsplit1_none _ _ Hpath).
Qed.

Lemma deconstructed_path_without_dot_witness :
  serialize ∅ empty_ctx (VObject "Required" [VOpaque] [] None)
  = Raise (ValueError (Some "not enough values to unpack (expected 2, got 1)"))
  /\ serialize ∅ empty_ctx (VAttribute "Required" [VOpaque] [])
     = Raise (ValueError (Some "not enough values to unpack (expected 2, got 1)")).
Proof.
  apply (deconstructed_path_without_dot ∅ empty_ctx "Required" [VOpaque] []).
  reflexivity.
Defined.

(** ** The declaration of an entity *)

Lemma declaration_bases_some (ctx : context) (bases : list value) :
  declaration_bases (Some ctx) bases
  = Ok (map (base_text ctx) (List.filter is_EntityMeta bases), ∅).
Proof.
  induction bases as [|cls bases IH]; [done|].
  cbn [declaration_bases List.filter].
  destruct cls; try exact IH.
  cbn [is_EntityMeta base_serialize map]. rewrite IH. unfold base_text.
  destruct ctx as [[] ?]; simpl; by rewrite (left_id_L ∅ (∪)).
Qed.

Lemma declaration_bases_none (bases : list value) :
  declaration_bases None bases
  = if existsb is_EntityMeta bases then Raise AttributeError else Ok ([], ∅).
Proof.
  induction bases as [|cls bases IH]; [done|].
  cbn [declaration_bases existsb]. destruct (is_EntityMeta cls); [done|exact IH].
Qed.

Lemma declaration_members_lines mods ctx items lines imports :
  declaration_members mods ctx items = Ok (lines, imports) ->
  lines = map (member_line mods ctx) (List.filter kept_member items).
Proof.
  revert lines imports. induction items as [|[name m] items IH]; intros lines imports.
  - by intros [= <- <-].
  - cbn [declaration_members List.filter].
    assert (kept_member (name, m)
            = negb (bool_decide (name ∈ skipped_names) || is_Attribute (m_value m)
                    || m_is_method_function_or_property m)) as -> by reflexivity.
    destruct (bool_decide (name ∈ skipped_names) || is_Attribute (m_value m)
              || m_is_method_function_or_property m); cbn [negb]; [apply IH|].
    destruct (serialize_value mods ctx (m_value m)) as [[s im]|] eqn:E; [|done].
    cbn [mbind result_bind].
    destruct (declaration_members mods ctx items) as [[ls ims]|]; [|done].
    intros [= <- <-]. cbn [map]. unfold member_line at 1. cbn [fst snd]. rewrite E.
    f_equal. by apply (IH ls ims).
Qed.

Lemma declaration_attrs_lines mods ctx attrs lines imports :
  declaration_attrs mods ctx attrs = Ok (lines, imports) ->
  lines = map (attr_line mods ctx) (List.filter (written mods ctx) attrs).
Proof.
  revert lines imports. induction attrs as [|[name a] attrs IH]; intros lines imports.
  - by intros [= <- <-].
  - cbn [declaration_attrs List.filter].
    destruct (serialize_value mods ctx a) as [[s im]|] eqn:E; [|done].
    cbn [mbind result_bind].
    assert (attr_line mods ctx (name, a) = name +:+ " = " +:+ s) as Hline
      by (unfold attr_line; cbn [fst snd]; by rewrite E).
    assert (written mods ctx (name, a)
            = negb (bool_decide (name +:+ " = " +:+ s ∈ implicit_lines))) as ->
      by (unfold written; by rewrite Hline).
    destruct (bool_decide (name +:+ " = " +:+ s ∈ implicit_lines)); cbn [negb]; [apply IH|].
    destruct (declaration_attrs mods ctx attrs) as [[ls ims]|]; [|done].
    intros [= <- <-]. cbn [map]. rewrite Hline.
    f_equal. by apply (IH ls ims).
Qed.

(** X14.  In the declaration of an entity the members of the class
    dictionary under the names [__slots__], [__qualname__], [__module__] and
    [_indexes_], the schema attributes, and the methods, functions and
    properties are skipped before they are serialized: the result is the one
    for the class dictionary without them, so a skipped member that cannot
    be serialized does no harm, and each member that is kept gives the line
    [name = text]. *)
Theorem declaration_members_skipped (mods : modules) (ctx : option context)
    (items : list (string * member)) :
  declaration_members mods ctx items
  = declaration_members mods ctx (List.filter kept_member items)
  /\ forall lines imports,
       declaration_members mods ctx items = Ok (lines, imports) ->
       lines = map (member_line mods ctx) (List.filter kept_member items).
Proof.
  split; [|apply declaration_members_lines].
  induction items as [|[name m] items IH]; [done|].
  cbn [declaration_members List.filter].
  assert (kept_member (name, m)
          = negb (bool_decide (name ∈ skipped_names) || is_Attribute (m_value m)
                  || m_is_method_function_or_property m)) as -> by reflexivity.
  destruct (bool_decide (name ∈ skipped_names) || is_Attribute (m_value m)
            || m_is_method_function_or_property m) eqn:E; cbn [negb]; [exact IH|].
  cbn [declaration_members]. by rewrite E, IH.
Qed.

(** X15.  The new attributes of an entity are all serialized, and the line
    [name = text] of each is written unless it is one of the two lines of the
    attributes every entity has by default:
    [id = orm.PrimaryKey(int, auto=True)] and
    [classtype = orm.Discriminator(str, column='classtype')].  Neither of
    these two lines is ever among the lines of the attributes. *)
Theorem declaration_implicit_attrs (mods : modules) (ctx : option context)
    (attrs : list (string * value)) (lines : list string) (imports : gset string) :
  declaration_attrs mods ctx attrs = Ok (lines, imports) ->
  lines = map (attr_line mods ctx) (List.filter (written mods ctx) attrs)
  /\ Forall (fun line => line ∉ implicit_lines) lines
  /\ Forall (fun attr => exists o, serialize_value mods ctx (snd attr) = Ok o) attrs.
Proof.
  intros H. split; [by apply (declaration_attrs_lines _ _ _ _ imports)|]. split.
  - rewrite (declaration_attrs_lines _ _ _ _ _ H).
    apply Forall_forall. intros line Hin.
    apply list_elem_of_fmap in Hin as (attr & -> & Hin).
    apply list_elem_of_In, filter_In in Hin as [_ Hw].
    unfold written in Hw. apply negb_true_iff, bool_decide_eq_false in Hw. exact Hw.
  - revert lines imports H. induction attrs as [|[name a] attrs IH]; intros lines imports;
      [constructor|].
    cbn [declaration_attrs].
    destruct (serialize_value mods ctx a) as [[s im]|] eqn:E; [|done].
    cbn [mbind result_bind].
    destruct (bool_decide (name +:+ " = " +:+ s ∈ implicit_lines)).
    + intros H. constructor; [by eexists|by apply (IH lines imports)].
    + destruct (declaration_attrs mods ctx attrs) as [[ls ims]|]; [|done].
      intros _. constructor; [by eexists|by apply (IH ls ims)].
Qed.

Lemma declaration_implicit_attrs_witness :
  [ "name = orm.Required(str)" ]
  = map (attr_line ∅ (Some empty_ctx))
        (List.filter (written ∅ (Some empty_ctx))
                     [("id", sample_id_attr); ("name", sample_name_attr)])
  /\ Forall (fun line => line ∉ implicit_lines) [ "name = orm.Required(str)" ]
  /\ Forall (fun attr => exists o, serialize_value ∅ (Some empty_ctx) (snd attr) = Ok o)
            [("id", sample_id_attr); ("name", sample_name_attr)].
Proof.
  apply (declaration_implicit_attrs ∅ (Some empty_ctx)
           [("id", sample_id_attr); ("name", sample_name_attr)]
           [ "name = orm.Required(str)" ] {[ "from pony import orm" ]}).
  reflexivity.
Defined.

(** X16.  Without a context the declaration of an entity that has an
    entity class among its bases cannot be serialized: reading the database
    flag off the missing context raises [AttributeError], before any member or
    attribute is serialized. *)
Theorem declaration_needs_context (mods : modules) (entity : entity_declaration) :
  existsb is_EntityMeta (ed_bases entity) = true ->
  entity_declaration_serialize mods None entity = Raise AttributeError.
Proof.
  intros H. unfold entity_declaration_serialize, declaration_lines.
  by rewrite declaration_bases_none, H.
Qed.

Lemma declaration_needs_context_witness :
  entity_declaration_serialize ∅ None sample_entity = Raise AttributeError.
Proof. apply (declaration_needs_context ∅ sample_entity). reflexivity. Defined.

(** X17.  With a context the bases of a declaration never fail and need no
    import: the header lists the bases that are entity classes, in their
    order, as [db.Name] when a database variable is in scope and as the quoted
    name otherwise, and leaves the other bases out. *)
Theorem declaration_header (mods : modules) (ctx : context) (entity : entity_declaration) :
  declaration_bases (Some ctx) (ed_bases entity)
  = Ok (map (base_text ctx) (List.filter is_EntityMeta (ed_bases entity)), ∅)
  /\ (forall name, base_text ctx (VEntity name)
                   = if has_db_var ctx then "db." +:+ name else repr_str name)
  /\ forall lines imports,
       declaration_lines mods (Some ctx) entity = Ok (lines, imports) ->
       head lines
       = Some ("class " +:+ ed_name entity +:+ "("
                 +:+ join ", " (map (base_text ctx)
                                    (List.filter is_EntityMeta (ed_bases entity)))
                 +:+ "):").
Proof.
  split; [apply declaration_bases_some|]. split.
  - intros name. unfold base_text. destruct ctx as [[] ?]; reflexivity.
  - intros lines imports. unfold declaration_lines. rewrite declaration_bases_some.
    cbn [mbind result_bind].
    destruct (declaration_members _ _ _) as [[ms im2]|]; [|done]. cbn [mbind result_bind].
    destruct (declaration_attrs _ _ _) as [[ats im3]|]; [|done]. cbn [mbind result_bind].
    intros [= <- _].
    destruct (1 <? length (ed_pk_attrs entity))%nat;
      match goal with |- context [Nat.eqb ?n 1] => destruct (Nat.eqb n 1) end;
      reflexivity.
Qed.

Lemma line_not_pass (name s : string) : name +:+ " = " +:+ s <> "pass".
Proof.
  intros H. assert (contains " "%char (name +:+ " = " +:+ s) = true) as Hc.
  { rewrite !contains_app. change (contains " "%char " = ") with true.
    by rewrite orb_true_r. }
  by rewrite H in Hc.
Qed.

Lemma declaration_lines_shape mods ctx entity lines imports :
  declaration_lines mods ctx entity = Ok (lines, imports) ->
  exists header,
    lines = header ::
      match map (member_line mods ctx) (List.filter kept_member (ed_cls_dict entity))
            ++ map (attr_line mods ctx) (List.filter (written mods ctx) (ed_new_attrs entity))
            ++ (if (1 <? length (ed_pk_attrs entity))%nat
                then ["orm.PrimaryKey(" +:+ join ", " (ed_pk_attrs entity) +:+ ")"]
                else [])
      with
      | [] => ["pass"]
      | body => body
      end.
Proof.
  unfold declaration_lines.
  destruct (declaration_bases ctx (ed_bases entity)) as [[bs im1]|]; [|done].
  cbn [mbind result_bind].
  destruct (declaration_members _ _ _) as [[ms im2]|] eqn:Hms; [|done].
  cbn [mbind result_bind].
  destruct (declaration_attrs _ _ _) as [[ats im3]|] eqn:Hats; [|done].
  cbn [mbind result_bind].
  apply declaration_members_lines in Hms. apply declaration_attrs_lines in Hats.
  rewrite <- Hms, <- Hats. intros [= <- _]. eexists.
  destruct (1 <? length (ed_pk_attrs entity))%nat.
  - rewrite <- app_comm_cons, <- app_assoc. cbn [length].
    rewrite !length_app. cbn [length].
    replace (S (length ms + (length ats + 1)) =? 1)%nat with false
      by (symmetry; apply Nat.eqb_neq; lia).
    f_equal. destruct ms; [destruct ats|]; reflexivity.
  - rewrite app_nil_r. cbn [length].
    destruct (ms ++ ats) eqn:E; [reflexivity|].
    cbn [length Nat.eqb]. reflexivity.
Qed.

(** X18.  The body of the declaration of an entity is never empty.  It is
    the one line [pass] exactly when no member of the class dictionary is
    kept, no attribute line is written and the key is not composite; and
    when the key is made of more than one attribute, the last line of the
    body is [orm.PrimaryKey(...)] over the names of the key attributes. *)
Theorem declaration_body (mods : modules) (ctx : option context)
    (entity : entity_declaration) (lines : list string) (imports : gset string) :
  declaration_lines mods ctx entity = Ok (lines, imports) ->
  exists header body,
    lines = header :: body
    /\ body <> []
    /\ (body = ["pass"]
        <-> List.filter kept_member (ed_cls_dict entity) = []
            /\ List.filter (written mods ctx) (ed_new_attrs entity) = []
            /\ (length (ed_pk_attrs entity) <= 1)%nat)
    /\ ((1 < length (ed_pk_attrs entity))%nat ->
        last body = Some ("orm.PrimaryKey(" +:+ join ", " (ed_pk_attrs entity) +:+ ")")).
Proof.
  intros H. apply declaration_lines_shape in H as [header ->].
  eexists _, _. split; [reflexivity|].
  destruct (List.filter kept_member (ed_cls_dict entity)) as [|[n m] ms].
  - destruct (List.filter (written mods ctx) (ed_new_attrs entity)) as [|[n a] ats].
    + destruct (1 <? length (ed_pk_attrs entity))%nat eqn:E; cbn [map app].
      * apply Nat.ltb_lt in E. split; [done|]. split; [|done].
        split; [done|]. intros (_ & _ & ?). lia.
      * apply Nat.ltb_ge in E. split; [done|]. split; [done|]. intros. lia.
    + cbn [map app]. split; [done|]. split.
      * split; [|by intros (_ & ? & _)]. intros [= Hl _]. by apply line_not_pass in Hl.
      * intros Hpk. apply Nat.ltb_lt in Hpk. rewrite Hpk.
        change (?x :: ?l ++ [?y]) with ((x :: l) ++ [y]). by rewrite last_snoc.
  - cbn [map app]. split; [done|]. split.
    + split; [|by intros (? & _)]. intros [= Hl _]. by apply line_not_pass in Hl.
    + intros Hpk. apply Nat.ltb_lt in Hpk. rewrite Hpk.
      rewrite app_assoc. change (?x :: ?l ++ [?y]) with ((x :: l) ++ [y]).
      by rewrite last_snoc.
Qed.

Lemma declaration_body_witness :
  exists header body,
    [ "class Stay('Entity'):"; "limit = 3"; "name = orm.Required(str)";
      "orm.PrimaryKey(id, name)" ] = header :: body
    /\ body <> []
    /\ (body = ["pass"]
        <-> List.filter kept_member (ed_cls_dict sample_keyed_entity) = []
            /\ List.filter (written ∅ (Some empty_ctx))
                           (ed_new_attrs sample_keyed_entity) = []
            /\ (length (ed_pk_attrs sample_keyed_entity) <= 1)%nat)
    /\ ((1 < length (ed_pk_attrs sample_keyed_entity))%nat ->
        last body = Some ("orm.PrimaryKey(" +:+ join ", " (ed_pk_attrs sample_keyed_entity)
                            +:+ ")")).
Proof.
  apply (declaration_body ∅ (Some empty_ctx) sample_keyed_entity
           [ "class Stay('Entity'):"; "limit = 3"; "name = orm.Required(str)";
             "orm.PrimaryKey(id, name)" ]
           {[ "from pony import orm" ]}).
  reflexivity.
Defined.

(** ** Resolving a migration name *)

Lemma last_chars_slash a : last_chars 1 a = "/" -> exists d, a = d +:+ "/".
Proof.
  unfold last_chars. induction a as [|x a IH]; [done|].
  destruct a as [|y a].
  - simpl. intros [= ->]. by exists EmptyString.
  - intros H.
    replace (String.length (String x (String y a)) - 1)%nat
      with (S (String.length (String y a) - 1))%nat in H by (simpl; lia).
    change (String.substring (S ?n) 1 (String x ?s)) with (String.substring n 1 s) in H.
    destruct (IH H) as [d Hd]. exists (String x d). by rewrite Hd.
Qed.

Lemma basename_path_join dir e :
  contains "/"%char e = false -> basename (path_join dir e) = e.
Proof.
  intros He. unfold path_join, basename.
  assert (String.prefix "/" e = false) as ->.
  { destruct e as [|x e]; [done|]. cbn [contains] in He.
    apply orb_false_iff in He as [Hx _]. apply bool_decide_eq_false in Hx.
    destruct (String.prefix "/" (String x e)) eqn:E; [|done].
    by apply string_prefix_cons in E as [<- _]. }
  destruct (bool_decide (dir = EmptyString)) eqn:Hd; cbn [orb].
  - apply bool_decide_eq_true in Hd as ->.
    change (EmptyString +:+ e) with e. by rewrite rsplit1_none.
  - destruct (bool_decide (last_chars 1 dir = "/")) eqn:Hl.
    + apply bool_decide_eq_true, last_chars_slash in Hl as [d ->].
      assert ((d +:+ "/") +:+ e = d +:+ String "/" e) as ->.
      { clear Hd. induction d as [|x d IH]; [done|].
        change (String x d +:+ ?s) with (String x (d +:+ s)).
        change (String x ?a +:+ ?s) with (String x (a +:+ s)). by rewrite IH. }
      by rewrite rsplit1_last.
    + change (dir +:+ "/" +:+ e) with (dir +:+ String "/" e). by rewrite rsplit1_last.
Qed.

Lemma length_append_py r : String.length (r +:+ ".py") = (String.length r + 3)%nat.
Proof. induction r as [|x r IH]; [done|]. simpl. by rewrite IH. Qed.

Lemma last_chars_append_py r : last_chars 3 (r +:+ ".py") = ".py".
Proof.
  unfold last_chars. induction r as [|x r IH]; [done|].
  change (String x r +:+ ".py") with (String x (r +:+ ".py")).
  replace (String.length (String x (r +:+ ".py")) - 3)%nat
    with (S (String.length (r +:+ ".py") - 3))%nat
    by (simpl; rewrite length_append_py; lia).
  exact IH.
Qed.

Lemma drop_last_append_py r : drop_last 3 (r +:+ ".py") = r.
Proof.
  unfold drop_last. rewrite length_append_py.
  replace (String.length r + 3 - 3)%nat with (String.length r) by lia.
  induction r as [|x r IH]; [done|].
  change (String x r +:+ ".py") with (String x (r +:+ ".py")). simpl. by rewrite IH.
Qed.

Lemma append_py_inj r r' : r +:+ ".py" = r' +:+ ".py" -> r = r'.
Proof. intros H. by rewrite <- (drop_last_append_py r), H, drop_last_append_py. Qed.

(** X19.  For a directory and a name token that glob does not read as a
    pattern, the token without a slash, and a migration directory whose
    entries hold no slash, the token resolves to the migration [r] exactly
    when the file [r.py] is the only entry that the token matches as a
    prefix: the directory part of the matched path is dropped again and the
    extension removed. *)
Theorem find_migration_unique (migration_dir : string) (listing : list string)
    (name r : string) :
  glob_literal migration_dir name ->
  Forall (fun e => contains "/"%char e = false) listing ->
  find_migration migration_dir listing name = Ok r
  <-> candidates name listing = [r +:+ ".py"].
Proof.
  intros _ Hl. unfold find_migration, glob_prefix. fold (candidates name listing).
  assert (Forall (fun e => contains "/"%char e = false) (candidates name listing)) as Hc.
  { apply Forall_forall. intros e He. rewrite Forall_forall in Hl. apply Hl.
    unfold candidates in He. by apply list_elem_of_filter in He as [_ ?]. }
  destruct (candidates name listing) as [|e [|e' rest]]; cbn [map length Nat.ltb Nat.leb].
  - split; discriminate.
  - apply Forall_cons in Hc as [He _]. rewrite (basename_path_join _ _ He).
    case_bool_decide as Hpy.
    + split.
      * intros [= <-]. f_equal. by apply last_chars_py.
      * intros [= ->]. by rewrite drop_last_append_py.
    + split; [discriminate|]. intros [= ->]. by rewrite last_chars_append_py in Hpy.
  - split; discriminate.
Qed.

Lemma find_migration_unique_witness :
  find_migration "migrations" ["0001_init.py"; "0002_more.py"; "notes.txt"] "0002"
  = Ok "0002_more"
  <-> candidates "0002" ["0001_init.py"; "0002_more.py"; "notes.txt"]
      = ["0002_more" +:+ ".py"].
Proof.
  apply (find_migration_unique "migrations" ["0001_init.py"; "0002_more.py"; "notes.txt"]
           "0002" "0002_more").
  - split; [|split]; reflexivity.
  - repeat constructor.
Defined.

(** ** The commands: what they print, register and apply *)

Lemma only_acts_ret {A} (a : A) : only_acts (mret a : M A).
Proof. intros w. split; [done|]. exists []. by rewrite app_nil_r. Qed.

Lemma only_acts_raise {A} e : only_acts (raise e : M A).
Proof. intros w. split; [done|]. exists []. by rewrite app_nil_r. Qed.

Lemma only_acts_emit e : is_action e = true -> only_acts (emit e).
Proof. intros He w. split; [done|]. exists [e]. split; [done|]. by constructor. Qed.

Lemma only_acts_bind {A B} (m : M A) (f : A -> M B) :
  only_acts m -> (forall a, only_acts (f a)) -> only_acts (m ≫= f).
Proof.
  intros Hm Hf w. unfold mbind, M_bind. specialize (Hm w).
  destruct (m w) as [[a|e] w']; cbn [snd] in *; [|done].
  destruct Hm as (Hs & added & Ht & Ha).
  destruct (Hf a w') as (Hs' & added' & Ht' & Ha').
  split; [congruence|]. exists (added ++ added'). split.
  - by rewrite Ht', Ht, app_assoc.
  - by apply Forall_app.
Qed.

Lemma print_names_run prefix l w :
  print_names prefix l w
  = (Ok tt, {| sys_argv := sys_argv w; cmd_exitstack := cmd_exitstack w; asked := asked w;
               trace := trace w ++ printed prefix l |}).
Proof.
  revert w. induction l as [|name l IH]; intros w.
  - destruct w. simpl. by rewrite app_nil_r.
  - cbn [print_names]. unfold mbind, M_bind, print, emit. rewrite IH.
    unfold add_event. cbn [sys_argv cmd_exitstack asked trace printed map].
    by rewrite <- app_assoc.
Qed.

Lemma saved_names_perm rows names :
  saved_names rows names
  ≡ₚ map fst (filter (fun r => bool_decide (fst r ∈ names)) rows).
Proof.
  unfold saved_names. etrans; [apply (Permutation_map snd), sorted_perm|].
  by rewrite map_map.
Qed.

Lemma saved_names_elem rows names n :
  n ∈ saved_names rows names <-> n ∈ names /\ n ∈ map fst rows.
Proof.
  rewrite saved_names_perm. rewrite list_elem_of_fmap. split.
  - intros ([n' z] & -> & Hin). apply list_elem_of_filter in Hin as [Hn Hin].
    apply Is_true_true, bool_decide_eq_true in Hn. split; [done|].
    by apply (list_elem_of_fmap_2 fst rows (n', z)).
  - intros [Hn Hin]. apply list_elem_of_fmap in Hin as ([n' z] & -> & Hin).
    exists (n', z). split; [done|]. apply list_elem_of_filter. split; [|done].
    by apply Is_true_true, bool_decide_eq_true.
Qed.

Lemma saved_names_NoDup rows names :
  NoDup (map fst rows) -> NoDup (saved_names rows names).
Proof.
  intros H. rewrite saved_names_perm.
  induction rows as [|[n z] rows IH]; [constructor|].
  simpl in H. apply NoDup_cons in H as [Hn Hnd].
  rewrite filter_cons. destruct (decide _); [|by apply IH].
  simpl. apply NoDup_cons. split; [|by apply IH].
  intros Hin. apply Hn. apply list_elem_of_fmap in Hin as (r & -> & Hin).
  apply list_elem_of_filter in Hin as [_ Hin].
  by apply (list_elem_of_fmap_2 fst rows r).
Qed.

Section command_listing.
Context (migration_dir : string) (listing : list string)
        (disk_loader : loader) (operator : nat -> bool)
        (MIGRATION_TEMPLATE : template_ctx -> string)
        (pony_version : string) (now : string) (PONY_DEBUG : bool)
        (docopt : list string -> result options).

Local Abbreviation merge' :=
  (merge migration_dir disk_loader operator MIGRATION_TEMPLATE pony_version now).
Local Abbreviation show_migrations' :=
  (show_migrations migration_dir disk_loader operator MIGRATION_TEMPLATE pony_version now).
Local Abbreviation migrate' :=
  (migrate migration_dir listing disk_loader operator MIGRATION_TEMPLATE pony_version now
           PONY_DEBUG).
Local Abbreviation cli' :=
  (cli migration_dir listing disk_loader operator MIGRATION_TEMPLATE pony_version now
       PONY_DEBUG docopt).

(** X20.  The listing of a history with one head, or in fail-fast mode
    from its first head, against a database that has the migration table:
    the applied migrations of the plan are printed first, each behind a plus
    sign, then the others in the order of the plan behind two spaces.  When
    neither the plan nor the table repeats a name, every migration of the
    plan is printed exactly once.  Nothing is asked, and the database is
    registered to be disconnected. *)
Theorem listing_prints_plan (db : database) (fail_fast : bool) (w : world)
    (leaf : string) (rest : list string) (rows : list (string * Z)) :
  leaf_nodes disk_loader = leaf :: rest ->
  rest = [] \/ fail_fast = true ->
  db_rows db = Some rows ->
  exists applied pending w',
    show_migrations' db fail_fast w = (Ok tt, w')
    /\ trace w' = trace w ++ printed "+ " applied ++ printed "  " pending
    /\ cmd_exitstack w' = Callback_disconnect db :: cmd_exitstack w
    /\ asked w' = asked w
    /\ (NoDup (forwards_plan disk_loader leaf) -> NoDup (map fst rows) ->
        applied ++ pending ≡ₚ forwards_plan disk_loader leaf)
    /\ (forall n, n ∈ applied <-> n ∈ forwards_plan disk_loader leaf /\ n ∈ map fst rows)
    /\ pending = filter (fun n => n ∉ applied) (forwards_plan disk_loader leaf).
Proof.
  intros Hleaves Hone Hrows.
  set (names := forwards_plan disk_loader leaf) in *.
  exists (saved_names rows names),
         (filter (fun n => negb (bool_decide (n ∈ saved_names rows names))) names).
  eexists. unfold show_migrations. rewrite Hleaves.
  assert (Nat.ltb 1 (length (leaf :: rest)) && negb fail_fast = false) as ->.
  { destruct Hone as [-> | ->]; [done|by rewrite andb_false_r]. }
  rewrite Hrows. fold names.
  unfold mbind at 1, M_bind at 1, callback_disconnect, register.
  unfold mbind, M_bind. rewrite !print_names_run.
  cbn [sys_argv cmd_exitstack asked trace set_exitstack].
  split; [reflexivity|]. cbn [trace cmd_exitstack asked].
  split; [by rewrite <- app_assoc|]. split; [done|]. split; [done|]. split; [|split].
  - intros Hplan Hnd. apply NoDup_Permutation.
    + apply NoDup_app. split; [by apply saved_names_NoDup|]. split.
      * intros n Hn Hp. apply list_elem_of_filter in Hp as [Hp _].
        apply Is_true_true, negb_true_iff, bool_decide_eq_false in Hp. done.
      * by apply NoDup_filter.
    + done.
    + intros n. split.
      * intros [Hn|Hn]%elem_of_app.
        -- by apply saved_names_elem in Hn as [? _].
        -- by apply list_elem_of_filter in Hn as [_ ?].
      * intros Hn. apply elem_of_app.
        destruct (decide (n ∈ map fst rows)); [left; by apply saved_names_elem|right].
        apply list_elem_of_filter. split; [|done].
        apply Is_true_true, negb_true_iff, bool_decide_eq_false.
        rewrite saved_names_elem. by intros [_ ?].
  - apply saved_names_elem.
  - apply list_filter_iff. intros n.
    rewrite Is_true_true, negb_true_iff, bool_decide_eq_false. done.
Qed.

Lemma only_acts_ask_merge leaves : only_acts (ask_merge operator leaves).
Proof.
  intros w. split; [done|]. exists [AskMerge leaves]. split; [done|]. by constructor.
Qed.

Lemma only_acts_print_names prefix l : only_acts (print_names prefix l).
Proof.
  intros w. rewrite print_names_run. split; [done|]. exists (printed prefix l).
  split; [done|]. apply Forall_forall. intros e He.
  apply list_elem_of_fmap in He as (n & -> & _). done.
Qed.

Lemma only_acts_merge_without_db loader_arg leaves_arg :
  only_acts (merge' None loader_arg leaves_arg).
Proof.
  unfold merge, callback_disconnect, print.
  destruct loader_arg, leaves_arg;
    repeat first
      [ apply only_acts_raise | apply only_acts_ask_merge | by apply only_acts_emit
      | apply only_acts_bind; [|intros ?]
      | match goal with
        | |- only_acts (if ?b then _ else _) => destruct b
        end ].
Qed.

Lemma show_migrations_registers db fail_fast w :
  cmd_exitstack (snd (show_migrations' db fail_fast w))
  = Callback_disconnect db :: cmd_exitstack w
  /\ exists added,
       trace (snd (show_migrations' db fail_fast w)) = trace w ++ added
       /\ Forall (fun e => is_action e = true) added.
Proof.
  unfold show_migrations. unfold mbind at 1, M_bind at 1, callback_disconnect, register.
  match goal with
  | |- context [snd (?rest (set_exitstack ?s w))] =>
      assert (only_acts rest) as Hrest; [|apply (Hrest (set_exitstack s w))]
  end.
  unfold show_migrations_without_db, print, pass.
  repeat first
    [ apply only_acts_raise | apply only_acts_ret | apply only_acts_ask_merge
    | apply only_acts_print_names | apply only_acts_merge_without_db
    | by apply only_acts_emit
    | apply only_acts_bind; [|intros ?]
    | match goal with
      | |- only_acts (if ?b then _ else _) => destruct b
      | |- only_acts (match ?x with _ => _ end) => destruct x
      end ].
Qed.

Lemma with_cmd_exitstack_run {A} (block : M A) w :
  with_cmd_exitstack block w
  = (fst (block w),
     unwind (match fst (block w) with Raise e => Some e | Ok _ => None end) (snd (block w))).
Proof. unfold with_cmd_exitstack. by destruct (block w) as [[a|e] w']. Qed.

(** X21.  The list command always disconnects the database.  Started with
    an empty exit stack, [migrate] with [list] set leaves the stack empty
    again, and the disconnection of the database is the one thing the exit
    stack does after the actions of the listing, whether the listing returns
    or raises; with [PONY_DEBUG] set, the report of the debugger hook comes
    after the disconnection. *)
Theorem list_always_disconnects (db : database) (opts : options) (w : world) :
  selected opts = Some cmd_list ->
  cmd_exitstack w = [] ->
  exists r w' acts,
    migrate' db opts w = (r, w')
    /\ cmd_exitstack w' = []
    /\ trace w' = trace w ++ sql_tracing opts ++ acts
                    ++ Disconnect db :: debugger_report PONY_DEBUG r
    /\ Forall (fun e => is_action e = true) acts.
Proof.
  intros Hsel Hstack. unfold migrate. rewrite Hsel.
  unfold mbind, M_bind, sql_tracing.
  destruct (opt_verbose opts || opt_v opts); destruct PONY_DEBUG;
    cbn [emit register pass mret M_ret add_event set_exitstack];
    rewrite with_cmd_exitstack_run;
    match goal with
    | |- context [show_migrations' db false ?w0] =>
        destruct (show_migrations_registers db false w0) as (Hs & acts & Ht & Ha);
        destruct (show_migrations' db false w0) as [r w1]
    end;
    simpl in Hs, Ht; rewrite Hstack in Hs; cbn [fst snd];
    exists r, (unwind (match r with Raise e => Some e | Ok _ => None end) w1), acts;
    (split; [reflexivity|]); (split; [reflexivity|]); (split; [|exact Ha]);
    rewrite unwind_trace, Hs, Ht; destruct r as [[]|e]; simpl;
    by rewrite <- ?app_assoc.
Qed.

Lemma migrate_outcome (db : database) (opts : options) (w : world) (block : M unit)
    (r : result event) (w1 : world) :
  cmd_exitstack w = [] ->
  (forall w0, cmd_exitstack w0 = (if PONY_DEBUG then [Context_drop_into_debugger] else []) ->
     exists w1,
       block w0 = (match r with Ok _ => Ok tt | Raise e => Raise e end, w1)
       /\ cmd_exitstack w1 = cmd_exitstack w0
       /\ trace w1 = trace w0 ++ match r with Ok e => [e] | Raise _ => [] end) ->
  outcome (_ ← (if opt_verbose opts || opt_v opts then emit SqlDebug else pass);
           _ ← (if PONY_DEBUG then register Context_drop_into_debugger else pass);
           with_cmd_exitstack block) w opts PONY_DEBUG r.
Proof.
  intros Hstack Hblock. unfold outcome, mbind, M_bind, sql_tracing.
  destruct (opt_verbose opts || opt_v opts); destruct PONY_DEBUG;
    cbn [emit register pass mret M_ret];
    rewrite with_cmd_exitstack_run;
    match goal with
    | |- context [block ?w0] =>
        destruct (Hblock w0) as (w2 & Hrun & Hs & Ht); [by simpl; rewrite ?Hstack|];
        rewrite Hrun
    end;
    cbn [fst snd]; eexists; (split; [reflexivity|]); (split; [|reflexivity]);
    rewrite unwind_trace, Hs, Ht; simpl; rewrite ?Hstack; destruct r as [ev|e]; simpl;
    by rewrite <- ?app_assoc.
Qed.

(** X22.  The bounds of [apply].  With no start token every migration is
    applied, with no bound, even when an end token is set.  A start token
    alone is resolved and passed as the end bound, with the start bound
    [None].  With both tokens the start is resolved before the end, so a
    start that does not resolve fails before the end is looked at.  A token
    that does not resolve ends the command with its error, and nothing is
    applied.  The flags [--fake] and [--dry] are passed on as they are. *)
Theorem apply_bounds (db : database) (opts : options) (w : world) :
  selected opts = Some cmd_apply ->
  cmd_exitstack w = [] ->
  let apply := MigrationApply (Some (opt_fake opts)) (opt_dry opts) in
  let find := find_migration migration_dir listing in
  (given (opt_start opts) = false ->
     outcome (migrate' db opts) w opts PONY_DEBUG (Ok (apply None None None)))
  /\ (forall s, opt_start opts = Some s -> s <> EmptyString ->
        given (opt_end opts) = false ->
        outcome (migrate' db opts) w opts PONY_DEBUG
          (name_end ← find s; Ok (apply (Some None) (Some (Some name_end)) None)))
  /\ (forall s t, opt_start opts = Some s -> s <> EmptyString ->
        opt_end opts = Some t -> t <> EmptyString ->
        outcome (migrate' db opts) w opts PONY_DEBUG
          (name_start ← find s; name_end ← find t;
           Ok (apply (Some (Some name_start)) (Some (Some name_end)) None))).
Proof.
  intros Hsel Hstack apply find. unfold migrate. rewrite Hsel.
  split; [|split].
  - intros Hstart. rewrite Hstart. cbn [andb].
    apply (migrate_outcome db opts w _ _ w Hstack). intros w0 _.
    eexists. by split; [reflexivity|].
  - intros s Hs Hne Hend. rewrite Hs in *. rewrite Hend. cbn [given].
    rewrite (bool_decide_eq_false_2 _ Hne). cbn [negb andb].
    apply (migrate_outcome db opts w _ _ w Hstack). intros w0 _.
    unfold mbind, M_bind, find_migration_opt, lift, result_bind. subst find.
    destruct (find_migration migration_dir listing s) as [n|e];
      eexists; (split; [reflexivity|]); split; try reflexivity.
    by rewrite app_nil_r.
  - intros s t Hs Hne Ht Hne'. rewrite Hs, Ht. cbn [given].
    rewrite (bool_decide_eq_false_2 _ Hne), (bool_decide_eq_false_2 _ Hne').
    cbn [negb andb].
    apply (migrate_outcome db opts w _ _ w Hstack). intros w0 _.
    unfold mbind, M_bind, find_migration_opt, lift, result_bind. subst find.
    destruct (find_migration migration_dir listing s) as [n|e];
      [destruct (find_migration migration_dir listing t) as [n'|e]|];
      eexists; (split; [reflexivity|]); split; try reflexivity;
      by rewrite app_nil_r.
Qed.

(** X23.  The [sql] command resolves its name and applies exactly that
    migration as a dry run: the flags [--fake] and [--dry] are not passed,
    and no bound is.  A name that does not resolve ends the command with its
    error, and nothing is applied. *)
Theorem sql_is_dry_run (db : database) (opts : options) (w : world) (name : string) :
  selected opts = Some cmd_sql ->
  cmd_exitstack w = [] ->
  opt_name opts = Some name ->
  outcome (migrate' db opts) w opts PONY_DEBUG
    (exact ← find_migration migration_dir listing name;
     Ok (MigrationApply None true None None (Some exact))).
Proof.
  intros Hsel Hstack Hname. unfold migrate. rewrite Hsel, Hname.
  apply (migrate_outcome db opts w _ _ w Hstack). intros w0 _.
  unfold mbind, M_bind, find_migration_opt, lift, result_bind.
  destruct (find_migration migration_dir listing name) as [n|e];
    eexists; (split; [reflexivity|]); split; try reflexivity.
  by rewrite app_nil_r.
Qed.

(** X24.  Without an argument text, or with an empty one, [cli] does not
    touch [sys.argv]: docopt reads the command line of the process, and
    [sys.argv] is the same afterwards, whatever the command does.  An error
    of docopt is passed on with nothing done, and a command line without
    [migrate] ends in [NotImplementedError] with nothing done. *)
Theorem cli_without_argv (db : database) (argv : option string) (w : world) :
  given argv = false ->
  cli' db argv w = cli' db None w
  /\ sys_argv (snd (cli' db argv w)) = sys_argv w
  /\ (forall e, docopt (sys_argv w) = Raise e -> cli' db argv w = (Raise e, w))
  /\ (forall opts, docopt (sys_argv w) = Ok opts ->
        cli' db argv w
        = if opt_migrate opts then migrate' db opts w else (Raise NotImplementedError, w)).
Proof.
  intros Hargv.
  assert (cli' db argv w = cli' db None w) as Heq.
  { unfold cli. destruct argv as [s|]; [|done]. by rewrite Hargv. }
  rewrite Heq. split; [done|]. unfold cli, mbind, M_bind. split; [|split].
  - destruct (docopt (sys_argv w)) as [opts|e]; [|done].
    destruct (opt_migrate opts); [|done]. apply keeps_migrate.
  - by intros e ->.
  - intros opts ->. by destruct (opt_migrate opts).
Qed.

End command_listing.

Lemma listing_prints_plan_witness :
  exists applied pending w',
    show_migrations "migrations" sample_plan_loader (fun _ => false) sample_template
      "0.8" "2018-03-01 12:00" {| db_rows := Some sample_rows |} false sample_world
    = (Ok tt, w')
    /\ trace w' = trace sample_world ++ printed "+ " applied ++ printed "  " pending
    /\ cmd_exitstack w'
       = Callback_disconnect {| db_rows := Some sample_rows |} :: cmd_exitstack sample_world
    /\ asked w' = asked sample_world
    /\ (NoDup (forwards_plan sample_plan_loader "0003_last") -> NoDup (map fst sample_rows) ->
        applied ++ pending ≡ₚ forwards_plan sample_plan_loader "0003_last")
    /\ (forall n, n ∈ applied
                  <-> n ∈ forwards_plan sample_plan_loader "0003_last"
                      /\ n ∈ map fst sample_rows)
    /\ pending = filter (fun n => n ∉ applied) (forwards_plan sample_plan_loader "0003_last").
Proof.
  apply (listing_prints_plan "migrations" sample_plan_loader (fun _ => false) sample_template
           "0.8" "2018-03-01 12:00" {| db_rows := Some sample_rows |} false sample_world
           "0003_last" [] sample_rows).
  - reflexivity.
  - left. reflexivity.
  - reflexivity.
Defined.

Lemma list_always_disconnects_witness :
  exists r w' acts,
    migrate "migrations" sample_listing sample_loader (fun _ => true) sample_template
      "0.8" "2018-03-01 12:00" true sample_db list_options sample_world
    = (r, w')
    /\ cmd_exitstack w' = []
    /\ trace w' = trace sample_world ++ sql_tracing list_options ++ acts
                    ++ Disconnect sample_db :: debugger_report true r
    /\ Forall (fun e => is_action e = true) acts.
Proof.
  apply (list_always_disconnects "migrations" sample_listing sample_loader (fun _ => true)
           sample_template "0.8" "2018-03-01 12:00" true sample_db list_options
           sample_world); reflexivity.
Defined.

Lemma apply_bounds_witness :
  outcome (migrate "migrations" sample_listing sample_single_loader (fun _ => false)
             sample_template "0.8" "2018-03-01 12:00" false sample_db
             (apply_options true false (Some "0002") None))
    sample_world (apply_options true false (Some "0002") None) false
    (name_end ← find_migration "migrations" sample_listing "0002";
     Ok (MigrationApply (Some true) false (Some None) (Some (Some name_end)) None)).
Proof.
  apply (proj1 (proj2 (apply_bounds "migrations" sample_listing sample_single_loader
                         (fun _ => false) sample_template "0.8" "2018-03-01 12:00" false
                         sample_db (apply_options true false (Some "0002") None)
                         sample_world eq_refl eq_refl)) "0002");
    [reflexivity|discriminate|reflexivity].
Defined.

Lemma sql_is_dry_run_witness :
  outcome (migrate "migrations" sample_listing sample_single_loader (fun _ => false)
             sample_template "0.8" "2018-03-01 12:00" true sample_db
             (sql_options true false (Some "0001")))
    sample_world (sql_options true false (Some "0001")) true
    (exact ← find_migration "migrations" sample_listing "0001";
     Ok (MigrationApply None true None None (Some exact))).
Proof.
  apply (sql_is_dry_run "migrations" sample_listing sample_single_loader (fun _ => false)
           sample_template "0.8" "2018-03-01 12:00" true sample_db
           (sql_options true false (Some "0001")) sample_world "0001"); reflexivity.
Defined.

Lemma cli_without_argv_witness :
  cli "migrations" sample_listing sample_single_loader (fun _ => false) sample_template
      "0.8" "2018-03-01 12:00" false sample_docopt sample_db (Some EmptyString) sample_world
  = cli "migrations" sample_listing sample_single_loader (fun _ => false) sample_template
      "0.8" "2018-03-01 12:00" false sample_docopt sample_db None sample_world.
Proof.
  apply (proj1 (cli_without_argv "migrations" sample_listing sample_single_loader
                  (fun _ => false) sample_template "0.8" "2018-03-01 12:00" false
                  sample_docopt sample_db (Some EmptyString) sample_world eq_refl)).
Defined.
